(** * Math agent pipeline: orchestration, retrieval fallback, reranking,
      verification retry loop and output finalizer.

    Shallow embedding of the Python sources under [src/]:
    - [src/nodes/input_guardrail.py], [src/nodes/router.py],
      [src/nodes/query_breaker.py], [src/nodes/local_rag.py],
      [src/nodes/mcp_search.py], [src/nodes/hybrid_reranker.py],
      [src/nodes/reasoning.py], [src/nodes/verifier.py],
      [src/nodes/output_node.py], [src/nodes/feedback_node.py];
    - [src/graph/build_graph.py] (the LangGraph wiring) and
      [src/graph/state.py], [src/config.py], [src/cli/run_agent.py].

    Conventions.  A Python [str] is a list of characters ([str] below); the
    character functions ([lower], [isspace], the regular-expression classes)
    are the ASCII ones.  A Python float that is only compared (retrieval and
    rerank scores, the threshold) is a rational [Q]; NaN is not represented.
    External collaborators (LLM calls, the vector index tool, the MCP bridge,
    the cross-encoder, [json.loads]) are parameters of the development. *)

From Stdlib Require Import QArith Ascii String List Bool Arith Lia Sorted Permutation.
From stdpp Require Import base option list sorting gmap strings.

Set Warnings "-register-all".
Local Open Scope nat_scope.

(** ** Python strings *)

Abbreviation str := (list ascii).

Module PyStr.

(** A string literal as a [str]. *)
Definition lit (s : string) : str := list_ascii_of_string s.

Definition code (c : ascii) : nat := nat_of_ascii c.

(** [str.isspace] on one ASCII character: TAB..CR, FS..US and SPACE. *)
Definition isspace (c : ascii) : bool :=
  let n := code c in
  ((9 <=? n) && (n <=? 13)) || ((28 <=? n) && (n <=? 32)).

Definition isupper (c : ascii) : bool :=
  let n := code c in (65 <=? n) && (n <=? 90).

Definition lower_char (c : ascii) : ascii :=
  if isupper c then ascii_of_nat (code c + 32) else c.

(** [s.lower()] *)
Definition lower (s : str) : str := map lower_char s.

(** [s.lstrip()], [s.rstrip()], [s.strip()] *)
Fixpoint lstrip (s : str) : str :=
  match s with
  | c :: s' => if isspace c then lstrip s' else s
  | [] => []
  end.

Definition rstrip (s : str) : str := rev (lstrip (rev s)).

Definition strip (s : str) : str := rstrip (lstrip s).

Definition ascii_eqb (a b : ascii) : bool := Ascii.eqb a b.

(** [s.startswith(p)] *)
Fixpoint startswith (p s : str) : bool :=
  match p, s with
  | [], _ => true
  | a :: p', b :: s' => ascii_eqb a b && startswith p' s'
  | _ :: _, [] => false
  end.

(** [sub in s] *)
Fixpoint contains (sub s : str) : bool :=
  startswith sub s ||
  match s with
  | [] => false
  | _ :: s' => contains sub s'
  end.

(** [s.split(sep)] for a non-empty separator: the text is scanned from
    the left, every occurrence of [sep] found ends the current piece and
    scanning resumes after it.  [skip] counts the characters of a matched
    separator still to be dropped, [cur] is the current piece reversed. *)
Fixpoint split_go (sep : str) (skip : nat) (cur : str) (s : str) : list str :=
  match s with
  | [] => [rev cur]
  | c :: s' =>
      match skip with
      | S k => split_go sep k cur s'
      | O =>
          if startswith sep s
          then rev cur :: split_go sep (length sep - 1) [] s'
          else split_go sep 0 (c :: cur) s'
      end
  end.

Definition split (sep s : str) : list str := split_go sep 0 [] s.

(** [sep.join(parts)] *)
Fixpoint join (sep : str) (parts : list str) : str :=
  match parts with
  | [] => []
  | [p] => p
  | p :: ps => p ++ sep ++ join sep ps
  end.

(** Truthiness of a string: [bool(s)], i.e. [s != ""]. *)
Definition nonempty (s : str) : bool :=
  match s with [] => false | _ => true end.

(** Slices [s[a:]] and [s[a:-b]] for non-negative [a], [b]. *)
Definition slice_from (a : nat) (s : str) : str := drop a s.
Definition slice_mid (a b : nat) (s : str) : str :=
  drop a (take (length s - b) s).

Definition eqb (a b : str) : bool := bool_decide (a = b).

(** The newline character and the one-character string of it. *)
Definition newline : ascii := ascii_of_nat 10.
Definition nl : str := [newline].

End PyStr.

Import PyStr.

(** ** Data model *)

(** Parsed JSON, as the Python objects [json.loads] returns.  An object is
    the association list of its items; [dict_get] returns the binding that
    [d.get(k)] would. *)
Inductive json : Type :=
| JNull
| JBool (b : bool)
| JNum (q : Q)
| JStr (s : str)
| JArr (items : list json)
| JObj (items : list (str * json)).

Fixpoint dict_get (k : str) (d : list (str * json)) : option json :=
  match d with
  | [] => None
  | (k', v) :: d' => if PyStr.eqb k k' then Some v else dict_get k d'
  end.

(** Python truthiness [bool(v)] of a parsed JSON value. *)
Definition truthy (v : json) : bool :=
  match v with
  | JNull => false
  | JBool b => b
  | JNum q => negb (Qeq_bool q 0)
  | JStr s => nonempty s
  | JArr l => match l with [] => false | _ => true end
  | JObj d => match d with [] => false | _ => true end
  end.

(** Values stored in a [Document]'s metadata dict. *)
Inductive meta_val : Type :=
| MNone
| MStr (s : str)
| MFloat (q : Q).

(** [langchain_core.documents.Document] *)
Record Document : Type := mkDocument {
  page_content : str;
  metadata : gmap string meta_val
}.

(** One hit of the local index tool: [{id, score, payload}]; a missing key
    or a [None] value is [None]. *)
Record Payload : Type := mkPayload {
  p_problem : option str;
  p_solution : option str;
  p_topic : option str;
  p_difficulty : option str;
  p_subject : option str;
  p_source_split : option str
}.

Record RawHit : Type := mkRawHit {
  hit_score : option Q;
  hit_payload : option Payload
}.

(** One entry of [state["web_results"]]. *)
Record WebItem : Type := mkWebItem {
  w_source : option str;
  w_title : option str;
  w_url : option str;
  w_content : option str
}.

(** The [verification] entry of the state is declared [Any]: a JSON string
    or a dict (or anything else). *)
Inductive ver_val : Type :=
| VerStr (s : str)
| VerDict (d : list (str * json))
| VerOther.

(** [MathState] ([src/graph/state.py]), a [TypedDict] with [total=False]:
    every key may be absent ([None] below).  [topic], [difficulty],
    [subject] and [rag_top_k] are the extra keys [local_rag_node] reads. *)
Record MathState : Type := mkState {
  query : option str;
  is_safe : option bool;
  is_math : option bool;
  broken_queries : option (list str);
  local_results : option (list Document);
  web_results : option (list WebItem);
  reranked_results : option (list Document);
  reasoning_output : option str;
  verification : option ver_val;
  final_output : option str;
  needs_web_fallback : option bool;
  loop_count : option Z;
  feedback : option str;
  topic : option str;
  difficulty : option str;
  subject : option str;
  rag_top_k : option Z
}.

(** [state[k] = v] for the keys the nodes write. *)
Definition set_is_safe (v : bool) (s : MathState) : MathState :=
  mkState (query s) (Some v) (is_math s) (broken_queries s) (local_results s)
    (web_results s) (reranked_results s) (reasoning_output s) (verification s)
    (final_output s) (needs_web_fallback s) (loop_count s) (feedback s)
    (topic s) (difficulty s) (subject s) (rag_top_k s).

Definition set_is_math (v : bool) (s : MathState) : MathState :=
  mkState (query s) (is_safe s) (Some v) (broken_queries s) (local_results s)
    (web_results s) (reranked_results s) (reasoning_output s) (verification s)
    (final_output s) (needs_web_fallback s) (loop_count s) (feedback s)
    (topic s) (difficulty s) (subject s) (rag_top_k s).

Definition set_broken_queries (v : list str) (s : MathState) : MathState :=
  mkState (query s) (is_safe s) (is_math s) (Some v) (local_results s)
    (web_results s) (reranked_results s) (reasoning_output s) (verification s)
    (final_output s) (needs_web_fallback s) (loop_count s) (feedback s)
    (topic s) (difficulty s) (subject s) (rag_top_k s).

Definition set_local_results (v : list Document) (s : MathState) : MathState :=
  mkState (query s) (is_safe s) (is_math s) (broken_queries s) (Some v)
    (web_results s) (reranked_results s) (reasoning_output s) (verification s)
    (final_output s) (needs_web_fallback s) (loop_count s) (feedback s)
    (topic s) (difficulty s) (subject s) (rag_top_k s).

Definition set_web_results (v : list WebItem) (s : MathState) : MathState :=
  mkState (query s) (is_safe s) (is_math s) (broken_queries s) (local_results s)
    (Some v) (reranked_results s) (reasoning_output s) (verification s)
    (final_output s) (needs_web_fallback s) (loop_count s) (feedback s)
    (topic s) (difficulty s) (subject s) (rag_top_k s).

Definition set_reranked_results (v : list Document) (s : MathState) : MathState :=
  mkState (query s) (is_safe s) (is_math s) (broken_queries s) (local_results s)
    (web_results s) (Some v) (reasoning_output s) (verification s)
    (final_output s) (needs_web_fallback s) (loop_count s) (feedback s)
    (topic s) (difficulty s) (subject s) (rag_top_k s).

Definition set_reasoning_output (v : str) (s : MathState) : MathState :=
  mkState (query s) (is_safe s) (is_math s) (broken_queries s) (local_results s)
    (web_results s) (reranked_results s) (Some v) (verification s)
    (final_output s) (needs_web_fallback s) (loop_count s) (feedback s)
    (topic s) (difficulty s) (subject s) (rag_top_k s).

Definition set_verification (v : ver_val) (s : MathState) : MathState :=
  mkState (query s) (is_safe s) (is_math s) (broken_queries s) (local_results s)
    (web_results s) (reranked_results s) (reasoning_output s) (Some v)
    (final_output s) (needs_web_fallback s) (loop_count s) (feedback s)
    (topic s) (difficulty s) (subject s) (rag_top_k s).

Definition set_final_output (v : str) (s : MathState) : MathState :=
  mkState (query s) (is_safe s) (is_math s) (broken_queries s) (local_results s)
    (web_results s) (reranked_results s) (reasoning_output s) (verification s)
    (Some v) (needs_web_fallback s) (loop_count s) (feedback s)
    (topic s) (difficulty s) (subject s) (rag_top_k s).

Definition set_needs_web_fallback (v : bool) (s : MathState) : MathState :=
  mkState (query s) (is_safe s) (is_math s) (broken_queries s) (local_results s)
    (web_results s) (reranked_results s) (reasoning_output s) (verification s)
    (final_output s) (Some v) (loop_count s) (feedback s)
    (topic s) (difficulty s) (subject s) (rag_top_k s).

Definition set_loop_count (v : Z) (s : MathState) : MathState :=
  mkState (query s) (is_safe s) (is_math s) (broken_queries s) (local_results s)
    (web_results s) (reranked_results s) (reasoning_output s) (verification s)
    (final_output s) (needs_web_fallback s) (Some v) (feedback s)
    (topic s) (difficulty s) (subject s) (rag_top_k s).

(** [state.setdefault(k, v)]: write only when the key is absent. *)
Definition setdefault {A} (get : MathState -> option A)
    (set : A -> MathState -> MathState) (v : A) (s : MathState) : MathState :=
  match get s with
  | Some _ => s
  | None => set v s
  end.

(** The state the CLI and the tests start a run from: [{"query": q}]. *)
Definition initial_state (q : str) : MathState :=
  mkState (Some q) None None None None None None None None None None None
    None None None None None.

(** [(state.get("query") or "").strip()] *)
Definition stripped_query (s : MathState) : str :=
  strip (default [] (query s)).

(** ** Input guardrail ([src/nodes/input_guardrail.py]) *)

Definition harmful_keywords : list str :=
  map lit ["kill"; "bomb"; "attack"; "hack"; "suicide";
           "nsfw"; "virus"; "exploit"]%string.

(** The list as Python reads it: in the source there is no comma between
    ["lim"] and ["compute"], so the two literals are one keyword. *)
Definition math_keywords : list str :=
  map lit ["solve"; "equation"; "calculate"; "find"; "how many"; "value";
           "integral"; "derivative"; "number"; "arithmatic"; "angle"; "axis";
           "center"; "clock"; "compare"; "count"; "total";
           "limit"; "probability"; "algebra"; "geometry"; "matrix";
           "expression"; "formula"; "constant"; "variable"; "trigonometric";
           "circle"; "triangle"; "degree"; "percentage"; "sin"; "cos"; "tan";
           "limcompute"; "evaluate"; "estimate"; "simplify"; "function";
           "theorem";
           "equals"; "root"; "square"; "linear"; "polynomial"; "area"; "bar";
           "factor"; "time"; "times"; "profit"; "rule"; "power"; "solution";
           "prove"; "proof"; "measure"; "series"; "sum"; "product"; "ratio";
           "vector"; "graph"; "algorithm"; "set"; "digit"; "fraction"; "unit";
           "x^"; "y^"; "z^"]%string.

Definition msg_empty : str := lit "Invalid query: input is empty.".

Definition msg_unsafe : str :=
  lit "Your query appears to contain unsafe or harmful content. This math agent only answers mathematics questions.".

Definition msg_not_math : str :=
  lit "This agent only supports mathematics-related questions. Please ask a math question (e.g., an equation, proof, or calculation).".

(** [any(k in lowered for k in keywords)] *)
Definition any_in (keywords : list str) (lowered : str) : bool :=
  existsb (fun k => contains k lowered) keywords.

Definition input_guardrail_node (state : MathState) : MathState :=
  let query := stripped_query state in
  let state := setdefault is_safe set_is_safe false state in
  if negb (nonempty query) then
    set_reasoning_output msg_empty (set_is_safe false state)
  else
    let lowered := lower query in
    if any_in harmful_keywords lowered then
      set_reasoning_output msg_unsafe (set_is_safe false state)
    else if negb (any_in math_keywords lowered) then
      set_reasoning_output msg_not_math (set_is_safe false state)
    else
      set_is_safe true state.

(** The three ways a query is rejected, as the spec lists them. *)
Inductive rejection : Type := RejEmpty | RejUnsafe | RejNotMath.

Definition rejection_message (r : rejection) : str :=
  match r with
  | RejEmpty => msg_empty
  | RejUnsafe => msg_unsafe
  | RejNotMath => msg_not_math
  end.

(** The filter policy on the raw query, first match wins. *)
Definition classify (q : str) : option rejection :=
  let query := strip q in
  if negb (nonempty query) then Some RejEmpty
  else if any_in harmful_keywords (lower query) then Some RejUnsafe
  else if negb (any_in math_keywords (lower query)) then Some RejNotMath
  else None.

(** ** Router ([src/nodes/router.py]) *)

Definition router_defaults (state : MathState) : MathState :=
  let state := setdefault broken_queries set_broken_queries [] state in
  let state := setdefault local_results set_local_results [] state in
  let state := setdefault web_results set_web_results [] state in
  let state := setdefault reranked_results set_reranked_results [] state in
  let state := setdefault reasoning_output set_reasoning_output [] state in
  let state := setdefault verification set_verification (VerStr []) state in
  let state := setdefault needs_web_fallback set_needs_web_fallback false state in
  (* state.setdefault("feedback", None): reads of the key are unchanged *)
  let state := setdefault loop_count set_loop_count 0%Z state in
  let state := setdefault final_output set_final_output [] state in
  state.

Definition router_node (state : MathState) : MathState :=
  if negb (default false (is_safe state)) then router_defaults state
  else set_is_math true (router_defaults state).

(** ** External collaborators *)

(** What an LLM call gives back: it raises, or the message content is not
    a string, or it is one. *)
Inductive llm_reply : Type :=
| LlmRaises
| LlmNonStr
| LlmStr (content : str).

(** [local_rag_search.invoke(...)]: it raises, or returns a dict whose
    ["results"] entry is absent (the tool's error dicts) or a list of
    hits. *)
Inductive tool_reply : Type :=
| ToolRaises
| ToolOutput (results : option (list RawHit)).

(** One Tavily result as [mcp_search_node] reads it. *)
Record TavilyItem : Type := mkTavilyItem {
  tv_title : option str;
  tv_url : option str;
  tv_content : option str
}.

(** The arguments of the local index tool call. *)
Record RagArgs : Type := mkRagArgs {
  ra_query : str;
  ra_top_k : Z;
  ra_topic : option str;
  ra_difficulty : option str;
  ra_subject : option str
}.

(** The environment of a run.  Every call takes the logical time [t] of
    the node execution that makes it, so that two calls of one session may
    be answered differently.
    - [json_loads s]: [json.loads(s)], [None] when it raises;
    - [GROQ_API_KEY], [RAG_THRESHOLD]: the values [src/config.py] reads;
    - [bridge_results]: the ["results"] list of the decoded bridge answer,
      [None] when the answer has none (timeout, error dict, non-JSON);
    - [cross_encoder]: the scores, [None] when scoring raises;
    - [reasoning_llm]: the content string, [None] when the call raises. *)
Record Ext : Type := mkExt {
  json_loads : str -> option json;
  GROQ_API_KEY : str;
  RAG_THRESHOLD : Q;
  llm_split_call : nat -> str -> llm_reply;
  local_rag_search : nat -> RagArgs -> tool_reply;
  bridge_results : nat -> str -> option (list TavilyItem);
  cross_encoder : nat -> list (str * str) -> option (list Q);
  reasoning_llm : nat -> str -> list Document -> option str;
  verifier_llm : nat -> str -> str -> llm_reply
}.

(** The external calls a node makes, in order. *)
Inductive event : Type :=
| EvLlmSplit
| EvLocalRagTool
| EvBridge
| EvCrossEncoder
| EvReasoningLlm
| EvVerifierLlm
| EvFeedbackSink.

(** ** Query breaker ([src/nodes/query_breaker.py]) *)

Definition triggers : list str :=
  map lit [" and "; " then "; " also "; " next "; " first "; " second "]%string.

(** [[p.strip() for p in query.split(trig) if p.strip()]] *)
Definition split_parts (trig query : str) : list str :=
  List.filter nonempty (map strip (split trig query)).

(** The [for trig in triggers] loop of [_heuristic_split]. *)
Fixpoint heuristic_loop (trigs : list str) (query lowered : str) : list str :=
  match trigs with
  | [] => [query]
  | trig :: rest =>
      if contains trig lowered then split_parts trig query
      else heuristic_loop rest query lowered
  end.

Definition _heuristic_split (query : str) : list str :=
  heuristic_loop triggers query (lower query).

Definition is_jstr (v : json) : bool :=
  match v with JStr _ => true | _ => false end.

Definition jstr_text (v : json) : str :=
  match v with JStr s => s | _ => [] end.

Definition _llm_split (E : Ext) (t : nat) (query : str) : list str * list event :=
  if negb (nonempty (GROQ_API_KEY E)) then ([query], [])
  else
    match llm_split_call E t query with
    | LlmStr content =>
        match json_loads E content with
        | Some (JArr subqs) =>
            if forallb is_jstr subqs
            then (List.filter nonempty (map strip (map jstr_text subqs)),
                  [EvLlmSplit])
            else ([query], [EvLlmSplit])
        | _ => ([query], [EvLlmSplit])
        end
    | _ => ([query], [EvLlmSplit])
    end.

Definition query_breaker_node (E : Ext) (t : nat) (state : MathState)
  : MathState * list event :=
  let query := stripped_query state in
  let heuristics := _heuristic_split query in
  if 1 <? length heuristics then (set_broken_queries heuristics state, [])
  else
    let '(subqueries, evs) := _llm_split E t query in
    let subqueries := match subqueries with [] => [query] | _ => subqueries end in
    (set_broken_queries subqueries state, evs).

(** *** The decomposition heuristic as the spec words it

    Connective tokens matched as whole words, in any letter case; the query
    is split on the first token of the priority list that occurs. *)

Definition spec_tokens : list str :=
  map lit ["and"; "then"; "also"; "next"; "first"; "second"]%string.

(** A word character of a regular expression: letter, digit or [_]. *)
Definition is_word_char (c : ascii) : bool :=
  let n := code c in
  ((48 <=? n) && (n <=? 57)) || ((65 <=? n) && (n <=? 90))
  || ((97 <=? n) && (n <=? 122)) || (n =? 95).

Definition opt_word (o : option ascii) : bool :=
  match o with Some c => is_word_char c | None => false end.

(** [tok] stands at the head of [s] as a whole word, [prev] being the
    character before it. *)
Definition spec_word_at (tok : str) (prev : option ascii) (s : str) : bool :=
  negb (opt_word prev)
  && startswith tok (lower s)
  && negb (opt_word (head (drop (length tok) s))).

Fixpoint spec_split_go (tok : str) (skip : nat) (prev : option ascii)
    (cur : str) (s : str) : list str :=
  match s with
  | [] => [rev cur]
  | c :: s' =>
      match skip with
      | S k => spec_split_go tok k (Some c) cur s'
      | O =>
          if spec_word_at tok prev s
          then rev cur :: spec_split_go tok (length tok - 1) (Some c) [] s'
          else spec_split_go tok 0 (Some c) (c :: cur) s'
      end
  end.

Definition spec_fragments (tok query : str) : list str :=
  List.filter nonempty (map strip (spec_split_go tok 0 None [] query)).

(** The token occurs as a whole word: splitting on it cuts somewhere. *)
Definition spec_has_word (tok query : str) : bool :=
  1 <? length (spec_split_go tok 0 None [] query).

Definition spec_first_token (query : str) : option str :=
  List.find (fun tok => spec_has_word tok query) spec_tokens.

(** ** Local retrieval ([src/nodes/local_rag.py]) *)

(** [a < b] on scores. *)
Definition Qltb (a b : Q) : bool := negb (Qle_bool b a).

Definition opt_meta (o : option str) : meta_val :=
  match o with Some s => MStr s | None => MNone end.

Definition empty_payload : Payload := mkPayload None None None None None None.

(** The body of the [for r in raw_results] loop: the document built from
    one hit, or nothing when the hit has no problem text. *)
Definition hit_to_doc (r : RawHit) : option Document :=
  let payload := default empty_payload (hit_payload r) in
  let problem := strip (default [] (p_problem payload)) in
  let solution := strip (default [] (p_solution payload)) in
  let score := default 0%Q (hit_score r) in
  if negb (nonempty problem) then None
  else
    let text_parts :=
      (lit "Problem: " ++ problem) ::
      (if nonempty solution then [lit "Solution: " ++ solution] else []) in
    let text := join nl text_parts in
    Some (mkDocument text
      (<["origin" := MStr (lit "local_rag")]>
       (<["score" := MFloat score]>
       (<["topic" := opt_meta (p_topic payload)]>
       (<["difficulty" := opt_meta (p_difficulty payload)]>
       (<["subject" := opt_meta (p_subject payload)]>
       (<["split" := opt_meta (p_source_split payload)]> ∅))))))).

Definition hits_to_docs (raw_results : list RawHit) : list Document :=
  omap hit_to_doc raw_results.

(** [float(doc.metadata.get("score", 0.0))] *)
Definition doc_score (d : Document) : Q :=
  match metadata d !! "score"%string with
  | Some (MFloat q) => q
  | _ => 0%Q
  end.

Definition local_rag_node (E : Ext) (t : nat) (state : MathState)
  : MathState * list event :=
  let query := stripped_query state in
  let broken := default [] (broken_queries state) in
  let retrieval_query :=
    match broken with
    | b0 :: _ => strip b0
    | [] => query
    end in
  if negb (nonempty retrieval_query) then
    (set_needs_web_fallback true (set_local_results [] state), [])
  else
    let top_k :=
      let k := default 5%Z (rag_top_k state) in
      if (k =? 0)%Z then 5%Z else k in
    let args := mkRagArgs retrieval_query top_k
                  (topic state) (difficulty state) (subject state) in
    match local_rag_search E t args with
    | ToolRaises =>
        (set_needs_web_fallback true (set_local_results [] state),
         [EvLocalRagTool])
    | ToolOutput results =>
        let raw_results := default [] results in
        let docs := hits_to_docs raw_results in
        let state := set_local_results docs state in
        match docs with
        | [] => (set_needs_web_fallback true state, [EvLocalRagTool])
        | d0 :: _ =>
            let top_score := doc_score d0 in
            (set_needs_web_fallback (Qltb top_score (RAG_THRESHOLD E)) state,
             [EvLocalRagTool])
        end
    end.

(** ** External search ([src/nodes/mcp_search.py]) *)

Definition tavily_to_web (item : TavilyItem) : WebItem :=
  mkWebItem (Some (lit "tavily")) (tv_title item) (tv_url item)
    (Some (default [] (tv_content item))).

Definition mcp_search_node (E : Ext) (t : nat) (state : MathState)
  : MathState * list event :=
  let query := stripped_query state in
  if negb (nonempty query) then (set_web_results [] state, [])
  else
    let aggregated_results :=
      match bridge_results E t query with
      | Some tavily_results => map tavily_to_web tavily_results
      | None => []
      end in
    (set_web_results aggregated_results state, [EvBridge]).

(** ** Hybrid reranker ([src/nodes/hybrid_reranker.py]) *)

Definition RERANK_TOP_K : nat := 8.

(** A candidate: its text and its metadata dict (the source keeps them in
    two lists, [candidates_text] and [candidates_meta], grown together). *)
Definition candidate : Type := str * gmap string meta_val.

Definition _make_candidate_from_local (doc : Document) : candidate :=
  let meta := metadata doc in
  let meta :=
    match meta !! "origin"%string with
    | Some _ => meta
    | None => <["origin" := MStr (lit "local_rag")]> meta
    end in
  (strip (page_content doc), meta).

Definition _make_candidate_from_web (item : WebItem) : candidate :=
  let title := strip (default [] (w_title item)) in
  let url := strip (default [] (w_url item)) in
  let content := strip (default [] (w_content item)) in
  let parts :=
    (if nonempty title then [lit "Title: " ++ title] else [])
    ++ (if nonempty url then [lit "URL: " ++ url] else [])
    ++ (if nonempty content then [[]; content] else []) in
  let text := strip (join nl parts) in
  let meta : gmap string meta_val :=
    <["origin" := MStr (default (lit "web") (w_source item))]>
    (<["title" := MStr title]>
    (<["url" := MStr url]> ∅)) in
  (text, meta).

(** The candidates with a non-empty text, in order. *)
Definition keep_nonempty (cs : list candidate) : list candidate :=
  List.filter (fun c => nonempty (fst c)) cs.

(** The pool built by the conditional merging block. *)
Definition candidate_pool (needs_web : bool) (local_docs : list Document)
    (web_items : list WebItem) : list candidate :=
  (if negb needs_web
   then keep_nonempty (map _make_candidate_from_local local_docs)
   else [])
  ++ keep_nonempty (map _make_candidate_from_web web_items).

(** [l.sort(key=..., reverse=True)]: a stable sort, which CPython runs
    for [reverse=True] as reverse, sort ascending, reverse. *)
Fixpoint insert_asc {A} (key : A -> Q) (x : A) (l : list A) : list A :=
  match l with
  | [] => [x]
  | y :: l' =>
      if Qle_bool (key x) (key y) then x :: l else y :: insert_asc key x l'
  end.

Definition sort_asc {A} (key : A -> Q) (l : list A) : list A :=
  foldr (insert_asc key) [] l.

Definition sort_reverse {A} (key : A -> Q) (l : list A) : list A :=
  rev (sort_asc key (rev l)).

Definition scored_doc (x : candidate * Q) : Document :=
  let '((text, meta), score) := x in
  mkDocument text (<["rerank_score" := MFloat score]> meta).

(** The ranking of a scored pool: sort, keep the first [RERANK_TOP_K],
    record the score. *)
Definition rank_scored (scored : list (candidate * Q)) : list Document :=
  map scored_doc (take RERANK_TOP_K (sort_reverse snd scored)).

Definition web_fallback_docs (web_items : list WebItem) : list Document :=
  map (fun c => mkDocument (fst c) (snd c))
    (keep_nonempty (map _make_candidate_from_web (take RERANK_TOP_K web_items))).

Definition hybrid_reranker_node (E : Ext) (t : nat) (state : MathState)
  : MathState * list event :=
  let query := stripped_query state in
  if negb (nonempty query) then (set_reranked_results [] state, [])
  else
    let needs_web := default false (needs_web_fallback state) in
    let local_docs := default [] (local_results state) in
    let web_items := default [] (web_results state) in
    let candidates := candidate_pool needs_web local_docs web_items in
    match candidates with
    | [] => (set_reranked_results [] state, [])
    | _ =>
        let pairs := map (fun c => (query, fst c)) candidates in
        match cross_encoder E t pairs with
        | None =>
            if negb needs_web
            then (set_reranked_results (take RERANK_TOP_K local_docs) state,
                  [EvCrossEncoder])
            else (set_reranked_results (web_fallback_docs web_items) state,
                  [EvCrossEncoder])
        | Some scores =>
            let scored := zip candidates scores in
            (set_reranked_results (rank_scored scored) state, [EvCrossEncoder])
        end
    end.

(** ** Reasoning ([src/nodes/reasoning.py]) *)

Definition msg_reasoning_failed : str :=
  lit "Error: The reasoning model failed. Please try again or verify the retrieved context.".

Definition reasoning_node (E : Ext) (t : nat) (state : MathState)
  : MathState * list event :=
  let query := stripped_query state in
  let docs := default [] (reranked_results state) in
  let reasoning_output :=
    match reasoning_llm E t query docs with
    | Some response => response
    | None => msg_reasoning_failed
    end in
  (set_reasoning_output reasoning_output state, [EvReasoningLlm]).

(** ** Verifier ([src/nodes/verifier.py]) *)

Definition backtick : ascii := ascii_of_nat 96.
Definition dquote : ascii := ascii_of_nat 34.

(** The literal the source tests with [startswith]: six backticks. *)
Definition fence_marker : str := repeat backtick 6.

Definition _strip_code_fence (text : str) : str :=
  let t := strip text in
  if startswith fence_marker t then
    let t := strip (slice_mid 3 3 t) in
    if startswith (lit "json") (lower t) then strip (slice_from 4 t) else t
  else t.

(** The exceptions of the [try] block. *)
Inductive exn : Type :=
| CallError
| ValueError
| JSONDecodeError.

(** The body of the [try] block: the validated content, or the exception
    it raises. *)
Definition verifier_try (E : Ext) (t : nat) (query reasoning_output : str)
  : exn + str :=
  match verifier_llm E t query reasoning_output with
  | LlmRaises => inl CallError
  | LlmNonStr => inl ValueError
  | LlmStr content =>
      let content := _strip_code_fence content in
      if negb (startswith (lit "{") content) then inl ValueError
      else
        match json_loads E content with
        | None => inl JSONDecodeError
        | Some _ => inr content
        end
  end.

Definition issue_verifier_failed : str :=
  lit "Verifier model failed to evaluate the solution.".

Definition improved_answer_retry : str :=
  lit "The system could not verify this solution. Please try again or solve the problem manually.".

(** The dict of the [except] branch. *)
Definition safe_default : list (str * json) :=
  [ (lit "is_correct", JBool false);
    (lit "issues", JArr [JStr issue_verifier_failed]);
    (lit "improved_answer", JStr improved_answer_retry) ].

Definition quoted (s : str) : str := dquote :: s ++ [dquote].

(** [json.dumps(safe_default, ensure_ascii=False)]: items in insertion
    order, separators [", "] and [": "]; no character of the three texts
    needs an escape. *)
Definition safe_default_text : str :=
  lit "{" ++ quoted (lit "is_correct") ++ lit ": false, "
  ++ quoted (lit "issues") ++ lit ": [" ++ quoted issue_verifier_failed
  ++ lit "], "
  ++ quoted (lit "improved_answer") ++ lit ": " ++ quoted improved_answer_retry
  ++ lit "}".

(** [not data.get("is_correct", True)] for a dict [data]. *)
Definition marked_incorrect (data : list (str * json)) : bool :=
  negb (truthy (default (JBool true) (dict_get (lit "is_correct") data))).

Definition verifier_node (E : Ext) (t : nat) (state : MathState)
  : MathState * list event :=
  let query := stripped_query state in
  let reasoning_output := strip (default [] (reasoning_output state)) in
  let verification :=
    match verifier_try E t query reasoning_output with
    | inr content => content
    | inl _ => safe_default_text
    end in
  let state := set_verification (VerStr verification) state in
  let data :=
    match json_loads E verification with
    | Some d => d
    | None => JObj []
    end in
  match data with
  | JObj d =>
      if marked_incorrect d
      then (set_loop_count (default 0%Z (loop_count state) + 1)%Z state,
            [EvVerifierLlm])
      else (state, [EvVerifierLlm])
  | _ => (state, [EvVerifierLlm])
  end.

(** ** Output finalizer ([src/nodes/output_node.py]) *)

(** [pattern.sub(repl, text)] for a pattern that never matches the empty
    string.  [m prev s] is the length of the match of the pattern at the
    head of [s], [prev] being the character before it; the text is scanned
    from the left and scanning resumes after each match. *)
Fixpoint re_sub_go (m : option ascii -> str -> option nat) (repl : str)
    (skip : nat) (prev : option ascii) (s : str) : str :=
  match s with
  | [] => []
  | c :: s' =>
      match skip with
      | S k => re_sub_go m repl k (Some c) s'
      | O =>
          match m prev s with
          | Some (S k) => repl ++ re_sub_go m repl k (Some c) s'
          | _ => c :: re_sub_go m repl 0 (Some c) s'
          end
      end
  end.

Definition re_sub (m : option ascii -> str -> option nat) (repl text : str) : str :=
  re_sub_go m repl 0 None text.

(** Offset of the first occurrence of the lower-case literal [p] in [s],
    letter case ignored. *)
Fixpoint find_ci (p s : str) : option nat :=
  if startswith p (lower s) then Some 0
  else
    match s with
    | [] => None
    | _ :: s' => S <$> find_ci p s'
    end.

Definition think_open : str := lit "<think>".
Definition think_close : str := lit "</think>".

(** [THINK_PATTERN], with DOTALL and IGNORECASE: the opening tag,
    the shortest text, the closing tag. *)
Definition think_match (prev : option ascii) (s : str) : option nat :=
  if startswith think_open (lower s) then
    match find_ci think_close (drop (length think_open) s) with
    | Some k => Some (length think_open + k + length think_close)
    | None => None
    end
  else None.

(** The assertion [\b] between two positions. *)
Definition word_boundary (before after : option ascii) : bool :=
  xorb (opt_word before) (opt_word after).

(** A forbidden pattern: [\b], the phrase in any letter case, [\b]. *)
Definition phrase_match (phrase : str) (prev : option ascii) (s : str) : option nat :=
  let n := length phrase in
  if word_boundary prev (head s)
     && startswith (lower phrase) (lower s)
     && word_boundary (last (take n s)) (head (drop n s))
  then Some n else None.

Definition FORBIDDEN_PATTERNS : list str :=
  map lit ["as an AI"; "I am unable to"; "system prompt"; "developer message";
           "OpenAI policies"; "reasoning process"; "chain of thought"]%string.

Fixpoint newline_run (s : str) : nat :=
  match s with
  | c :: s' => if ascii_eqb c newline then S (newline_run s') else 0
  | [] => 0
  end.

(** [MULTI_NL_PATTERN]: three or more newlines, as many as there are. *)
Definition multi_nl_match (prev : option ascii) (s : str) : option nat :=
  let n := newline_run s in
  if 3 <=? n then Some n else None.

Definition _strip_think_tags (text : str) : str :=
  if negb (nonempty text) then []
  else strip (re_sub think_match [] text).

Definition remove_forbidden (text : str) : str :=
  fold_left (fun text pat => re_sub (phrase_match pat) [] text)
    FORBIDDEN_PATTERNS text.

Definition _sanitize_output (text : str) : str :=
  if negb (nonempty text) then []
  else strip (re_sub multi_nl_match [newline; newline] (remove_forbidden text)).

(** The finalizing transformation [output_node] applies to the reasoning
    text: strip, think-tag removal, sanitizing, strip. *)
Definition finalize (text : str) : str :=
  strip (_sanitize_output (_strip_think_tags (strip text))).

Definition _parse_verifier_json (E : Ext) (raw : option ver_val) : option json :=
  match raw with
  | None => None
  | Some (VerDict d) => Some (JObj d)
  | Some (VerStr s) => json_loads E s
  | Some VerOther => None
  end.

(** [output_node]; [None] when it raises: [verification.get] on a parsed
    value that is truthy and not a dict. *)
Definition output_node (E : Ext) (state : MathState) : option MathState :=
  let reasoning_output := strip (default [] (reasoning_output state)) in
  let cleaned := _sanitize_output (_strip_think_tags reasoning_output) in
  let finish (improved_answer : option str) :=
    let final_answer :=
      match improved_answer with
      | Some a => a
      | None => cleaned
      end in
    Some (set_final_output (strip final_answer) state) in
  match _parse_verifier_json E (verification state) with
  | None => finish None
  | Some (JObj d) =>
      match d with
      | [] => finish None
      | _ =>
          match dict_get (lit "improved_answer") d with
          | Some (JStr a) =>
              let candidate := strip a in
              if nonempty candidate then finish (Some candidate) else finish None
          | _ => finish None
          end
      end
  | Some v => if truthy v then None else finish None
  end.

(** ** Feedback ([src/nodes/feedback_node.py]): the state is returned
    unchanged; the sink is reached only with a non-empty final output. *)
Definition feedback_node (state : MathState) : MathState * list event :=
  let final_output := strip (default [] (final_output state)) in
  if negb (nonempty final_output) then (state, [])
  else (state, [EvFeedbackSink]).

(** ** The graph ([src/graph/build_graph.py]) *)

Inductive node : Type :=
| N_input_guardrail
| N_router
| N_query_breaker
| N_local_rag
| N_mcp_search
| N_reranker
| N_reasoning
| N_verifier
| N_output_guardrail
| N_feedback.

Global Instance node_eq_dec : EqDecision node.
Proof. solve_decision. Defined.

(** Conditional edges; [None] is [END]. *)
Definition safe_or_end (state : MathState) : option node :=
  if default false (is_safe state) then Some N_router else None.

Definition route_math_or_end (state : MathState) : option node :=
  if default true (is_math state) then Some N_query_breaker else None.

Definition rag_or_mcp (state : MathState) : node :=
  if default false (needs_web_fallback state) then N_mcp_search else N_reranker.

Definition MAX_VERIFICATION_LOOPS : Z := 2.

(** The [is_correct] that [verification_loop] reads inside its [try]; any
    exception there (a failed parse, [.get] on a non-dict) leaves [True]. *)
Definition parsed_is_correct (E : Ext) (raw : option ver_val) : bool :=
  let of_dict (data : list (str * json)) :=
    truthy (default (JBool true) (dict_get (lit "is_correct") data)) in
  match raw with
  | Some (VerStr s) =>
      match json_loads E s with
      | Some (JObj data) => of_dict data
      | _ => true
      end
  | Some (VerDict data) => of_dict data
  | _ => of_dict []
  end.

Definition verification_loop (E : Ext) (state : MathState) : node :=
  let is_correct := parsed_is_correct E (verification state) in
  let loop_count := default 0%Z (loop_count state) in
  if (MAX_VERIFICATION_LOOPS <=? loop_count)%Z then N_output_guardrail
  else if is_correct then N_output_guardrail else N_mcp_search.

(** Running one node at logical time [t]; [None] when the node raises. *)
Definition exec_node (E : Ext) (t : nat) (n : node) (state : MathState)
  : option (MathState * list event) :=
  match n with
  | N_input_guardrail => Some (input_guardrail_node state, [])
  | N_router => Some (router_node state, [])
  | N_query_breaker => Some (query_breaker_node E t state)
  | N_local_rag => Some (local_rag_node E t state)
  | N_mcp_search => Some (mcp_search_node E t state)
  | N_reranker => Some (hybrid_reranker_node E t state)
  | N_reasoning => Some (reasoning_node E t state)
  | N_verifier => Some (verifier_node E t state)
  | N_output_guardrail => (fun s => (s, [])) <$> output_node E state
  | N_feedback => Some (feedback_node state)
  end.

(** The edge followed after node [n] has produced [state]. *)
Definition next_node (E : Ext) (n : node) (state : MathState) : option node :=
  match n with
  | N_input_guardrail => safe_or_end state
  | N_router => route_math_or_end state
  | N_query_breaker => Some N_local_rag
  | N_local_rag => Some (rag_or_mcp state)
  | N_mcp_search => Some N_reranker
  | N_reranker => Some N_reasoning
  | N_reasoning => Some N_verifier
  | N_verifier => Some (verification_loop E state)
  | N_output_guardrail => Some N_feedback
  | N_feedback => None
  end.

(** One executed node: the node, the state it returned, its calls. *)
Record step : Type := mkStep {
  step_node : node;
  step_state : MathState;
  step_events : list event
}.

(** How a run stops: at [END], by an exception of a node, or by the
    engine's step limit. *)
Inductive status : Type :=
| Ended
| NodeRaised
| LimitReached.

Fixpoint run_from (E : Ext) (fuel : nat) (t : nat) (n : node) (state : MathState)
  : list step * status :=
  match fuel with
  | O => ([], LimitReached)
  | S fuel' =>
      match exec_node E t n state with
      | None => ([], NodeRaised)
      | Some (state', evs) =>
          let here := mkStep n state' evs in
          match next_node E n state' with
          | None => ([here], Ended)
          | Some n' =>
              let '(steps, st) := run_from E fuel' (S t) n' state' in
              (here :: steps, st)
          end
      end
  end.

(** LangGraph's default [recursion_limit]; the CLI sets none. *)
Definition recursion_limit : nat := 25.

(** [graph.ainvoke({"query": q})] on a fresh thread. *)
Definition invoke (E : Ext) (q : str) : list step * status :=
  run_from E recursion_limit 0 N_input_guardrail (initial_state q).

Definition count_node (n : node) (steps : list step) : nat :=
  length (List.filter (fun s => bool_decide (step_node s = n)) steps).

(** The state a run ends with ([q]'s initial state when no node ran). *)
Definition final_state (q : str) (steps : list step) : MathState :=
  match last steps with
  | Some s => step_state s
  | None => initial_state q
  end.

Definition lc (state : MathState) : Z := default 0%Z (loop_count state).

(** ** A reference environment

    A small JSON reader (objects, arrays, strings with the simple escapes,
    [true], [false], [null], integers) and canned collaborators.  They
    instantiate the parameters where a statement is evaluated on a concrete
    run; the theorems themselves hold for every environment. *)

Module Ref.

Definition is_ws (c : ascii) : bool :=
  let n := code c in (n =? 32) || (n =? 9) || (n =? 10) || (n =? 13).

Fixpoint skip_ws (s : str) : str :=
  match s with
  | c :: s' => if is_ws c then skip_ws s' else s
  | [] => []
  end.

Definition is_digit (c : ascii) : bool :=
  let n := code c in (48 <=? n) && (n <=? 57).

Fixpoint read_digits (acc : Z) (s : str) : Z * str :=
  match s with
  | c :: s' =>
      if is_digit c
      then read_digits (10 * acc + Z.of_nat (code c - 48))%Z s'
      else (acc, s)
  | [] => (acc, [])
  end.

Definition unescape (c : ascii) : option ascii :=
  let n := code c in
  if (n =? 34) || (n =? 92) || (n =? 47) then Some c
  else if n =? 110 then Some (ascii_of_nat 10)
  else if n =? 116 then Some (ascii_of_nat 9)
  else if n =? 114 then Some (ascii_of_nat 13)
  else if n =? 98 then Some (ascii_of_nat 8)
  else if n =? 102 then Some (ascii_of_nat 12)
  else None.

(** The text of a string literal, after its opening quote. *)
Fixpoint read_string (acc : str) (s : str) : option (str * str) :=
  match s with
  | [] => None
  | c :: s' =>
      if code c =? 34 then Some (rev acc, s')
      else if code c =? 92 then
        match s' with
        | e :: s'' =>
            match unescape e with
            | Some c' => read_string (c' :: acc) s''
            | None => None
            end
        | [] => None
        end
      else if code c <? 32 then None
      else read_string (c :: acc) s'
  end.

Fixpoint read_items (pv : str -> option (json * str)) (n : nat) (s : str)
    (acc : list json) : option (list json * str) :=
  match n with
  | O => None
  | S n' =>
      match pv s with
      | Some (v, r) =>
          match skip_ws r with
          | c :: r' =>
              if code c =? 44 then read_items pv n' r' (v :: acc)
              else if code c =? 93 then Some (rev (v :: acc), r')
              else None
          | [] => None
          end
      | None => None
      end
  end.

Fixpoint read_members (pv : str -> option (json * str)) (n : nat) (s : str)
    (acc : list (str * json)) : option (list (str * json) * str) :=
  match n with
  | O => None
  | S n' =>
      match skip_ws s with
      | q :: r =>
          if code q =? 34 then
            match read_string [] r with
            | Some (k, r1) =>
                match skip_ws r1 with
                | c :: r2 =>
                    if code c =? 58 then
                      match pv r2 with
                      | Some (v, r3) =>
                          match skip_ws r3 with
                          | d :: r4 =>
                              if code d =? 44
                              then read_members pv n' r4 ((k, v) :: acc)
                              else if code d =? 125
                              then Some (rev ((k, v) :: acc), r4)
                              else None
                          | [] => None
                          end
                      | None => None
                      end
                    else None
                | [] => None
                end
            | None => None
            end
          else None
      | [] => None
      end
  end.

Fixpoint read_value (fuel : nat) (s : str) : option (json * str) :=
  match fuel with
  | O => None
  | S fuel' =>
      match skip_ws s with
      | [] => None
      | c :: r =>
          if code c =? 123 then
            match skip_ws r with
            | c' :: r' =>
                if code c' =? 125 then Some (JObj [], r')
                else
                  match read_members (read_value fuel') (length r) r [] with
                  | Some (kv, rest) => Some (JObj kv, rest)
                  | None => None
                  end
            | [] => None
            end
          else if code c =? 91 then
            match skip_ws r with
            | c' :: r' =>
                if code c' =? 93 then Some (JArr [], r')
                else
                  match read_items (read_value fuel') (length r) r [] with
                  | Some (l, rest) => Some (JArr l, rest)
                  | None => None
                  end
            | [] => None
            end
          else if code c =? 34 then
            match read_string [] r with
            | Some (x, rest) => Some (JStr x, rest)
            | None => None
            end
          else if startswith (lit "true") (c :: r)
          then Some (JBool true, drop 4 (c :: r))
          else if startswith (lit "false") (c :: r)
          then Some (JBool false, drop 5 (c :: r))
          else if startswith (lit "null") (c :: r)
          then Some (JNull, drop 4 (c :: r))
          else if is_digit c then
            let '(z, rest) := read_digits 0 (c :: r) in
            Some (JNum (inject_Z z), rest)
          else if code c =? 45 then
            match r with
            | d :: _ =>
                if is_digit d then
                  let '(z, rest) := read_digits 0 r in
                  Some (JNum (inject_Z (- z)), rest)
                else None
            | [] => None
            end
          else None
      end
  end.

Definition json_loads (s : str) : option json :=
  match read_value (S (length s)) s with
  | Some (v, rest) => match skip_ws rest with [] => Some v | _ => None end
  | None => None
  end.

Definition hit (score : Q) (problem solution : string) : RawHit :=
  mkRawHit (Some score)
    (Some (mkPayload (Some (lit problem)) (Some (lit solution))
             None None None None)).

Definition item (title content : string) : TavilyItem :=
  mkTavilyItem (Some (lit title)) None (Some (lit content)).

(** An environment whose verifier answers [verdict t] at time [t]. *)
Definition ext (verdict : nat -> llm_reply) : Ext :=
  mkExt json_loads (lit "gsk-key") (8 # 10)
    (fun _ _ => LlmRaises)
    (fun _ _ => ToolOutput (Some [hit (95 # 100) "x^2 = 16" "x = 4 or x = -4"]))
    (fun _ _ => Some [item "Square roots" "sqrt(16) = 4"])
    (fun _ pairs => Some (map (fun _ => 1%Q) pairs))
    (fun _ _ _ => Some (lit "x = 4 or x = -4. Final answer: 4"))
    (fun t _ _ => verdict t).

End Ref.

(** ** Sample verifier answers *)

(** A code-fenced block: three backticks, a tag, the body on its own
    lines, three backticks. *)
Definition fenced (tag body : str) : str :=
  repeat backtick 3 ++ tag ++ nl ++ body ++ nl ++ repeat backtick 3.

(** The JSON text of a verdict with the given [is_correct] literal. *)
Definition verdict_text (is_correct : str) (improved_answer : str) : str :=
  lit "{" ++ quoted (lit "is_correct") ++ lit ": " ++ is_correct ++ lit ", "
  ++ quoted (lit "issues") ++ lit ": [], "
  ++ quoted (lit "improved_answer") ++ lit ": " ++ quoted improved_answer
  ++ lit "}".

(** The responses the verifier cannot use: the call raises, the content
    is not a string, the fence-stripped payload does not start with an
    opening brace, or it is not JSON. *)
Inductive parse_failure (E : Ext) : llm_reply -> Prop :=
| pf_call : parse_failure E LlmRaises
| pf_not_str : parse_failure E LlmNonStr
| pf_no_brace (content : str) :
    startswith (lit "{") (_strip_code_fence content) = false ->
    parse_failure E (LlmStr content)
| pf_not_json (content : str) :
    json_loads E (_strip_code_fence content) = None ->
    parse_failure E (LlmStr content).

(** The score a ranked document carries in its metadata. *)
Definition rerank_score (d : Document) : option Q :=
  match metadata d !! "rerank_score"%string with
  | Some (MFloat q) => Some q
  | _ => None
  end.

(** The origin recorded in a document's metadata. *)
Definition doc_origin (d : Document) : option meta_val :=
  metadata d !! "origin"%string.


(** ** Vocabulary of the run properties *)

(** Two facts about [json.loads] the retry loop relies on: a text that
    starts with an opening brace parses, if at all, to a dict; and the
    dumped safe default reads back as the dict it was dumped from. *)
Definition json_object_texts (E : Ext) : Prop :=
  forall s v,
    startswith (lit "{") s = true -> json_loads E s = Some v ->
    exists d, v = JObj d.

Definition json_reads_default (E : Ext) : Prop :=
  json_loads E safe_default_text = Some (JObj safe_default).

(** A verifier that fails on every call. *)
Definition always_fails (E : Ext) : Prop :=
  forall t query reasoning, parse_failure E (verifier_llm E t query reasoning).

(** The [verification] a verifier execution leaves: a JSON string that
    starts with an opening brace. *)
Definition ver_ok (state : MathState) : Prop :=
  exists s, verification state = Some (VerStr s)
            /\ startswith (lit "{") s = true.

(** Retries left before the cap. *)
Definition budget (state : MathState) : nat :=
  Z.to_nat (MAX_VERIFICATION_LOOPS - lc state).

(** An upper bound on the node executions left, from node [n] with [k]
    retries left. *)
Definition rank (n : node) (k : nat) : nat :=
  match n with
  | N_feedback => 1
  | N_output_guardrail => 2
  | N_verifier => 4 * k - 1
  | N_reasoning => 4 * k
  | N_reranker => 4 * k + 1
  | N_mcp_search => 4 * k + 2
  | N_local_rag => 4 * k + 3
  | N_query_breaker => 4 * k + 4
  | N_router => 4 * k + 5
  | N_input_guardrail => 4 * k + 6
  end.

(** The nodes between the router and the output finalizer. *)
Definition in_loop (n : node) : bool :=
  match n with
  | N_query_breaker | N_local_rag | N_mcp_search | N_reranker
  | N_reasoning | N_verifier => true
  | _ => false
  end.

(** The two steps every accepted run ends with: the output finalizer,
    which writes [final_output], then the feedback node. *)
Definition closing_steps (state : MathState) (final : str) : list step :=
  [ mkStep N_output_guardrail (set_final_output final state) [];
    mkStep N_feedback (set_final_output final state)
      (snd (feedback_node (set_final_output final state))) ].

(** ** Vocabulary of the finalizer properties *)







(** A reasoning text with a think segment, two forbidden phrases, a run
    of four newlines and trailing space. *)
Definition sample_reasoning : str :=
  lit "As an AI, <think>plan</think>the reasoning process is short."
  ++ repeat newline 4 ++ lit "Final answer: 4 ".

(** ** Vocabulary of the further properties *)

(** The shape shared by the triggers: white space at both ends. *)
Definition space_padded (sep : str) : bool :=
  match head sep, last sep with
  | Some a, Some b => isspace a && isspace b
  | _, _ => false
  end.

(** A sub-query as the breaker stores it: trimmed. *)
Definition trimmed (s : str) : Prop := strip s = s.

(** ** Batched scoring ([src/nodes/hybrid_reranker.py]) *)

Definition RERANK_BATCH_SIZE : Z := 32.

Definition _build_scoring_pairs (query : str) (candidates : list str)
  : list (str * str) :=
  map (fun c => (query, c)) candidates.

(** The generator [_batch_iter], as the list of the batches it yields.
    [need] is the number of iterations the inner [for] loop has left,
    [batch] the current batch reversed, [it] what the iterator still holds.
    When [next(it)] raises [StopIteration] the generator yields the
    current batch if it has an item, and stops; when the [for] loop
    completes it yields the batch and starts the next one. *)
Fixpoint batch_go {A} (batch_size need : nat) (batch it : list A)
  : list (list A) :=
  match it with
  | [] => match batch with [] => [] | _ => [rev batch] end
  | x :: it' =>
      match need with
      | S (S k) => batch_go batch_size (S k) (x :: batch) it'
      | _ => rev (x :: batch) :: batch_go batch_size batch_size [] it'
      end
  end.

(** With [batch_size <= 0] the [for] loop does not run, the first batch
    is empty and the generator stops without a yield. *)
Definition _batch_iter {A} (iterable : list A) (batch_size : Z)
  : list (list A) :=
  match Z.to_nat batch_size with
  | O => []
  | S n => batch_go (S n) (S n) [] iterable
  end.

(** The [for batch in ...] loop of [_sync]: [predict] is
    [model.predict], [None] when it raises. *)
Fixpoint score_batches (predict : list (str * str) -> option (list Q))
    (batches : list (list (str * str))) (scores : list Q) : option (list Q) :=
  match batches with
  | [] => Some scores
  | batch :: rest =>
      match predict batch with
      | None => None
      | Some batch_scores => score_batches predict rest (scores ++ batch_scores)
      end
  end.

(** [model] is the loaded [CrossEncoder], [None] when loading raises. *)
Definition _score_with_cross_encoder
    (model : option (list (str * str) -> option (list Q)))
    (pairs : list (str * str)) (batch_size : Z) : option (list Q) :=
  match model with
  | None => None
  | Some predict => score_batches predict (_batch_iter pairs batch_size) []
  end.

(** ** Vocabulary of the session properties *)

Global Instance event_eq_dec : EqDecision event.
Proof. solve_decision. Defined.

(** The external call a node can make. *)
Definition node_call (n : node) : option event :=
  match n with
  | N_query_breaker => Some EvLlmSplit
  | N_local_rag => Some EvLocalRagTool
  | N_mcp_search => Some EvBridge
  | N_reranker => Some EvCrossEncoder
  | N_reasoning => Some EvReasoningLlm
  | N_verifier => Some EvVerifierLlm
  | N_feedback => Some EvFeedbackSink
  | N_input_guardrail | N_router | N_output_guardrail => None
  end.

(** The calls of one node execution: none, or the one call of its node. *)
Definition well_called (n : node) (evs : list event) : bool :=
  match evs with
  | [] => true
  | [e] => bool_decide (node_call n = Some e)
  | _ => false
  end.

(** The external calls of a run, in order, and how many are of a kind. *)
Definition run_events (steps : list step) : list event :=
  concat (map step_events steps).

Definition count_event (e : event) (evs : list event) : nat :=
  length (List.filter (fun x => bool_decide (x = e)) evs).

(** The node sequences the graph allows from a node of the loop to the
    end of the run, when [k] verifier executions are left. *)
Inductive loop_path : node -> nat -> list node -> Prop :=
| lp_breaker k l :
    loop_path N_local_rag k l ->
    loop_path N_query_breaker k (N_query_breaker :: l)
| lp_rag_weak k l :
    loop_path N_mcp_search k l -> loop_path N_local_rag k (N_local_rag :: l)
| lp_rag_strong k l :
    loop_path N_reranker k l -> loop_path N_local_rag k (N_local_rag :: l)
| lp_mcp k l :
    loop_path N_reranker k l -> loop_path N_mcp_search k (N_mcp_search :: l)
| lp_reranker k l :
    loop_path N_reasoning k l -> loop_path N_reranker k (N_reranker :: l)
| lp_reasoning k l :
    loop_path N_verifier k l -> loop_path N_reasoning k (N_reasoning :: l)
| lp_verifier_end k :
    loop_path N_verifier (S k) [N_verifier; N_output_guardrail; N_feedback]
| lp_verifier_retry k l :
    loop_path N_mcp_search (S k) l ->
    loop_path N_verifier (S (S k)) (N_verifier :: l).

(** The node sequence of an accepted session: the first pass, with the
    web search when local retrieval was weak, then the retry pass when
    the first verdict asked for it, then the two closing nodes. *)
Definition first_pass (web : bool) : list node :=
  [N_query_breaker; N_local_rag]
  ++ (if web then [N_mcp_search] else [])
  ++ [N_reranker; N_reasoning; N_verifier].

Definition retry_pass : list node :=
  [N_mcp_search; N_reranker; N_reasoning; N_verifier].

Definition accepted_path (web retry : bool) : list node :=
  [N_input_guardrail; N_router]
  ++ first_pass web
  ++ (if retry then retry_pass else [])
  ++ [N_output_guardrail; N_feedback].

(** The node that makes a call, and how many calls of a kind a session
    may make. *)
Definition event_node (e : event) : node :=
  match e with
  | EvLlmSplit => N_query_breaker
  | EvLocalRagTool => N_local_rag
  | EvBridge => N_mcp_search
  | EvCrossEncoder => N_reranker
  | EvReasoningLlm => N_reasoning
  | EvVerifierLlm => N_verifier
  | EvFeedbackSink => N_feedback
  end.

Definition call_budget (e : event) : nat :=
  match e with
  | EvLlmSplit | EvLocalRagTool | EvFeedbackSink => 1
  | EvBridge | EvCrossEncoder | EvReasoningLlm | EvVerifierLlm => 2
  end.

Definition calls_out (n : node) : bool :=
  match node_call n with Some _ => true | None => false end.

(** ** The local index tool ([src/tools/local_rag_tool.py],
    [src/tools/qdrant_tool.py]) *)

Module RagTool.

(** A metadata filter: the dict of field equalities, in insertion order;
    the empty dict and [None] alike mean no filter. *)
Definition filter : Type := list (string * str).

(** The services behind the tool.
    - [services_up]: [get_embedder()] and [get_qdrant()] return (they
      raise when the model cannot be loaded or the server not reached);
    - [embed text]: [embedder.embed(text, as_query=True)], [None] when it
      raises;
    - [query_points v k f]: the points [client.query_points] finds,
      [None] when it raises. *)
Record Services : Type := mkServices {
  services_up : bool;
  embed : str -> option (list Q);
  query_points : list Q -> Z -> filter -> option (list RawHit)
}.

(** [QdrantVectorStore.search]; [None] when it raises: on an empty query
    vector, or when the client call fails. *)
Definition search (S : Services) (query_vector : list Q) (top_k : Z)
    (filter_metadata : filter) : option (list RawHit) :=
  match query_vector with
  | [] => None
  | _ => query_points S query_vector top_k filter_metadata
  end.

(** The calls the tool makes, in order. *)
Inductive call : Type :=
| CallEmbed (text : str)
| CallSearch (query_vector : list Q) (top_k : Z) (filter_metadata : filter).

Record UsedFilters : Type := mkUsedFilters {
  requested : filter;
  effective : filter;
  fallback : bool
}.

(** The dict the tool returns: an error dict, or the answer. *)
Inductive output : Type :=
| Error (message : str)
| Found (query : str) (top_k : Z) (used_filters : UsedFilters)
    (results : list RawHit).

(** [if value: metadata_filter[key] = value] *)
Definition field (key : string) (value : option str) : filter :=
  match value with
  | Some v => if nonempty v then [(key, v)] else []
  | None => []
  end.

Definition is_nil {A} (l : list A) : bool :=
  match l with [] => true | _ => false end.

(** [local_rag_search]; the first component is [None] when the tool
    raises. *)
Definition local_rag_search (S : Services) (args : RagArgs)
  : option output * list call :=
  let cleaned := strip (ra_query args) in
  if negb (nonempty cleaned) then (Some (Error (lit "Query cannot be empty.")), [])
  else
    let top_k := ra_top_k args in
    let top_k := if (top_k <=? 0)%Z then 5%Z else top_k in
    let top_k := if (20 <? top_k)%Z then 20%Z else top_k in
    if negb (services_up S) then (None, [])
    else
      match embed S cleaned with
      | None => (Some (Error (lit "Embedding failed.")), [CallEmbed cleaned])
      | Some q_vec =>
          let metadata_filter :=
            field "topic" (ra_topic args)
            ++ field "difficulty" (ra_difficulty args)
            ++ field "subject" (ra_subject args) in
          let first := CallSearch q_vec top_k metadata_filter in
          match search S q_vec top_k metadata_filter with
          | None =>
              (Some (Error (lit "Search failed.")), [CallEmbed cleaned; first])
          | Some results =>
              if is_nil results && negb (is_nil metadata_filter) then
                let second := CallSearch q_vec top_k [] in
                match search S q_vec top_k [] with
                | None =>
                    (Some (Error (lit "Search failed.")),
                     [CallEmbed cleaned; first; second])
                | Some results =>
                    (Some (Found cleaned top_k
                             (mkUsedFilters metadata_filter [] true) results),
                     [CallEmbed cleaned; first; second])
                end
              else
                (Some (Found cleaned top_k
                         (mkUsedFilters metadata_filter metadata_filter false)
                         results),
                 [CallEmbed cleaned; first])
          end
      end.

(** What [local_rag_node] sees of the tool: the exception, or the dict
    with its ["results"] entry, absent from the error dicts. *)
Definition reply (o : option output) : tool_reply :=
  match o with
  | None => ToolRaises
  | Some (Error _) => ToolOutput None
  | Some (Found _ _ _ results) => ToolOutput (Some results)
  end.

End RagTool.

(** ** The web search server ([src/tools/search_mcp_server.py]) *)

Module SearchServer.

(** The ["content"] entry of a raw result: absent, a string, or a value
    that cannot be sliced ([null]). *)
Inductive raw_content : Type :=
| ContentAbsent
| ContentStr (s : str)
| ContentNull.

(** One raw result of the Tavily API; a missing string key is [None]. *)
Record RawItem : Type := mkRawItem {
  raw_title : option str;
  raw_url : option str;
  raw_body : raw_content
}.

(** One result the tool returns. *)
Record Item : Type := mkItem {
  title : str;
  url : str;
  content : str
}.

(** The tool's dict: an error dict, or the query with its results. *)
Inductive output : Type :=
| Error (message : str)
| Results (query : str) (results : list Item).

(** The request sent to the API. *)
Record Request : Type := mkRequest {
  api_key : str;
  req_query : str;
  max_results : Z
}.

(** [item.get("content", "")[:1000]], [None] when slicing raises. *)
Definition sliced_content (c : raw_content) : option str :=
  match c with
  | ContentAbsent => Some []
  | ContentStr s => Some (take 1000 s)
  | ContentNull => None
  end.

(** The [for item in raw_results] loop, [None] when an item raises. *)
Fixpoint format_results (raw_results : list RawItem) : option (list Item) :=
  match raw_results with
  | [] => Some []
  | item :: rest =>
      match sliced_content (raw_body item), format_results rest with
      | Some c, Some results =>
          Some (mkItem (default [] (raw_title item)) (default [] (raw_url item)) c
                :: results)
      | _, _ => None
      end
  end.

(** [tavily_search].  [post r] is the ["results"] list of the decoded
    answer to request [r] (empty when the answer has none), [None] when
    the request or the decoding raises. *)
Definition tavily_search (post : Request -> option (list RawItem))
    (TAVILY_API_KEY : str) (query : str) (n_results : Z)
  : output * list Request :=
  let query := strip query in
  if negb (nonempty query) then (Error (lit "Query cannot be empty."), [])
  else if negb (nonempty TAVILY_API_KEY)
  then (Error (lit "Tavily API key not configured."), [])
  else
    let n_results := if (n_results <=? 0)%Z then 3%Z else n_results in
    let n_results := if (10 <? n_results)%Z then 10%Z else n_results in
    let payload := mkRequest TAVILY_API_KEY query n_results in
    match post payload with
    | None => (Error (lit "Tavily search failed."), [payload])
    | Some raw_results =>
        match format_results raw_results with
        | None => (Error (lit "Tavily search failed."), [payload])
        | Some results => (Results query results, [payload])
        end
    end.

(** The answer as [mcp_search_node] reads it through the bridge: the
    ["results"] list, absent from an error dict. *)
Definition bridged (o : output) : option (list TavilyItem) :=
  match o with
  | Error _ => None
  | Results _ results =>
      Some (map (fun it => mkTavilyItem (Some (title it)) (Some (url it))
                             (Some (content it))) results)
  end.

End SearchServer.

(** ** The retrieval context of the feedback record
    ([src/nodes/feedback_node.py]) *)

(** [f"{i}"] for the positions 1 to 5 of [docs[:5]]. *)
Definition position_digit (i : nat) : ascii := ascii_of_nat (48 + i).

(** The [for i, d in enumerate(docs[:5], start=1)] loop from position
    [i] on: a document without text is skipped, its position is not
    reused. *)
Fixpoint context_chunks (i : nat) (docs : list Document) : list str :=
  match docs with
  | [] => []
  | d :: rest =>
      let page := strip (page_content d) in
      (if nonempty page
       then [lit "[Doc " ++ [position_digit i] ++ lit "] " ++ take 400 page]
       else [])
      ++ context_chunks (S i) rest
  end.

Definition retrieval_context (docs : list Document) : str :=
  join (nl ++ nl) (context_chunks 1 (take 5 docs)).

(** ** Ingestion ([src/ingestion/ingest_math.py], [upsert] of
    [src/tools/qdrant_tool.py]) *)

Module Ingest.

(** The value of a key of a raw JSON record: the key is absent, holds
    [null], or holds a text. *)
Inductive field_val : Type :=
| Absent
| Null
| Text (s : str).

Record RawRecord : Type := mkRawRecord {
  r_problem : field_val;
  r_solution : field_val;
  r_topic : field_val;
  r_difficulty : field_val;
  r_subject : field_val;
  r_source_split : field_val
}.

(** [record.get(key, "")], as a payload entry ([None] for [null]). *)
Definition get_default (v : field_val) : option str :=
  match v with
  | Absent => Some []
  | Null => None
  | Text s => Some s
  end.

(** [(record.get(key) or "")] *)
Definition get_or (v : field_val) : str :=
  match v with
  | Text s => s
  | _ => []
  end.

Definition build_payload (record : RawRecord) : Payload :=
  mkPayload (get_default (r_problem record)) (get_default (r_solution record))
    (get_default (r_topic record)) (get_default (r_difficulty record))
    (get_default (r_subject record)) (get_default (r_source_split record)).

Definition build_embedding_text (record : RawRecord) : str :=
  strip (get_or (r_problem record)).

(** The text that is hashed: [f"{problem}|||{solution}"]. *)
Definition id_text (record : RawRecord) : str :=
  strip (get_or (r_problem record)) ++ lit "|||"
  ++ strip (get_or (r_solution record)).

(** [make_point_id]; [digest raw] is
    [int(md5(raw.encode("utf-8")).hexdigest()[-15:], 16)]. *)
Definition make_point_id (digest : str -> Z) (record : RawRecord)
    (fallback_counter : Z) : Z :=
  let raw := id_text record in
  if negb (nonempty (strip raw)) then fallback_counter
  else digest raw.

(** A point of the index: id, vector, payload. *)
Definition point : Type := Z * list Q * Payload.

(** How [QdrantVectorStore.upsert] ends. *)
Inductive upsert_outcome : Type :=
| RaisedValueError
| Skipped
| Written
| RaisedRuntimeError.

(** [QdrantVectorStore.upsert], with the batches handed to the client;
    [client_upsert points] is false when [client.upsert] raises. *)
Definition upsert (client_upsert : list point -> bool) (ids : list Z)
    (vectors : list (list Q)) (payloads : list Payload)
  : upsert_outcome * list (list point) :=
  if negb ((length ids =? length vectors) && (length vectors =? length payloads))
  then (RaisedValueError, [])
  else
    match ids with
    | [] => (Skipped, [])
    | _ =>
        let points := zip (zip ids vectors) payloads in
        if client_upsert points then (Written, [points])
        else (RaisedRuntimeError, [points])
    end.

(** The services of an ingestion run: the digest of [make_point_id],
    [embedder.embed(text, as_query=False)] ([None] when it raises) and the
    client's upsert. *)
Record Services : Type := mkServices {
  digest : str -> Z;
  embed : str -> option (list Q);
  client_upsert : list point -> bool
}.

(** The local variables of [ingest_dataset]. *)
Record Locals : Type := mkLocals {
  vectors_batch : list (list Q);
  payloads_batch : list Payload;
  ids_batch : list Z;
  fallback_counter : Z;
  record_count : Z;
  upsert_count : Z
}.

Definition start : Locals := mkLocals [] [] [] 1 0 0.

(** How [ingest_dataset] ends: it returns, with its two totals, or an
    upsert raises. *)
Inductive status : Type :=
| Completed (record_count upsert_count : Z)
| Raised (e : upsert_outcome).

(** The [for rec in ...] loop followed by the final flush; [written]
    collects the batches handed to the client. *)
Fixpoint ingest_loop (S : Services) (batch_size : Z)
    (records : list RawRecord) (l : Locals) (written : list (list point))
  : status * list (list point) :=
  match records with
  | [] =>
      match vectors_batch l with
      | [] => (Completed (record_count l) (upsert_count l), written)
      | _ =>
          match upsert (client_upsert S) (ids_batch l) (vectors_batch l)
                  (payloads_batch l) with
          | (RaisedValueError, calls) => (Raised RaisedValueError, written ++ calls)
          | (RaisedRuntimeError, calls) =>
              (Raised RaisedRuntimeError, written ++ calls)
          | (_, calls) =>
              (Completed (record_count l)
                 (upsert_count l + Z.of_nat (length (vectors_batch l))),
               written ++ calls)
          end
      end
  | rec :: rest =>
      let record_count := (record_count l + 1)%Z in
      let text := build_embedding_text rec in
      if negb (nonempty text) then
        ingest_loop S batch_size rest
          (mkLocals (vectors_batch l) (payloads_batch l) (ids_batch l)
             (fallback_counter l) record_count (upsert_count l)) written
      else
        let payload := build_payload rec in
        match embed S text with
        | None =>
            ingest_loop S batch_size rest
              (mkLocals (vectors_batch l) (payloads_batch l) (ids_batch l)
                 (fallback_counter l) record_count (upsert_count l)) written
        | Some vec =>
            let point_id := make_point_id (digest S) rec (fallback_counter l) in
            let fallback_counter := (fallback_counter l + 1)%Z in
            let vectors_batch := vectors_batch l ++ [vec] in
            let payloads_batch := payloads_batch l ++ [payload] in
            let ids_batch := ids_batch l ++ [point_id] in
            if (batch_size <=? Z.of_nat (length vectors_batch))%Z then
              match upsert (client_upsert S) ids_batch vectors_batch
                      payloads_batch with
              | (RaisedValueError, calls) =>
                  (Raised RaisedValueError, written ++ calls)
              | (RaisedRuntimeError, calls) =>
                  (Raised RaisedRuntimeError, written ++ calls)
              | (_, calls) =>
                  ingest_loop S batch_size rest
                    (mkLocals [] [] [] fallback_counter record_count
                       (upsert_count l + Z.of_nat (length vectors_batch)))
                    (written ++ calls)
              end
            else
              ingest_loop S batch_size rest
                (mkLocals vectors_batch payloads_batch ids_batch
                   fallback_counter record_count (upsert_count l)) written
        end
  end.

(** [ingest_dataset] over the stream of records. *)
Definition ingest_dataset (S : Services) (batch_size : Z)
    (records : list RawRecord) : status * list (list point) :=
  ingest_loop S batch_size records start [].

(** The point a record is indexed as: none when its problem is blank or
    its embedding fails. *)
Definition indexed_point (S : Services) (record : RawRecord) : option point :=
  let text := build_embedding_text record in
  if negb (nonempty text) then None
  else
    match embed S text with
    | None => None
    | Some vec => Some (digest S (id_text record), vec, build_payload record)
    end.

End Ingest.

(** A small stream: a full record, a record with a blank problem, two
    records without a solution; and services that accept everything. *)
Definition sample_records : list Ingest.RawRecord :=
  [ Ingest.mkRawRecord (Ingest.Text (lit "x^2 = 16")) (Ingest.Text (lit "x = 4"))
      Ingest.Absent Ingest.Absent Ingest.Absent Ingest.Absent;
    Ingest.mkRawRecord (Ingest.Text (lit "  ")) Ingest.Null
      Ingest.Absent Ingest.Absent Ingest.Absent Ingest.Absent;
    Ingest.mkRawRecord (Ingest.Text (lit "2 + 2")) Ingest.Absent
      Ingest.Absent Ingest.Absent Ingest.Absent Ingest.Absent;
    Ingest.mkRawRecord (Ingest.Text (lit "3 * 3")) Ingest.Absent
      Ingest.Absent Ingest.Absent Ingest.Absent Ingest.Absent ].

Definition sample_services : Ingest.Services :=
  Ingest.mkServices (fun s => Z.of_nat (length s)) (fun _ => Some [1%Q])
    (fun _ => true).

(** * Properties *)

Arguments contains : simpl never.
Arguments any_in : simpl never.
Arguments strip : simpl never.
Arguments lower : simpl never.
Arguments split : simpl never.
Arguments lit : simpl never.

(** ** Input rejection *)

Lemma stripped_query_initial (q : str) : stripped_query (initial_state q) = strip q.
Proof. reflexivity. Qed.

(** The guardrail on a fresh state, by the outcome of the filter policy. *)
Lemma guardrail_initial (q : str) :
  input_guardrail_node (initial_state q) =
  match classify q with
  | Some r =>
      set_reasoning_output (rejection_message r)
        (set_is_safe false (set_is_safe false (initial_state q)))
  | None => set_is_safe true (set_is_safe false (initial_state q))
  end.
Proof.
  unfold input_guardrail_node, classify.
  rewrite stripped_query_initial.
  unfold setdefault; simpl is_safe; cbv iota.
  destruct (negb (nonempty (strip q))); [reflexivity|].
  destruct (any_in harmful_keywords (lower (strip q))); [reflexivity|].
  destruct (negb (any_in math_keywords (lower (strip q)))); reflexivity.
Qed.

Lemma run_from_unfold (E : Ext) (fuel t : nat) (n : node) (state : MathState) :
  run_from E (S fuel) t n state =
  match exec_node E t n state with
  | None => ([], NodeRaised)
  | Some (state', evs) =>
      match next_node E n state' with
      | None => ([mkStep n state' evs], Ended)
      | Some n' =>
          let '(steps, st) := run_from E fuel (S t) n' state' in
          (mkStep n state' evs :: steps, st)
      end
  end.
Proof. reflexivity. Qed.

(** A rejected query: one step, then END. *)
Lemma invoke_rejected (E : Ext) (q : str) (r : rejection) :
  classify q = Some r ->
  invoke E q
  = ([mkStep N_input_guardrail
        (set_reasoning_output (rejection_message r)
           (set_is_safe false (set_is_safe false (initial_state q)))) []],
     Ended).
Proof.
  intros Hc. unfold invoke, recursion_limit.
  rewrite run_from_unfold. cbn [exec_node next_node].
  rewrite guardrail_initial, Hc. reflexivity.
Qed.

(** C8 (as amended): a rejected query (empty, unsafe keyword, or no math
    keyword) ends the run at END right after the input guardrail: the
    guardrail is the only node executed, no external call is made, the
    state carries [is_safe = False] and the rejection message in
    [reasoning_output], and [final_output] is never written. *)
Theorem rejected_query_ends_after_guardrail (E : Ext) (q : str) (r : rejection) :
  classify q = Some r ->
  exists st,
    invoke E q = ([mkStep N_input_guardrail st []], Ended)
    /\ is_safe st = Some false
    /\ reasoning_output st = Some (rejection_message r)
    /\ final_output st = None.
Proof.
  intros Hc. rewrite (invoke_rejected E q r Hc).
  eexists. split; [reflexivity|]. repeat split.
Qed.

Lemma rejected_query_ends_after_guardrail_witness :
  classify (lit "Who is the prime minister of India") = Some RejNotMath
  /\ exists st,
      invoke (Ref.ext (fun _ => LlmRaises)) (lit "Who is the prime minister of India")
      = ([mkStep N_input_guardrail st []], Ended)
      /\ is_safe st = Some false
      /\ reasoning_output st = Some (rejection_message RejNotMath)
      /\ final_output st = None.
Proof.
  split; [vm_compute; reflexivity|].
  apply (rejected_query_ends_after_guardrail _ _ RejNotMath).
  vm_compute; reflexivity.
Defined.

(** C8 (as stated) fails: the rejection message is not the final output of
    a rejected session; [final_output] stays unset. *)
Lemma rejected_final_output_counterexample :
  ~ (forall (E : Ext) (q : str) (r : rejection),
        classify q = Some r ->
        final_output (final_state q (fst (invoke E q)))
        = Some (rejection_message r)).
Proof.
  intros H.
  specialize (H (Ref.ext (fun _ => LlmRaises))
                (lit "Who is the prime minister of India") RejNotMath).
  assert (Hc : classify (lit "Who is the prime minister of India") = Some RejNotMath)
    by (vm_compute; reflexivity).
  specialize (H Hc). vm_compute in H. discriminate H.
Qed.

(** ** Query decomposition *)

Lemma heuristic_loop_find (trigs : list str) (query lowered : str) :
  heuristic_loop trigs query lowered =
  match List.find (fun trig => contains trig lowered) trigs with
  | Some trig => split_parts trig query
  | None => [query]
  end.
Proof.
  induction trigs as [|trig rest IH]; simpl; [reflexivity|].
  destruct (contains trig lowered); [reflexivity|apply IH].
Qed.

(** C7 (as amended): when the lower-cased query contains one of the
    space-delimited tokens [" and "], [" then "], [" also "], [" next "],
    [" first "], [" second "], the heuristic takes the first such token in
    priority order and splits the query text on it; when this yields at
    least 2 non-empty trimmed fragments, the node stores them and makes no
    external call.  The spec's example splits into exactly 2 fragments. *)
Theorem heuristic_split_on_first_trigger :
  (forall (E : Ext) (t : nat) (state : MathState) (trig : str),
      List.find (fun trig => contains trig (lower (stripped_query state))) triggers
      = Some trig ->
      2 <= length (split_parts trig (stripped_query state)) ->
      _heuristic_split (stripped_query state)
      = split_parts trig (stripped_query state)
      /\ query_breaker_node E t state
         = (set_broken_queries (split_parts trig (stripped_query state)) state, []))
  /\ (let q := lit "First solve x^2=16 and then find derivative of x^3." in
      _heuristic_split q
      = [lit "First solve x^2=16"; lit "then find derivative of x^3."]
      /\ forall (E : Ext) (t : nat),
          query_breaker_node E t (initial_state q)
          = (set_broken_queries
               [lit "First solve x^2=16"; lit "then find derivative of x^3."]
               (initial_state q), [])).
Proof.
  split.
  - intros E t state trig Hfind Hlen.
    assert (Hh : _heuristic_split (stripped_query state)
                 = split_parts trig (stripped_query state)).
    { unfold _heuristic_split. rewrite heuristic_loop_find, Hfind. reflexivity. }
    split; [exact Hh|].
    unfold query_breaker_node. rewrite Hh.
    destruct (1 <? length (split_parts trig (stripped_query state))) eqn:Hlt;
      [reflexivity|].
    apply Nat.ltb_ge in Hlt. lia.
  - split; [vm_compute; reflexivity|].
    intros E t. unfold query_breaker_node.
    rewrite stripped_query_initial.
    replace (_heuristic_split
               (strip (lit "First solve x^2=16 and then find derivative of x^3.")))
      with [lit "First solve x^2=16"; lit "then find derivative of x^3."]
      by (vm_compute; reflexivity).
    reflexivity.
Qed.

Lemma heuristic_split_on_first_trigger_witness :
  _heuristic_split (stripped_query (initial_state (lit "Find x and then find y")))
  = split_parts (lit " and ")
      (stripped_query (initial_state (lit "Find x and then find y")))
  /\ query_breaker_node (Ref.ext (fun _ => LlmRaises)) 0
       (initial_state (lit "Find x and then find y"))
     = (set_broken_queries
          (split_parts (lit " and ")
             (stripped_query (initial_state (lit "Find x and then find y"))))
          (initial_state (lit "Find x and then find y")), []).
Proof.
  apply (proj1 heuristic_split_on_first_trigger
           (Ref.ext (fun _ => LlmRaises)) 0
           (initial_state (lit "Find x and then find y")) (lit " and ")).
  - vm_compute; reflexivity.
  - vm_compute; lia.
Defined.

(** C7 (as stated) fails: a token can stand as a whole word without being
    space-delimited.  In ["Find x; then, find y"] the word "then" is
    followed by a comma: splitting on the word gives 2 fragments, but the
    heuristic finds no trigger, keeps the query whole and the node calls
    the LLM. *)
Lemma whole_word_split_counterexample :
  ~ (forall (E : Ext) (t : nat) (q tok : str),
        spec_first_token (strip q) = Some tok ->
        2 <= length (spec_fragments tok (strip q)) ->
        query_breaker_node E t (initial_state q)
        = (set_broken_queries (spec_fragments tok (strip q)) (initial_state q), [])).
Proof.
  intros H.
  specialize (H (Ref.ext (fun _ => LlmRaises)) 0
                (lit "Find x; then, find y") (lit "then")).
  assert (H1 : spec_first_token (strip (lit "Find x; then, find y"))
               = Some (lit "then")) by (vm_compute; reflexivity).
  assert (H2 : 2 <= length (spec_fragments (lit "then")
                              (strip (lit "Find x; then, find y"))))
    by (vm_compute; lia).
  specialize (H H1 H2). vm_compute in H. discriminate H.
Qed.

(** ** Verifier: parsing policy *)

Lemma verifier_try_failure (E : Ext) (t : nat) (query reasoning : str) :
  parse_failure E (verifier_llm E t query reasoning) ->
  exists e, verifier_try E t query reasoning = inl e.
Proof.
  unfold verifier_try. intros H.
  inversion H as [Hr|Hr|content Hb Hr|content Hj Hr]; try (eexists; reflexivity).
  - rewrite Hb. eexists; reflexivity.
  - destruct (negb (startswith (lit "{") (_strip_code_fence content)));
      [eexists; reflexivity|].
    rewrite Hj. eexists; reflexivity.
Qed.

Lemma verification_of_verifier_node (E : Ext) (t : nat) (state : MathState) :
  verification (fst (verifier_node E t state)) =
  Some (VerStr
    match verifier_try E t (stripped_query state)
            (strip (default [] (reasoning_output state))) with
    | inr content => content
    | inl _ => safe_default_text
    end).
Proof.
  unfold verifier_node.
  destruct (json_loads E _) as [[| | | | |d]|]; try reflexivity.
  destruct (marked_incorrect d); reflexivity.
Qed.

(** C5: a verifier response that fails to parse (call error, non-string
    content, payload not starting with an opening brace, non-JSON text)
    never makes the node raise: the node returns a state whose
    [verification] is the fixed safe default, the JSON text of
    [is_correct = false], one issue noting the verifier failure and an
    [improved_answer] telling the user to retry. *)
Theorem verifier_parse_failure_safe_default (E : Ext) (t : nat) (state : MathState) :
  parse_failure E
    (verifier_llm E t (stripped_query state)
       (strip (default [] (reasoning_output state)))) ->
  exists state' evs,
    verifier_node E t state = (state', evs)
    /\ verification state' = Some (VerStr safe_default_text)
    /\ Ref.json_loads safe_default_text = Some (JObj safe_default)
    /\ dict_get (lit "is_correct") safe_default = Some (JBool false)
    /\ dict_get (lit "issues") safe_default
       = Some (JArr [JStr issue_verifier_failed])
    /\ dict_get (lit "improved_answer") safe_default
       = Some (JStr improved_answer_retry).
Proof.
  intros Hf.
  destruct (verifier_node E t state) as [state' evs] eqn:Hn.
  exists state', evs. split; [reflexivity|].
  split.
  - pose proof (verification_of_verifier_node E t state) as Hv.
    rewrite Hn in Hv. simpl in Hv. rewrite Hv.
    destruct (verifier_try_failure E t _ _ Hf) as [e He]. rewrite He.
    reflexivity.
  - repeat split; vm_compute; reflexivity.
Qed.

Lemma verifier_parse_failure_safe_default_witness :
  exists state' evs,
    verifier_node (Ref.ext (fun _ => LlmStr (lit "The answer looks right.")))
      7 (initial_state (lit "Solve x^2 = 16")) = (state', evs)
    /\ verification state' = Some (VerStr safe_default_text)
    /\ Ref.json_loads safe_default_text = Some (JObj safe_default)
    /\ dict_get (lit "is_correct") safe_default = Some (JBool false)
    /\ dict_get (lit "issues") safe_default
       = Some (JArr [JStr issue_verifier_failed])
    /\ dict_get (lit "improved_answer") safe_default
       = Some (JStr improved_answer_retry).
Proof.
  apply (verifier_parse_failure_safe_default
           (Ref.ext (fun _ => LlmStr (lit "The answer looks right.")))
           7 (initial_state (lit "Solve x^2 = 16"))).
  apply pf_no_brace. vm_compute; reflexivity.
Defined.

(** ** Verifier: code fences *)

Lemma lstrip_keeps_last (l : str) (c : ascii) :
  isspace c = false -> exists l', lstrip (l ++ [c]) = l' ++ [c].
Proof.
  intros Hc. induction l as [|a l IH]; simpl.
  - rewrite Hc. exists []. reflexivity.
  - destruct (isspace a); [exact IH|]. exists (a :: l). reflexivity.
Qed.

Lemma strip_keeps_head (c : ascii) (s : str) :
  isspace c = false -> exists s', strip (c :: s) = c :: s'.
Proof.
  intros Hc. unfold strip, rstrip. simpl lstrip. rewrite Hc.
  change (rev (c :: s)) with (rev s ++ [c]).
  destruct (lstrip_keeps_last (rev s) c Hc) as [l' Hl]. rewrite Hl.
  rewrite rev_app_distr. simpl. eexists; reflexivity.
Qed.

Lemma strip_head_not_space (s : str) (c : ascii) (s' : str) :
  strip s = c :: s' -> isspace c = false.
Proof.
  unfold strip. intros H.
  assert (Hl : forall u, match lstrip u with [] => True | a :: _ => isspace a = false end).
  { induction u as [|a u IH]; simpl; [exact I|].
    destruct (isspace a) eqn:Ha; [exact IH|exact Ha]. }
  unfold rstrip in H.
  destruct (lstrip s) as [|a u] eqn:Hs; [discriminate H|].
  specialize (Hl s). rewrite Hs in Hl.
  change (rev (a :: u)) with (rev u ++ [a]) in H.
  destruct (lstrip_keeps_last (rev u) a Hl) as [l' Hl']. rewrite Hl' in H.
  rewrite rev_app_distr in H. simpl in H. congruence.
Qed.

Lemma startswith_cons_inv (a : ascii) (p s : str) :
  startswith (a :: p) s = true ->
  exists s', s = a :: s' /\ startswith p s' = true.
Proof.
  destruct s as [|b s']; simpl; [discriminate|].
  intros H. apply andb_prop in H. destruct H as [Hab Hp].
  apply Ascii.eqb_eq in Hab. subst b. exists s'. split; [reflexivity|exact Hp].
Qed.

(** Whatever starts with a backtick after trimming is never unwrapped to
    a payload that starts with an opening brace. *)
Lemma fenced_never_bare_json (content : str) (rest : str) :
  strip content = backtick :: rest ->
  startswith (lit "{") (_strip_code_fence content) = false.
Proof.
  intros Hs. unfold _strip_code_fence. rewrite Hs.
  destruct (startswith fence_marker (backtick :: rest)) eqn:Hf; [|reflexivity].
  set (inner := slice_mid 3 3 (backtick :: rest)).
  assert (Hinner : inner = [] \/ exists u, inner = backtick :: u).
  { unfold inner, slice_mid.
    change fence_marker
      with [backtick; backtick; backtick; backtick; backtick; backtick] in Hf.
    apply startswith_cons_inv in Hf. destruct Hf as (r1 & Hr1 & Hf).
    injection Hr1 as <-.
    apply startswith_cons_inv in Hf. destruct Hf as (r2 & -> & Hf).
    apply startswith_cons_inv in Hf. destruct Hf as (r3 & -> & Hf).
    apply startswith_cons_inv in Hf. destruct Hf as (r4 & -> & Hf).
    apply startswith_cons_inv in Hf. destruct Hf as (r5 & -> & Hf).
    apply startswith_cons_inv in Hf. destruct Hf as (r6 & -> & _).
    destruct r6 as [|c tl]; [left; reflexivity|].
    right. cbn [length].
    replace (S (S (S (S (S (S (S (length tl))))))) - 3)
      with (S (S (S (S (length tl))))) by lia.
    cbn [take drop]. eexists; reflexivity. }
  destruct Hinner as [-> | [u ->]].
  - reflexivity.
  - destruct (strip_keeps_head backtick u eq_refl) as [s' ->].
    reflexivity.
Qed.

Lemma fenced_reply_gets_default (E : Ext) (t : nat) (state : MathState)
    (content rest : str) :
  verifier_llm E t (stripped_query state)
    (strip (default [] (reasoning_output state))) = LlmStr content ->
  strip content = backtick :: rest ->
  verification (fst (verifier_node E t state)) = Some (VerStr safe_default_text).
Proof.
  intros Hr Hs. rewrite verification_of_verifier_node.
  unfold verifier_try. rewrite Hr.
  rewrite (fenced_never_bare_json content rest Hs). reflexivity.
Qed.

(** C6 (the code departs from it): a verifier answer that wraps a valid
    JSON object in a standard triple-backtick fence tagged [json] is not
    unwrapped.  [_strip_code_fence] returns it unchanged, the payload does
    not start with an opening brace, and the node stores the safe default
    and counts the answer as incorrect. *)
Theorem fenced_verdict_replaced_by_default :
  Ref.json_loads (verdict_text (lit "true") (lit "x = 4"))
  = Some (JObj [(lit "is_correct", JBool true); (lit "issues", JArr []);
                (lit "improved_answer", JStr (lit "x = 4"))])
  /\ _strip_code_fence (fenced (lit "json") (verdict_text (lit "true") (lit "x = 4")))
     = fenced (lit "json") (verdict_text (lit "true") (lit "x = 4"))
  /\ verification
       (fst (verifier_node
               (Ref.ext (fun _ => LlmStr (fenced (lit "json")
                                            (verdict_text (lit "true") (lit "x = 4")))))
               7 (initial_state (lit "Solve x^2 = 16"))))
     = Some (VerStr safe_default_text)
  /\ loop_count
       (fst (verifier_node
               (Ref.ext (fun _ => LlmStr (fenced (lit "json")
                                            (verdict_text (lit "true") (lit "x = 4")))))
               7 (initial_state (lit "Solve x^2 = 16"))))
     = Some 1%Z.
Proof.
  repeat split; vm_compute; reflexivity.
Qed.

(** ** Retrieval fallback decision *)





(** With the default threshold 0.80: a top score of 0.80 keeps the local
    answer, 0.95 keeps it, 0.5 asks for the web. *)
Example fallback_at_default_threshold :
  Qltb (80 # 100) (8 # 10) = false
  /\ Qltb (95 # 100) (8 # 10) = false
  /\ Qltb (5 # 10) (8 # 10) = true.
Proof. repeat split. Qed.

(** ** Reranker ordering *)

Section StableSort.
Context {A : Type} (key : A -> Q).


Lemma insert_asc_perm (x : A) (l : list A) :
  Permutation (insert_asc key x l) (x :: l).
Proof.
  induction l as [|y l IH]; simpl; [reflexivity|].
  destruct (Qle_bool (key x) (key y)); [reflexivity|].
  rewrite IH. apply perm_swap.
Qed.



Lemma sort_asc_perm (l : list A) : Permutation (sort_asc key l) l.
Proof.
  induction l as [|x l IH]; simpl; [reflexivity|].
  rewrite insert_asc_perm. constructor. exact IH.
Qed.




Lemma sort_reverse_perm (l : list A) : Permutation (sort_reverse key l) l.
Proof.
  unfold sort_reverse.
  rewrite <- Permutation_rev, sort_asc_perm, <- Permutation_rev. reflexivity.
Qed.



End StableSort.

Lemma in_take {A} (n : nat) (l : list A) (x : A) : In x (take n l) -> In x l.
Proof.
  intros H. rewrite <- (take_drop n l). apply in_or_app. left. exact H.
Qed.

Lemma in_zip_l {A B} (l : list A) (k : list B) (a : A) (b : B) :
  In (a, b) (zip l k) -> In a l.
Proof.
  revert k. induction l as [|x l IH]; intros [|y k]; simpl; try tauto.
  intros [Heq | Hin]; [left; congruence|right; eapply IH; exact Hin].
Qed.


Lemma doc_origin_scored_doc (c : candidate) (q : Q) :
  doc_origin (scored_doc (c, q)) = snd c !! "origin"%string.
Proof.
  destruct c as [text meta]. unfold doc_origin, scored_doc. simpl.
  rewrite lookup_insert_ne; [reflexivity|discriminate].
Qed.

Lemma page_content_scored_doc (c : candidate) (q : Q) :
  page_content (scored_doc (c, q)) = fst c.
Proof. destruct c; reflexivity. Qed.


(** ** Merge policy *)

(** What [hybrid_reranker_node] stores, by the cases of its control flow. *)
Lemma reranker_node_result (E : Ext) (t : nat) (state : MathState) :
  reranked_results (fst (hybrid_reranker_node E t state)) =
  Some
    (let query := stripped_query state in
     let needs_web := default false (needs_web_fallback state) in
     let local_docs := default [] (local_results state) in
     let web_items := default [] (web_results state) in
     let pool := candidate_pool needs_web local_docs web_items in
     if negb (nonempty query) then []
     else
       match pool with
       | [] => []
       | _ =>
           match cross_encoder E t (map (fun c => (query, fst c)) pool) with
           | Some scores => rank_scored (zip pool scores)
           | None =>
               if negb needs_web then take RERANK_TOP_K local_docs
               else web_fallback_docs web_items
           end
       end).
Proof.
  unfold hybrid_reranker_node. cbv zeta.
  destruct (negb (nonempty (stripped_query state))); [reflexivity|].
  destruct (candidate_pool _ _ _) as [|c pool]; [reflexivity|].
  destruct (cross_encoder E t _) as [scores|]; [reflexivity|].
  destruct (negb (default false (needs_web_fallback state))); reflexivity.
Qed.

Lemma web_candidate_origin (w : WebItem) :
  snd (_make_candidate_from_web w) !! "origin"%string
  = Some (MStr (default (lit "web") (w_source w))).
Proof. unfold _make_candidate_from_web. simpl. apply lookup_insert_eq. Qed.

(** Every document ranked from a pool of web candidates comes from one of
    the web items and keeps that item's origin. *)
Lemma rank_scored_from_web (web_items : list WebItem) (scores : list Q) (d : Document) :
  In d (rank_scored (zip (keep_nonempty (map _make_candidate_from_web web_items))
                       scores)) ->
  exists w, In w web_items
            /\ page_content d = fst (_make_candidate_from_web w)
            /\ doc_origin d = Some (MStr (default (lit "web") (w_source w))).
Proof.
  unfold rank_scored. intros Hd.
  apply in_map_iff in Hd. destruct Hd as ([c q] & <- & Hin).
  apply in_take in Hin.
  apply (Permutation_in _ (sort_reverse_perm snd _)) in Hin.
  apply in_zip_l in Hin. unfold keep_nonempty in Hin.
  apply filter_In in Hin. destruct Hin as [Hin _].
  apply in_map_iff in Hin. destruct Hin as (w & <- & Hw).
  exists w. split; [exact Hw|]. split.
  - apply page_content_scored_doc.
  - rewrite doc_origin_scored_doc. apply web_candidate_origin.
Qed.

Lemma web_fallback_from_web (web_items : list WebItem) (d : Document) :
  In d (web_fallback_docs web_items) ->
  exists w, In w web_items
            /\ page_content d = fst (_make_candidate_from_web w)
            /\ doc_origin d = Some (MStr (default (lit "web") (w_source w))).
Proof.
  unfold web_fallback_docs. intros Hd.
  apply in_map_iff in Hd. destruct Hd as (c & <- & Hin).
  unfold keep_nonempty in Hin. apply filter_In in Hin. destruct Hin as [Hin _].
  apply in_map_iff in Hin. destruct Hin as (w & <- & Hw).
  apply in_take in Hw.
  exists w. split; [exact Hw|]. split; [reflexivity|].
  unfold doc_origin. cbn [metadata]. apply web_candidate_origin.
Qed.


(** ** The retry loop *)

Lemma output_node_total (E : Ext) (state : MathState) :
  json_object_texts E -> ver_ok state ->
  exists final, output_node E state = Some (set_final_output final state).
Proof.
  intros Hj (s & Hv & Hs). unfold output_node. rewrite Hv.
  cbn [_parse_verifier_json].
  destruct (json_loads E s) as [v|] eqn:Hl; [|eexists; reflexivity].
  destruct (Hj s v Hs Hl) as [d ->].
  destruct d as [|kv d]; [eexists; reflexivity|].
  destruct (dict_get (lit "improved_answer") (kv :: d)) as [[| | |a| |]|];
    try (eexists; reflexivity).
  destruct (nonempty (strip a)); eexists; reflexivity.
Qed.

Lemma feedback_node_state (state : MathState) : fst (feedback_node state) = state.
Proof. unfold feedback_node. destruct (negb _); reflexivity. Qed.

(** From the output finalizer the run is over in two steps. *)
Lemma run_from_output (E : Ext) (fuel t : nat) (state : MathState) :
  json_object_texts E -> ver_ok state ->
  exists final,
    run_from E (S (S fuel)) t N_output_guardrail state
    = (closing_steps state final, Ended).
Proof.
  intros Hj Hv. destruct (output_node_total E state Hj Hv) as [final Hout].
  exists final. rewrite run_from_unfold. cbn [exec_node]. rewrite Hout.
  cbn [fmap option_fmap option_map next_node]. rewrite run_from_unfold.
  cbn [exec_node next_node].
  pose proof (feedback_node_state (set_final_output final state)) as Hf.
  destruct (feedback_node (set_final_output final state)) as [st ev] eqn:Hfb.
  simpl in Hf. subst st. unfold closing_steps. rewrite Hfb. reflexivity.
Qed.

(** Only the verifier changes the retry counter. *)
Lemma lc_setdefault {A} (get : MathState -> option A)
    (set : A -> MathState -> MathState) (v : A) (state : MathState) :
  (forall s, lc (set v s) = lc s) -> lc (setdefault get set v state) = lc state.
Proof. intros H. unfold setdefault. destruct (get state); [reflexivity|apply H]. Qed.

Lemma lc_input_guardrail (state : MathState) :
  lc (input_guardrail_node state) = lc state.
Proof.
  unfold input_guardrail_node.
  assert (H : lc (setdefault is_safe set_is_safe false state) = lc state)
    by (apply lc_setdefault; reflexivity).
  repeat match goal with |- context [if ?c then _ else _] => destruct c end;
    exact H.
Qed.

Lemma lc_setdefault_loop_count (state : MathState) :
  lc (setdefault loop_count set_loop_count 0%Z state) = lc state.
Proof.
  unfold setdefault. destruct (loop_count state) eqn:Hl; [reflexivity|].
  unfold lc. cbn. rewrite Hl. reflexivity.
Qed.

Lemma lc_router_defaults (state : MathState) : lc (router_defaults state) = lc state.
Proof.
  unfold router_defaults. cbv zeta.
  rewrite lc_setdefault by reflexivity.
  rewrite lc_setdefault_loop_count.
  rewrite !lc_setdefault by reflexivity.
  reflexivity.
Qed.

Lemma lc_router (state : MathState) : lc (router_node state) = lc state.
Proof.
  unfold router_node. destruct (negb _); [apply lc_router_defaults|].
  exact (lc_router_defaults state).
Qed.

Lemma lc_query_breaker (E : Ext) (t : nat) (state : MathState) :
  lc (fst (query_breaker_node E t state)) = lc state.
Proof.
  unfold query_breaker_node. cbv zeta.
  destruct (1 <? _); [reflexivity|].
  destruct (_llm_split E t _) as [subqueries evs]. reflexivity.
Qed.

Lemma lc_local_rag (E : Ext) (t : nat) (state : MathState) :
  lc (fst (local_rag_node E t state)) = lc state.
Proof.
  unfold local_rag_node. cbv zeta.
  destruct (negb _); [reflexivity|].
  destruct (local_rag_search E t _) as [|results]; [reflexivity|].
  destruct (hits_to_docs _); reflexivity.
Qed.

Lemma lc_mcp_search (E : Ext) (t : nat) (state : MathState) :
  lc (fst (mcp_search_node E t state)) = lc state.
Proof.
  unfold mcp_search_node. cbv zeta. destruct (negb _); reflexivity.
Qed.

Lemma lc_reranker (E : Ext) (t : nat) (state : MathState) :
  lc (fst (hybrid_reranker_node E t state)) = lc state.
Proof.
  unfold hybrid_reranker_node. cbv zeta.
  destruct (negb (nonempty _)); [reflexivity|].
  destruct (candidate_pool _ _ _); [reflexivity|].
  destruct (cross_encoder E t _); [reflexivity|].
  destruct (negb _); reflexivity.
Qed.

Lemma lc_reasoning (E : Ext) (t : nat) (state : MathState) :
  lc (fst (reasoning_node E t state)) = lc state.
Proof. reflexivity. Qed.

Lemma verifier_try_brace (E : Ext) (t : nat) (query reasoning content : str) :
  verifier_try E t query reasoning = inr content ->
  startswith (lit "{") content = true.
Proof.
  unfold verifier_try.
  destruct (verifier_llm E t query reasoning) as [| |c]; try discriminate.
  destruct (startswith (lit "{") (_strip_code_fence c)) eqn:Hb;
    cbn [negb]; [|discriminate].
  destruct (json_loads E _); [|discriminate].
  intros H. injection H as <-. exact Hb.
Qed.

(** The verifier leaves a brace-initial JSON string; it adds at most one
    to the counter, and exactly one whenever the verdict the retry edge
    will read is "incorrect". *)
Lemma verifier_node_effect (E : Ext) (t : nat) (state : MathState) :
  ver_ok (fst (verifier_node E t state))
  /\ (lc (fst (verifier_node E t state)) = lc state
      \/ lc (fst (verifier_node E t state)) = (lc state + 1)%Z)
  /\ (parsed_is_correct E (verification (fst (verifier_node E t state))) = false ->
      lc (fst (verifier_node E t state)) = (lc state + 1)%Z).
Proof.
  unfold verifier_node. cbv zeta.
  set (v := match verifier_try E t _ _ with inr c => c | inl _ => safe_default_text end).
  assert (Hv : startswith (lit "{") v = true).
  { unfold v. destruct (verifier_try E t _ _) as [e|c] eqn:Ht.
    - vm_compute; reflexivity.
    - eapply verifier_try_brace; exact Ht. }
  destruct (json_loads E v) as [[| | | | |d]|] eqn:Hl;
    try (change (marked_incorrect []) with false; cbv iota;
         cbn [fst]; split; [exists v; split; [reflexivity|exact Hv]|];
         split; [left; reflexivity|];
         unfold parsed_is_correct; cbn [verification set_verification];
         rewrite Hl; discriminate).
  destruct (marked_incorrect d) eqn:Hm; cbn [fst].
  - split; [exists v; split; [reflexivity|exact Hv]|].
    split; [right; reflexivity|]. intros _. reflexivity.
  - split; [exists v; split; [reflexivity|exact Hv]|].
    split; [left; reflexivity|].
    unfold parsed_is_correct. cbn [verification set_verification].
    rewrite Hl. unfold marked_incorrect in Hm.
    apply negb_false_iff in Hm. rewrite Hm. discriminate.
Qed.

Lemma verification_loop_cases (E : Ext) (state : MathState) :
  (verification_loop E state = N_mcp_search
   /\ (lc state < 2)%Z
   /\ parsed_is_correct E (verification state) = false)
  \/ (verification_loop E state = N_output_guardrail
      /\ ((2 <= lc state)%Z
          \/ parsed_is_correct E (verification state) = true)).
Proof.
  unfold verification_loop, MAX_VERIFICATION_LOOPS. fold (lc state).
  destruct (2 <=? lc state)%Z eqn:Hc.
  - right. split; [reflexivity|]. left. apply Z.leb_le. exact Hc.
  - apply Z.leb_gt in Hc.
    destruct (parsed_is_correct E (verification state)).
    + right. split; [reflexivity|]. right. reflexivity.
    + left. repeat split. exact Hc.
Qed.

(** A node of the loop other than the verifier runs, keeps the counter
    and hands over to a node of the loop that is closer to the end. *)
Lemma loop_node_step (E : Ext) (t : nat) (n : node) (state : MathState) :
  in_loop n = true -> n <> N_verifier ->
  exists state' evs n',
    exec_node E t n state = Some (state', evs)
    /\ next_node E n state' = Some n'
    /\ lc state' = lc state
    /\ in_loop n' = true
    /\ (forall k, 1 <= k -> rank n' k < rank n k).
Proof.
  intros Hin Hnv.
  destruct n; try discriminate Hin; try congruence; cbn [exec_node].
  - destruct (query_breaker_node E t state) as [st' evs] eqn:Hn.
    exists st', evs, N_local_rag. cbn [next_node].
    repeat split; [|intros k Hk; simpl; lia].
    rewrite <- (lc_query_breaker E t state), Hn. reflexivity.
  - destruct (local_rag_node E t state) as [st' evs] eqn:Hn.
    exists st', evs, (rag_or_mcp st'). cbn [next_node].
    split; [reflexivity|]. split; [reflexivity|]. split.
    { rewrite <- (lc_local_rag E t state), Hn. reflexivity. }
    unfold rag_or_mcp.
    destruct (default false (needs_web_fallback st'));
      (split; [reflexivity|intros k Hk; simpl; lia]).
  - destruct (mcp_search_node E t state) as [st' evs] eqn:Hn.
    exists st', evs, N_reranker. cbn [next_node].
    repeat split; [|intros k Hk; simpl; lia].
    rewrite <- (lc_mcp_search E t state), Hn. reflexivity.
  - destruct (hybrid_reranker_node E t state) as [st' evs] eqn:Hn.
    exists st', evs, N_reasoning. cbn [next_node].
    repeat split; [|intros k Hk; simpl; lia].
    rewrite <- (lc_reranker E t state), Hn. reflexivity.
  - destruct (reasoning_node E t state) as [st' evs] eqn:Hn.
    exists st', evs, N_verifier. cbn [next_node].
    repeat split; [|intros k Hk; simpl; lia].
    rewrite <- (lc_reasoning E t state), Hn. reflexivity.
Qed.

Lemma count_node_cons (n : node) (s : step) (steps : list step) :
  count_node n (s :: steps)
  = (if bool_decide (step_node s = n) then 1 else 0) + count_node n steps.
Proof.
  unfold count_node. cbn [List.filter].
  destruct (bool_decide (step_node s = n)); reflexivity.
Qed.

(** A failing verifier call, when the dumped default reads back: the
    default is stored, the counter grows by one, the verdict read by the
    retry edge is "incorrect". *)
Lemma verifier_node_failure (E : Ext) (t : nat) (state : MathState) :
  json_reads_default E ->
  parse_failure E
    (verifier_llm E t (stripped_query state)
       (strip (default [] (reasoning_output state)))) ->
  fst (verifier_node E t state)
  = set_loop_count (lc state + 1)%Z
      (set_verification (VerStr safe_default_text) state)
  /\ parsed_is_correct E (verification (fst (verifier_node E t state))) = false.
Proof.
  intros Hd Hf.
  destruct (verifier_try_failure E t _ _ Hf) as [e He].
  assert (Hnode : fst (verifier_node E t state)
                  = set_loop_count (lc state + 1)%Z
                      (set_verification (VerStr safe_default_text) state)).
  { unfold verifier_node. cbv zeta. rewrite He.
    unfold json_reads_default in Hd. rewrite Hd. reflexivity. }
  split; [exact Hnode|].
  rewrite Hnode. unfold parsed_is_correct.
  cbn [verification set_loop_count set_verification].
  unfold json_reads_default in Hd. rewrite Hd. reflexivity.
Qed.

Lemma budget_bounds (state : MathState) :
  (0 <= lc state < 2)%Z -> 1 <= budget state <= 2.
Proof. unfold budget, MAX_VERIFICATION_LOOPS. lia. Qed.

(** From any node of the loop entered with the counter below the cap, the
    run reaches the output finalizer and ends; the counter never passes
    the cap and the verifier runs at most as often as retries were left.
    With a verifier that always fails it runs exactly that often. *)
Lemma run_from_loop (E : Ext) :
  json_object_texts E ->
  forall (fuel t : nat) (n : node) (state : MathState),
    in_loop n = true -> (0 <= lc state < 2)%Z ->
    rank n (budget state) <= fuel ->
    exists steps st_out final,
      run_from E fuel t n state = (steps ++ closing_steps st_out final, Ended)
      /\ Forall (fun s => (lc (step_state s) <= 2)%Z) steps
      /\ count_node N_verifier steps <= budget state
      /\ (lc st_out <= 2)%Z
      /\ (always_fails E -> json_reads_default E ->
          count_node N_verifier steps = budget state
          /\ lc st_out = 2%Z
          /\ verification st_out = Some (VerStr safe_default_text)).
Proof.
  intros Hj. induction fuel as [|fuel IH]; intros t n state Hin Hlc Hrank.
  { pose proof (budget_bounds state Hlc) as Hb.
    destruct n; try discriminate Hin; simpl in Hrank; lia. }
  pose proof (budget_bounds state Hlc) as Hb.
  destruct (decide (n = N_verifier)) as [->|Hnv].
  - rewrite run_from_unfold. cbn [exec_node next_node].
    pose proof (verifier_node_effect E t state) as (Hok & Hlc' & Hinc).
    pose proof (verifier_node_failure E t state) as Hfail.
    destruct (verifier_node E t state) as [st' evs] eqn:Hn. cbn [fst] in *.
    destruct (verification_loop_cases E st')
      as [(Hloop & Hlt & Hpar) | (Hout & Hwhy)].
    + rewrite Hloop. specialize (Hinc Hpar).
      assert (Hb' : budget st' = budget state - 1)
        by (unfold budget, MAX_VERIFICATION_LOOPS; lia).
      destruct (IH (S t) N_mcp_search st') as
        (steps & st_out & final & Hrun & Hall & Hcount & Hout & Hfails);
        [reflexivity|lia|rewrite Hb'; simpl in *; lia|].
      rewrite Hrun.
      exists (mkStep N_verifier st' evs :: steps), st_out, final.
      split; [reflexivity|]. split; [constructor; [simpl; lia|exact Hall]|].
      rewrite count_node_cons. cbn [step_node].
      rewrite bool_decide_eq_true_2 by reflexivity.
      split; [lia|]. split; [exact Hout|].
      intros Haf Hrd. destruct (Hfails Haf Hrd) as (Hc & Hl & Hv).
      split; [lia|]. split; assumption.
    + rewrite Hout.
      destruct fuel as [|[|fuel]]; [simpl in Hrank; lia|simpl in Hrank; lia|].
      destruct (run_from_output E fuel (S t) st' Hj Hok) as [final Hrun].
      rewrite Hrun.
      exists [mkStep N_verifier st' evs], st', final.
      split; [reflexivity|].
      split; [constructor; [simpl; lia|constructor]|].
      rewrite count_node_cons. cbn [step_node].
      rewrite bool_decide_eq_true_2 by reflexivity.
      change (count_node N_verifier []) with 0.
      split; [lia|]. split; [lia|].
      intros Haf Hrd.
      destruct (Hfail Hrd (Haf _ _ _)) as [Hst Hpar].
      assert (Hl : lc st' = (lc state + 1)%Z) by (rewrite Hst; reflexivity).
      destruct Hwhy as [Hcap | Hyes]; [|congruence].
      split; [unfold budget, MAX_VERIFICATION_LOOPS; lia|].
      split; [lia|]. rewrite Hst. reflexivity.
  - destruct (loop_node_step E t n state Hin Hnv)
      as (st' & evs & n' & Hexec & Hnext & Hlc' & Hin' & Hlt).
    rewrite run_from_unfold, Hexec, Hnext.
    assert (Hb' : budget st' = budget state) by (unfold budget; rewrite Hlc'; reflexivity).
    destruct (IH (S t) n' st') as
      (steps & st_out & final & Hrun & Hall & Hcount & Hout & Hfails);
      [exact Hin'|rewrite Hlc'; exact Hlc
      |rewrite Hb'; specialize (Hlt (budget state)); lia|].
    rewrite Hrun.
    exists (mkStep n st' evs :: steps), st_out, final.
    split; [reflexivity|].
    split; [constructor; [simpl; lia|exact Hall]|].
    rewrite count_node_cons. cbn [step_node].
    rewrite bool_decide_eq_false_2 by exact Hnv.
    split; [lia|]. split; [exact Hout|].
    intros Haf Hrd. destruct (Hfails Haf Hrd) as (Hc & Hl & Hv).
    split; [lia|]. split; assumption.
Qed.

(** An accepted query passes the guardrail and the router and enters the
    loop at the query breaker with the counter at 0. *)
Lemma invoke_accepted (E : Ext) (q : str) :
  classify q = None ->
  exists st1 st2,
    lc st1 = 0%Z /\ lc st2 = 0%Z
    /\ invoke E q =
       (let '(steps, st) := run_from E 23 2 N_query_breaker st2 in
        (mkStep N_input_guardrail st1 [] :: mkStep N_router st2 [] :: steps, st)).
Proof.
  intros Hc.
  exists (input_guardrail_node (initial_state q)),
         (router_node (input_guardrail_node (initial_state q))).
  split; [rewrite lc_input_guardrail; reflexivity|].
  split; [rewrite lc_router, lc_input_guardrail; reflexivity|].
  unfold invoke, recursion_limit.
  rewrite run_from_unfold. cbn [exec_node next_node].
  rewrite guardrail_initial, Hc.
  change (safe_or_end (set_is_safe true (set_is_safe false (initial_state q))))
    with (Some N_router).
  cbv beta iota.
  rewrite (run_from_unfold E 23 1 N_router). cbn [exec_node next_node].
  change (route_math_or_end
            (router_node (set_is_safe true (set_is_safe false (initial_state q)))))
    with (Some N_query_breaker).
  cbv beta iota.
  destruct (run_from E 23 2 N_query_breaker _) as [steps st]. reflexivity.
Qed.


Lemma cap_checked_first (E : Ext) (state : MathState) :
  (MAX_VERIFICATION_LOOPS <= lc state)%Z ->
  verification_loop E state = N_output_guardrail.
Proof.
  intros H. unfold verification_loop. fold (lc state).
  apply Z.leb_le in H. rewrite H. reflexivity.
Qed.

(** The shape of every run: a rejected query stops after the guardrail;
    an accepted one goes through the loop and the two closing steps. *)
Lemma invoke_shape (E : Ext) (q : str) :
  json_object_texts E ->
  (exists r st, classify q = Some r
                /\ invoke E q = ([mkStep N_input_guardrail st []], Ended)
                /\ lc st = 0%Z)
  \/ (classify q = None /\
      exists steps st_out final,
        invoke E q = (steps ++ closing_steps st_out final, Ended)
        /\ Forall (fun s => (lc (step_state s) <= 2)%Z) steps
        /\ count_node N_verifier steps <= 2
        /\ (lc st_out <= 2)%Z
        /\ (always_fails E -> json_reads_default E ->
            count_node N_verifier steps = 2
            /\ lc st_out = 2%Z
            /\ verification st_out = Some (VerStr safe_default_text))).
Proof.
  intros Hj. destruct (classify q) as [r|] eqn:Hc.
  - left. eexists r, _. split; [reflexivity|].
    split; [apply invoke_rejected; exact Hc|]. reflexivity.
  - right. split; [reflexivity|].
    destruct (invoke_accepted E q Hc) as (st1 & st2 & Hl1 & Hl2 & Hrun).
    destruct (run_from_loop E Hj 23 2 N_query_breaker st2) as
      (steps & st_out & final & Hloop & Hall & Hcount & Hout & Hfails);
      [reflexivity|lia|unfold budget, MAX_VERIFICATION_LOOPS; rewrite Hl2; simpl; lia|].
    rewrite Hloop in Hrun.
    assert (Hb : budget st2 = 2)
      by (unfold budget, MAX_VERIFICATION_LOOPS; rewrite Hl2; reflexivity).
    exists (mkStep N_input_guardrail st1 [] :: mkStep N_router st2 [] :: steps),
           st_out, final.
    split; [exact Hrun|].
    split; [repeat constructor; [simpl; lia|simpl; lia|exact Hall]|].
    rewrite !count_node_cons. cbn [step_node].
    rewrite !bool_decide_eq_false_2 by discriminate.
    split; [lia|]. split; [exact Hout|].
    intros Haf Hrd. destruct (Hfails Haf Hrd) as (Hc' & Hl & Hv).
    split; [lia|]. split; assumption.
Qed.



(** The reference reader has the two facts used above. *)
Lemma ref_json_object_texts (verdict : nat -> llm_reply) :
  json_object_texts (Ref.ext verdict).
Proof.
  intros s v Hs Hl. cbn [json_loads Ref.ext] in Hl.
  apply startswith_cons_inv in Hs. destruct Hs as (s' & -> & _).
  unfold Ref.json_loads in Hl. cbn [length] in Hl.
  remember (S (length s')) as fuel. cbn [Ref.read_value] in Hl.
  change (Ref.skip_ws ("{"%char :: s')) with ("{"%char :: s') in Hl.
  cbv beta iota in Hl.
  change (code "{" =? 123) with true in Hl. cbv iota in Hl.
  destruct (Ref.skip_ws s') as [|c' r'].
  - discriminate Hl.
  - destruct (code c' =? 125).
    + destruct (Ref.skip_ws r'); [|discriminate Hl].
      injection Hl as <-. eexists; reflexivity.
    + destruct (Ref.read_members _ _ _ _) as [[kv rest]|]; [|discriminate Hl].
      destruct (Ref.skip_ws rest); [|discriminate Hl].
      injection Hl as <-. eexists; reflexivity.
Qed.

Lemma ref_json_reads_default (verdict : nat -> llm_reply) :
  json_reads_default (Ref.ext verdict).
Proof. vm_compute. reflexivity. Qed.


(** C10: a verifier call that fails consumes retry budget.  When the
    dumped default reads back as dumped, a failing call stores the default,
    whose verdict is "incorrect", and adds one to [loop_count]; below the
    cap the retry edge then goes back to external search, which is where
    it goes for any verdict read as incorrect, and at the cap it goes to
    the output finalizer.  So with a verifier that fails on every call an
    accepted session still ends: the verifier runs exactly cap = 2 times,
    and the state that reaches the output finalizer has the counter at the
    cap and the default, never a success verdict, as its verification. *)
Theorem verifier_failure_consumes_budget (E : Ext) :
  json_reads_default E ->
  (forall (t : nat) (state : MathState),
      parse_failure E
        (verifier_llm E t (stripped_query state)
           (strip (default [] (reasoning_output state)))) ->
      verification (fst (verifier_node E t state))
      = Some (VerStr safe_default_text)
      /\ loop_count (fst (verifier_node E t state)) = Some (lc state + 1)%Z
      /\ parsed_is_correct E (verification (fst (verifier_node E t state))) = false
      /\ ((lc state + 1 < MAX_VERIFICATION_LOOPS)%Z ->
          verification_loop E (fst (verifier_node E t state)) = N_mcp_search)
      /\ ((MAX_VERIFICATION_LOOPS <= lc state + 1)%Z ->
          verification_loop E (fst (verifier_node E t state)) = N_output_guardrail))
  /\ (forall state : MathState,
        parsed_is_correct E (verification state) = false ->
        (lc state < MAX_VERIFICATION_LOOPS)%Z ->
        verification_loop E state = N_mcp_search)
  /\ (forall q : str,
        json_object_texts E -> always_fails E -> classify q = None ->
        exists steps st_out final,
          invoke E q = (steps ++ closing_steps st_out final, Ended)
          /\ count_node N_verifier steps = Z.to_nat MAX_VERIFICATION_LOOPS
          /\ lc st_out = MAX_VERIFICATION_LOOPS
          /\ verification st_out = Some (VerStr safe_default_text)
          /\ parsed_is_correct E (verification st_out) = false).
Proof.
  intros Hrd.
  assert (Hloop : forall state : MathState,
             parsed_is_correct E (verification state) = false ->
             (lc state < MAX_VERIFICATION_LOOPS)%Z ->
             verification_loop E state = N_mcp_search).
  { intros state Hp Hlt. unfold verification_loop. fold (lc state).
    apply Z.leb_gt in Hlt. rewrite Hlt, Hp. reflexivity. }
  split; [|split; [exact Hloop|]].
  - intros t state Hf.
    destruct (verifier_node_failure E t state Hrd Hf) as [Hst Hp].
    split; [rewrite Hst; reflexivity|].
    split; [rewrite Hst; reflexivity|].
    split; [exact Hp|].
    assert (Hl : lc (fst (verifier_node E t state)) = (lc state + 1)%Z)
      by (rewrite Hst; reflexivity).
    split.
    + intros Hlt. apply Hloop; [exact Hp|rewrite Hl; exact Hlt].
    + intros Hcap. apply cap_checked_first. rewrite Hl. exact Hcap.
  - intros q Hj Haf Hc.
    destruct (invoke_shape E q Hj) as
      [(r & st & Hc' & _) |
       (_ & steps & st_out & final & Hrun & _ & _ & _ & Hfails)];
      [congruence|].
    destruct (Hfails Haf Hrd) as (Hcount & Hl & Hv).
    exists steps, st_out, final.
    split; [exact Hrun|]. split; [exact Hcount|]. split; [exact Hl|].
    split; [exact Hv|].
    rewrite Hv. unfold parsed_is_correct.
    unfold json_reads_default in Hrd. rewrite Hrd. reflexivity.
Qed.

Lemma verifier_failure_consumes_budget_witness :
  json_reads_default (Ref.ext (fun _ => LlmRaises))
  /\ exists steps st_out final,
      invoke (Ref.ext (fun _ => LlmRaises)) (lit "Solve x^2 = 16")
      = (steps ++ closing_steps st_out final, Ended)
      /\ count_node N_verifier steps = Z.to_nat MAX_VERIFICATION_LOOPS
      /\ lc st_out = MAX_VERIFICATION_LOOPS
      /\ verification st_out = Some (VerStr safe_default_text)
      /\ parsed_is_correct (Ref.ext (fun _ => LlmRaises)) (verification st_out)
         = false.
Proof.
  split; [apply ref_json_reads_default|].
  apply (proj2 (proj2 (verifier_failure_consumes_budget
                         (Ref.ext (fun _ => LlmRaises))
                         (ref_json_reads_default _)))).
  - apply ref_json_object_texts.
  - intros t query reasoning. apply pf_call.
  - vm_compute. reflexivity.
Defined.

(** ** Output finalizer *)


Example finalize_think_example :
  finalize (lit "<think>internal</think>Final answer: 4") = lit "Final answer: 4".
Proof. vm_compute. reflexivity. Qed.


Arguments is_word_char : simpl never.
Arguments lower_char : simpl never.
Arguments isspace : simpl never.
Arguments ascii_eqb : simpl never.
Arguments phrase_match : simpl never.
Arguments think_match : simpl never.
Arguments multi_nl_match : simpl never.

(** *** Scanning and replacing *)










(** *** Character classes *)

Lemma is_word_lower (c : ascii) : is_word_char (lower_char c) = is_word_char c.
Proof. destruct c as [[] [] [] [] [] [] [] []]; reflexivity. Qed.







Lemma opt_word_last_lower (s : str) :
  opt_word (last (lower s)) = opt_word (last s).
Proof.
  induction s as [|c s IH]; [reflexivity|].
  destruct s as [|c' s]; [apply is_word_lower|].
  change (lower (c :: c' :: s)) with (lower_char c :: lower (c' :: s)).
  change (lower (c' :: s)) with (lower_char c' :: lower s) in *.
  rewrite !last_cons_cons. exact IH.
Qed.



(** *** Forbidden phrases *)
























(** *** Blank-line collapsing *)












(** *** Trimming *)

Lemma lstrip_split (s : str) :
  exists ws, s = ws ++ lstrip s /\ forallb isspace ws = true.
Proof.
  induction s as [|c s IH].
  - exists []. split; reflexivity.
  - cbn [lstrip]. destruct (isspace c) eqn:Hc.
    + destruct IH as (ws & Hs & Hws). exists (c :: ws).
      split; [cbn [app]; rewrite <- Hs; reflexivity|].
      cbn [forallb]. rewrite Hc, Hws. reflexivity.
    + exists []. split; reflexivity.
Qed.

Lemma rstrip_split (s : str) :
  exists ws, s = rstrip s ++ ws /\ forallb isspace ws = true.
Proof.
  unfold rstrip. destruct (lstrip_split (rev s)) as (ws & Hs & Hws).
  exists (rev ws). split.
  - rewrite <- rev_app_distr, <- Hs, rev_involutive. reflexivity.
  - rewrite forallb_forall in Hws |- *. intros c Hc. apply Hws.
    apply in_rev. exact Hc.
Qed.

Lemma lstrip_fixed (s : str) :
  match s with [] => True | c :: _ => isspace c = false end -> lstrip s = s.
Proof. destruct s as [|c s]; [reflexivity|]. cbn [lstrip]. intros ->. reflexivity. Qed.

Lemma lstrip_head (s : str) :
  match lstrip s with [] => True | c :: _ => isspace c = false end.
Proof.
  induction s as [|c s IH]; [exact I|]. cbn [lstrip].
  destruct (isspace c) eqn:Hc; [exact IH|exact Hc].
Qed.

Lemma lstrip_idempotent (s : str) : lstrip (lstrip s) = lstrip s.
Proof. apply lstrip_fixed, lstrip_head. Qed.

Lemma rstrip_idempotent (s : str) : rstrip (rstrip s) = rstrip s.
Proof. unfold rstrip. rewrite rev_involutive, lstrip_idempotent. reflexivity. Qed.

Lemma strip_head (s : str) :
  match strip s with [] => True | c :: _ => isspace c = false end.
Proof.
  destruct (strip s) as [|c s'] eqn:Hs; [exact I|].
  eapply strip_head_not_space. exact Hs.
Qed.

Lemma strip_idempotent (s : str) : strip (strip s) = strip s.
Proof.
  unfold strip at 1. rewrite (lstrip_fixed (strip s)) by apply strip_head.
  unfold strip. apply rstrip_idempotent.
Qed.

Lemma strip_split (s : str) :
  exists ws1 ws2,
    s = ws1 ++ strip s ++ ws2
    /\ forallb isspace ws1 = true /\ forallb isspace ws2 = true.
Proof.
  destruct (lstrip_split s) as (ws1 & Hs1 & Hw1).
  destruct (rstrip_split (lstrip s)) as (ws2 & Hs2 & Hw2).
  exists ws1, ws2. unfold strip. rewrite <- Hs2, <- Hs1. auto.
Qed.











(** *** Idempotence *)







Example finalize_sample :
  finalize sample_reasoning
  = lit ", the  is short." ++ [newline; newline] ++ lit "Final answer: 4".
Proof. vm_compute. reflexivity. Qed.

(** * Further properties *)

(** ** Splitting and joining *)

Lemma startswith_split (p s : str) :
  startswith p s = true -> s = p ++ drop (length p) s.
Proof.
  revert s. induction p as [|a p IH]; intros s H; [reflexivity|].
  apply startswith_cons_inv in H. destruct H as (s' & -> & H).
  cbn [length drop app]. rewrite <- (IH s' H). reflexivity.
Qed.

Lemma split_go_skip (sep a rest cur : str) :
  split_go sep (length a) cur (a ++ rest) = split_go sep 0 cur rest.
Proof.
  induction a as [|c a IH]; [reflexivity|]. cbn [length app split_go]. exact IH.
Qed.

Lemma split_go_nonempty (sep : str) (skip : nat) (cur s : str) :
  split_go sep skip cur s <> [].
Proof.
  revert skip cur. induction s as [|c s IH]; intros skip cur; [discriminate|].
  cbn [split_go]. destruct skip as [|k]; [|apply IH].
  destruct (startswith sep (c :: s)); [discriminate|apply IH].
Qed.

Lemma join_cons (sep p : str) (ps : list str) :
  ps <> [] -> join sep (p :: ps) = p ++ sep ++ join sep ps.
Proof. destruct ps; [congruence|reflexivity]. Qed.

(** The effect of a separator found at the head of the text. *)
Lemma split_go_match (sep cur s : str) :
  sep <> [] -> startswith sep s = true ->
  split_go sep 0 cur s
  = rev cur :: split_go sep 0 [] (drop (length sep) s).
Proof.
  intros Hne Hs. pose proof (startswith_split sep s Hs) as Heq.
  destruct sep as [|a sep]; [congruence|].
  destruct s as [|c s]; [discriminate Hs|].
  cbn [split_go]. rewrite Hs. f_equal.
  cbn [length drop app] in Heq |- *. injection Heq as _ Heq.
  replace (S (length sep) - 1) with (length sep) by lia.
  rewrite Heq at 1. apply split_go_skip.
Qed.

Lemma split_go_join (sep : str) :
  sep <> [] ->
  forall (n : nat) (s cur : str),
    length s <= n -> join sep (split_go sep 0 cur s) = rev cur ++ s.
Proof.
  intros Hne. induction n as [|n IH]; intros s cur Hlen.
  { destruct s; [|simpl in Hlen; lia]. cbn. rewrite app_nil_r. reflexivity. }
  destruct s as [|c s]; [cbn; rewrite app_nil_r; reflexivity|].
  destruct (startswith sep (c :: s)) eqn:Hs.
  - rewrite split_go_match by assumption.
    rewrite join_cons by apply split_go_nonempty.
    rewrite IH.
    + cbn [rev app]. rewrite <- (startswith_split sep (c :: s) Hs). reflexivity.
    + rewrite length_drop. destruct sep; [congruence|]. simpl in *. lia.
  - cbn [split_go]. rewrite Hs. rewrite IH by (simpl in Hlen; lia).
    cbn [rev]. rewrite <- app_assoc. reflexivity.
Qed.

(** [sep.join(s.split(sep)) == s] *)
Lemma split_join (sep s : str) : sep <> [] -> join sep (split sep s) = s.
Proof. intros H. unfold split. apply (split_go_join sep H (length s)). lia. Qed.

Lemma split_go_found (sep s cur : str) :
  sep <> [] -> contains sep s = true -> 2 <= length (split_go sep 0 cur s).
Proof.
  intros Hne. revert cur. induction s as [|c s IH]; intros cur H.
  - unfold contains in H. destruct sep; [congruence|discriminate H].
  - cbn [split_go]. unfold contains in H. fold contains in H.
    destruct (startswith sep (c :: s)) eqn:Hs.
    + cbn [length]. pose proof (split_go_nonempty sep (length sep - 1) [] s) as Hn.
      destruct (split_go sep (length sep - 1) [] s); [congruence|simpl; lia].
    + apply IH. exact H.
Qed.

Lemma join_snoc (sep p : str) (l : list str) :
  l <> [] -> join sep (l ++ [p]) = join sep l ++ sep ++ p.
Proof.
  induction l as [|a l IH]; [congruence|]. intros _.
  destruct l as [|b l].
  - reflexivity.
  - change ((a :: b :: l) ++ [p]) with (a :: ((b :: l) ++ [p])).
    rewrite join_cons by (destruct l; discriminate).
    rewrite IH by discriminate.
    rewrite (join_cons sep a (b :: l)) by discriminate.
    rewrite <- !app_assoc. reflexivity.
Qed.

Lemma strip_last (s : str) :
  match last (strip s) with Some c => isspace c = false | None => True end.
Proof.
  unfold strip, rstrip.
  pose proof (lstrip_head (rev (lstrip s))) as H.
  destruct (lstrip (rev (lstrip s))) as [|c l]; [exact I|].
  cbn [rev]. rewrite last_snoc. exact H.
Qed.

Lemma strip_snoc_nonempty (l : str) (c : ascii) :
  isspace c = false -> strip (l ++ [c]) <> [].
Proof.
  intros Hc. unfold strip, rstrip.
  destruct (lstrip_keeps_last l c Hc) as [l' ->].
  rewrite rev_app_distr. cbn [rev app lstrip]. rewrite Hc.
  cbn [rev]. intros H. apply app_eq_nil in H. destruct H; discriminate.
Qed.

Lemma nonempty_true (s : str) : nonempty s = true <-> s <> [].
Proof. destruct s; cbn; split; intros; try discriminate; congruence. Qed.

Lemma contains_nonempty (sub s : str) :
  sub <> [] -> contains sub s = true -> s <> [].
Proof.
  intros Hs H ->. destruct sub; [congruence|]. discriminate H.
Qed.

(** Both ends of a trimmed text survive a split on a white-space padded
    separator. *)
Lemma split_parts_two (sep s : str) :
  space_padded sep = true -> trimmed s ->
  contains sep s = true -> 2 <= length (split_parts sep s).
Proof.
  intros Hpad Htrim Hin.
  assert (Hsep : sep <> []) by (intros ->; discriminate Hpad).
  assert (Hs : s <> []) by (eapply contains_nonempty; eauto).
  pose proof (split_join sep s Hsep) as Hjoin.
  pose proof (split_go_found sep s [] Hsep Hin) as Hlen.
  fold (split sep s) in Hlen.
  unfold split_parts.
  destruct (split sep s) as [|p0 ps]; [simpl in Hlen; lia|].
  assert (Hps : ps <> []) by (intros ->; simpl in Hlen; lia).
  destruct (exists_last Hps) as (mid & pk & ->).
  pose proof (strip_head s) as Hhead. pose proof (strip_last s) as Hlast.
  unfold trimmed in Htrim. rewrite Htrim in Hhead, Hlast.
  unfold space_padded in Hpad.
  destruct (head sep) as [a|] eqn:Ha; [|discriminate].
  destruct (last sep) as [b|] eqn:Hb; [|discriminate].
  apply andb_true_iff in Hpad. destruct Hpad as [Hsa Hsb].
  (* the first piece *)
  assert (H0 : nonempty (strip p0) = true).
  { rewrite join_cons in Hjoin by (destruct mid; discriminate).
    destruct p0 as [|c p0].
    - exfalso. destruct sep as [|a' sep']; [congruence|].
      injection Ha as ->. rewrite <- Hjoin in Hhead. cbn in Hhead. congruence.
    - rewrite <- Hjoin in Hhead. cbn in Hhead.
      destruct (strip_keeps_head c p0 Hhead) as [s' ->]. reflexivity. }
  (* the last piece *)
  assert (Hk : nonempty (strip pk) = true).
  { change (p0 :: mid ++ [pk]) with ((p0 :: mid) ++ [pk]) in Hjoin.
    rewrite join_snoc in Hjoin by discriminate.
    destruct (decide (pk = [])) as [->|Hpk].
    - exfalso. rewrite app_nil_r in Hjoin.
      destruct (exists_last Hsep) as (sep' & b' & ->).
      rewrite last_snoc in Hb. injection Hb as ->.
      rewrite <- Hjoin, app_assoc, last_snoc in Hlast. congruence.
    - destruct (exists_last Hpk) as (pk' & c & ->).
      rewrite <- Hjoin, !app_assoc, last_snoc in Hlast.
      apply nonempty_true, strip_snoc_nonempty, Hlast. }
  cbn [map List.filter]. rewrite H0. cbn [length].
  rewrite map_app, List.filter_app, length_app. cbn [map List.filter].
  rewrite Hk. cbn [length]. lia.
Qed.

Lemma triggers_space_padded (trig : str) :
  In trig triggers -> space_padded trig = true.
Proof.
  intros H. unfold triggers in H. cbn [map In] in H.
  repeat (destruct H as [<-|H]; [vm_compute; reflexivity|]). destruct H.
Qed.

Lemma split_parts_fragments (trig q : str) :
  Forall (fun p => p <> [] /\ trimmed p) (split_parts trig q).
Proof.
  unfold split_parts. apply List.Forall_forall. intros p Hp.
  apply List.filter_In in Hp. destruct Hp as [Hp Hne].
  apply List.in_map_iff in Hp. destruct Hp as (x & <- & _).
  split; [apply nonempty_true, Hne|apply strip_idempotent].
Qed.

Lemma stripped_query_trimmed (state : MathState) : trimmed (stripped_query state).
Proof. apply strip_idempotent. Qed.

(** ** Input guardrail: the unsafe gate comes first *)

(** X1: a query whose trimmed, lower-cased text contains one of the
    harmful keywords is rejected as unsafe whatever else it contains, math
    keywords included, and whatever [is_safe] held before: [is_safe] is
    set to false and [reasoning_output] to the unsafe-content message. *)
Theorem unsafe_keyword_rejected_first (state : MathState) (k : str) :
  In k harmful_keywords ->
  contains k (lower (stripped_query state)) = true ->
  is_safe (input_guardrail_node state) = Some false
  /\ reasoning_output (input_guardrail_node state) = Some msg_unsafe
  /\ safe_or_end (input_guardrail_node state) = None.
Proof.
  intros Hk Hin.
  assert (Hany : any_in harmful_keywords (lower (stripped_query state)) = true).
  { unfold any_in. apply existsb_exists. exists k. split; assumption. }
  assert (Hne : nonempty (stripped_query state) = true).
  { apply nonempty_true. intros Hq. rewrite Hq in Hin.
    revert Hk Hin. unfold harmful_keywords. cbn [map In].
    intros Hk. repeat (destruct Hk as [<-|Hk]; [vm_compute; discriminate|]).
    destruct Hk. }
  unfold input_guardrail_node. rewrite Hne, Hany. cbv iota beta zeta.
  cbn [negb]. cbv iota.
  unfold safe_or_end, setdefault.
  destruct (is_safe state); repeat split; reflexivity.
Qed.

Lemma unsafe_keyword_rejected_first_witness :
  is_safe (input_guardrail_node
             (initial_state (lit "Solve the equation to hack the exam")))
  = Some false
  /\ reasoning_output (input_guardrail_node
             (initial_state (lit "Solve the equation to hack the exam")))
     = Some msg_unsafe
  /\ safe_or_end (input_guardrail_node
             (initial_state (lit "Solve the equation to hack the exam")))
     = None.
Proof.
  apply (unsafe_keyword_rejected_first
           (initial_state (lit "Solve the equation to hack the exam"))
           (lit "hack")).
  - vm_compute. tauto.
  - vm_compute; reflexivity.
Defined.

(** ** Query breaker *)

(** X2: when the trimmed query contains, in lower case as written, the
    first trigger found in its lower-cased text, the heuristic alone
    decomposes it: at least two fragments, each non-empty and trimmed, are
    stored and no LLM call is made. *)
Theorem exact_case_trigger_splits (E : Ext) (t : nat) (state : MathState)
    (trig : str) :
  List.find (fun trig => contains trig (lower (stripped_query state))) triggers
  = Some trig ->
  contains trig (stripped_query state) = true ->
  query_breaker_node E t state
  = (set_broken_queries (split_parts trig (stripped_query state)) state, [])
  /\ 2 <= length (split_parts trig (stripped_query state))
  /\ Forall (fun p => p <> [] /\ trimmed p)
       (split_parts trig (stripped_query state)).
Proof.
  intros Hfind Hin.
  assert (Hlen : 2 <= length (split_parts trig (stripped_query state))).
  { apply split_parts_two.
    - apply triggers_space_padded. apply List.find_some in Hfind. tauto.
    - apply stripped_query_trimmed.
    - exact Hin. }
  split; [|split; [exact Hlen|apply split_parts_fragments]].
  unfold query_breaker_node, _heuristic_split.
  rewrite heuristic_loop_find, Hfind. cbv zeta.
  destruct (1 <? length (split_parts trig (stripped_query state))) eqn:Hlt;
    [reflexivity|].
  apply Nat.ltb_ge in Hlt. lia.
Qed.

Lemma exact_case_trigger_splits_witness :
  query_breaker_node (Ref.ext (fun _ => LlmRaises)) 2
    (initial_state (lit "  Solve x+1=2 then compute y  "))
  = (set_broken_queries
       (split_parts (lit " then ")
          (stripped_query (initial_state (lit "  Solve x+1=2 then compute y  "))))
       (initial_state (lit "  Solve x+1=2 then compute y  ")), [])
  /\ 2 <= length (split_parts (lit " then ")
          (stripped_query (initial_state (lit "  Solve x+1=2 then compute y  "))))
  /\ Forall (fun p => p <> [] /\ trimmed p)
       (split_parts (lit " then ")
          (stripped_query (initial_state (lit "  Solve x+1=2 then compute y  ")))).
Proof.
  apply (exact_case_trigger_splits (Ref.ext (fun _ => LlmRaises)) 2
           (initial_state (lit "  Solve x+1=2 then compute y  ")) (lit " then ")).
  - vm_compute; reflexivity.
  - vm_compute; reflexivity.
Defined.

Lemma llm_split_fragments (E : Ext) (t : nat) (q : str) :
  trimmed q ->
  Forall trimmed (fst (_llm_split E t q))
  /\ (q <> [] -> Forall (fun p => p <> []) (fst (_llm_split E t q))).
Proof.
  intros Hq.
  assert (Hself : Forall trimmed [q] /\ (q <> [] -> Forall (fun p => p <> []) [q])).
  { split; [repeat constructor; exact Hq|intros H; repeat constructor; exact H]. }
  unfold _llm_split.
  destruct (negb (nonempty (GROQ_API_KEY E))); [exact Hself|].
  destruct (llm_split_call E t q) as [| |content]; try exact Hself.
  destruct (json_loads E content) as [[| | | |subqs|]|]; try exact Hself.
  destruct (forallb is_jstr subqs); [|exact Hself].
  cbn [fst]. split; [|intros _]; apply List.Forall_forall; intros p Hp;
    apply List.filter_In in Hp; destruct Hp as [Hp Hne].
  - apply List.in_map_iff in Hp. destruct Hp as (x & <- & _).
    apply strip_idempotent.
  - apply nonempty_true, Hne.
Qed.

Lemma query_breaker_shape (E : Ext) (t : nat) (state : MathState) :
  exists subs,
    fst (query_breaker_node E t state) = set_broken_queries subs state
    /\ subs <> []
    /\ Forall trimmed subs
    /\ (stripped_query state = [] \/ Forall (fun p => p <> []) subs).
Proof.
  unfold query_breaker_node.
  destruct (1 <? length (_heuristic_split (stripped_query state))) eqn:Hlt.
  - exists (_heuristic_split (stripped_query state)). cbn [fst].
    split; [reflexivity|].
    apply Nat.ltb_lt in Hlt.
    split; [intros H; rewrite H in Hlt; simpl in Hlt; lia|].
    revert Hlt. unfold _heuristic_split. rewrite heuristic_loop_find.
    destruct (List.find _ triggers) as [trig|]; [|simpl; lia].
    intros _.
    pose proof (split_parts_fragments trig (stripped_query state)) as HF.
    split; [|right]; eapply List.Forall_impl; try exact HF; cbv beta; tauto.
  - destruct (llm_split_fragments E t (stripped_query state)
                (stripped_query_trimmed state)) as [Htrim Hne].
    destruct (_llm_split E t (stripped_query state)) as [subs evs].
    cbn [fst] in Htrim, Hne |- *.
    destruct subs as [|p subs].
    + exists [stripped_query state]. split; [reflexivity|].
      split; [discriminate|]. split.
      * repeat constructor. apply stripped_query_trimmed.
      * destruct (decide (stripped_query state = [])) as [H|H]; [left; exact H|].
        right. repeat constructor. exact H.
    + exists (p :: subs). split; [reflexivity|].
      split; [discriminate|]. split; [exact Htrim|].
      destruct (decide (stripped_query state = [])) as [H|H]; [left; exact H|].
      right. apply Hne, H.
Qed.

(** X3: whatever the LLM does, the breaker stores a non-empty list of
    trimmed sub-queries; none of them is empty unless the trimmed query
    itself is. *)
Theorem query_breaker_stores_usable_list (E : Ext) (t : nat) (state : MathState) :
  exists subs,
    broken_queries (fst (query_breaker_node E t state)) = Some subs
    /\ subs <> []
    /\ Forall trimmed subs
    /\ (stripped_query state = [] \/ Forall (fun p => p <> []) subs).
Proof.
  destruct (query_breaker_shape E t state) as (subs & Hst & H).
  exists subs. rewrite Hst. split; [reflexivity|exact H].
Qed.

(** ** Router *)

Lemma setdefault_same {A} (get : MathState -> option A)
    (set : A -> MathState -> MathState) (v : A) (state : MathState) :
  (forall s, get (set v s) = Some v) ->
  get (setdefault get set v state) = Some (default v (get state)).
Proof.
  intros H. unfold setdefault.
  destruct (get state) eqn:Hg; [rewrite Hg; reflexivity|apply H].
Qed.

Lemma setdefault_other {A B} (get : MathState -> option A)
    (set : A -> MathState -> MathState) (v : A) (state : MathState)
    (g : MathState -> B) :
  (forall s, g (set v s) = g s) -> g (setdefault get set v state) = g state.
Proof. intros H. unfold setdefault. destruct (get state); [reflexivity|apply H]. Qed.

Lemma setdefault_present {A} (get : MathState -> option A)
    (set : A -> MathState -> MathState) (v x : A) (state : MathState) :
  get state = Some x -> setdefault get set v state = state.
Proof. intros H. unfold setdefault. rewrite H. reflexivity. Qed.

Ltac through_setdefault :=
  repeat first
    [ rewrite setdefault_same by (intros; reflexivity)
    | rewrite setdefault_other by (intros; reflexivity) ].

Lemma router_defaults_fields (state : MathState) :
  broken_queries (router_defaults state) = Some (default [] (broken_queries state))
  /\ local_results (router_defaults state)
     = Some (default [] (local_results state))
  /\ web_results (router_defaults state) = Some (default [] (web_results state))
  /\ reranked_results (router_defaults state)
     = Some (default [] (reranked_results state))
  /\ reasoning_output (router_defaults state)
     = Some (default [] (reasoning_output state))
  /\ verification (router_defaults state)
     = Some (default (VerStr []) (verification state))
  /\ needs_web_fallback (router_defaults state)
     = Some (default false (needs_web_fallback state))
  /\ loop_count (router_defaults state) = Some (default 0%Z (loop_count state))
  /\ final_output (router_defaults state)
     = Some (default [] (final_output state)).
Proof.
  unfold router_defaults. cbv zeta.
  repeat split; through_setdefault; reflexivity.
Qed.

Lemma router_defaults_frame (state : MathState) :
  query (router_defaults state) = query state
  /\ is_safe (router_defaults state) = is_safe state
  /\ is_math (router_defaults state) = is_math state.
Proof.
  unfold router_defaults. cbv zeta.
  repeat split; through_setdefault; reflexivity.
Qed.

Lemma router_defaults_fixed (state : MathState) :
  is_Some (broken_queries state) -> is_Some (local_results state) ->
  is_Some (web_results state) -> is_Some (reranked_results state) ->
  is_Some (reasoning_output state) -> is_Some (verification state) ->
  is_Some (needs_web_fallback state) -> is_Some (loop_count state) ->
  is_Some (final_output state) ->
  router_defaults state = state.
Proof.
  intros [? H1] [? H2] [? H3] [? H4] [? H5] [? H6] [? H7] [? H8] [? H9].
  unfold router_defaults. cbv zeta.
  rewrite (setdefault_present _ _ _ _ _ H1), (setdefault_present _ _ _ _ _ H2),
    (setdefault_present _ _ _ _ _ H3), (setdefault_present _ _ _ _ _ H4),
    (setdefault_present _ _ _ _ _ H5), (setdefault_present _ _ _ _ _ H6),
    (setdefault_present _ _ _ _ _ H7), (setdefault_present _ _ _ _ _ H8),
    (setdefault_present _ _ _ _ _ H9).
  reflexivity.
Qed.

(** X4: the router gives every pipeline key a value and overwrites none:
    each of the nine keys read downstream holds afterwards what it held
    before, or its default when it was absent; the query and the safety
    verdict are untouched; and running the router again changes nothing. *)
Theorem router_fills_missing_keys_only (state : MathState) :
  broken_queries (router_node state) = Some (default [] (broken_queries state))
  /\ local_results (router_node state) = Some (default [] (local_results state))
  /\ web_results (router_node state) = Some (default [] (web_results state))
  /\ reranked_results (router_node state)
     = Some (default [] (reranked_results state))
  /\ reasoning_output (router_node state)
     = Some (default [] (reasoning_output state))
  /\ verification (router_node state)
     = Some (default (VerStr []) (verification state))
  /\ needs_web_fallback (router_node state)
     = Some (default false (needs_web_fallback state))
  /\ loop_count (router_node state) = Some (default 0%Z (loop_count state))
  /\ final_output (router_node state) = Some (default [] (final_output state))
  /\ query (router_node state) = query state
  /\ is_safe (router_node state) = is_safe state
  /\ router_node (router_node state) = router_node state.
Proof.
  pose proof (router_defaults_fields state)
    as (H1 & H2 & H3 & H4 & H5 & H6 & H7 & H8 & H9).
  pose proof (router_defaults_frame state) as (Hq & Hs & _).
  assert (Hfix : router_defaults (router_defaults state) = router_defaults state).
  { apply router_defaults_fixed; eauto. }
  unfold router_node.
  destruct (negb (default false (is_safe state))) eqn:Hsafe.
  - rewrite Hs, Hsafe, Hfix. tauto.
  - change (is_safe (set_is_math true (router_defaults state)))
      with (is_safe (router_defaults state)).
    rewrite Hs, Hsafe.
    assert (Hfix' : router_defaults (set_is_math true (router_defaults state))
                    = set_is_math true (router_defaults state)).
    { apply router_defaults_fixed; cbn; eauto. }
    rewrite Hfix'. cbn. tauto.
Qed.

(** ** Local retrieval *)

Lemma in_hits_to_docs (d : Document) (raw : list RawHit) :
  In d (hits_to_docs raw) -> exists r, In r raw /\ hit_to_doc r = Some d.
Proof.
  unfold hits_to_docs. induction raw as [|r raw IH]; cbn [omap list_omap].
  - intros [].
  - destruct (hit_to_doc r) as [d'|] eqn:Hr.
    + intros [<-|H].
      * exists r. split; [left; reflexivity|exact Hr].
      * destruct (IH H) as (r' & Hin & Hd). exists r'. split; [right|]; assumption.
    + intros H. destruct (IH H) as (r' & Hin & Hd).
      exists r'. split; [right|]; assumption.
Qed.

(** The document built from one hit. *)
Lemma hit_to_doc_shape (r : RawHit) (d : Document) :
  hit_to_doc r = Some d ->
  doc_origin d = Some (MStr (lit "local_rag"))
  /\ metadata d !! "score"%string = Some (MFloat (default 0%Q (hit_score r)))
  /\ exists problem rest,
       problem <> [] /\ trimmed problem
       /\ page_content d = lit "Problem: " ++ problem ++ rest.
Proof.
  unfold hit_to_doc. cbv zeta.
  set (payload := default empty_payload (hit_payload r)).
  destruct (nonempty (strip (default [] (p_problem payload)))) eqn:Hp;
    cbn [negb]; [|discriminate].
  intros [= <-]. split; [reflexivity|]. split; [reflexivity|].
  exists (strip (default [] (p_problem payload))).
  destruct (nonempty (strip (default [] (p_solution payload)))).
  - exists (nl ++ lit "Solution: " ++ strip (default [] (p_solution payload))).
    split; [apply nonempty_true, Hp|]. split; [apply strip_idempotent|].
    reflexivity.
  - exists []. split; [apply nonempty_true, Hp|].
    split; [apply strip_idempotent|].
    rewrite app_nil_r. reflexivity.
Qed.

Lemma local_rag_node_docs (E : Ext) (t : nat) (state : MathState) :
  exists raw,
    local_results (fst (local_rag_node E t state)) = Some (hits_to_docs raw).
Proof.
  unfold local_rag_node.
  destruct (negb (nonempty _)); [exists []; reflexivity|].
  destruct (local_rag_search E t _) as [|results]; [exists []; reflexivity|].
  exists (default [] results).
  destruct (hits_to_docs (default [] results)); reflexivity.
Qed.

(** X5: every document local retrieval stores is tagged with the origin
    [local_rag], carries a numeric score, and has a text that starts with
    ["Problem: "] followed by a non-empty trimmed problem statement: hits
    without a problem text are skipped, so none is stored with an empty
    text. *)
Theorem local_documents_wellformed (E : Ext) (t : nat) (state : MathState) :
  exists docs,
    local_results (fst (local_rag_node E t state)) = Some docs
    /\ Forall (fun d =>
         doc_origin d = Some (MStr (lit "local_rag"))
         /\ (exists q, metadata d !! "score"%string = Some (MFloat q))
         /\ exists problem rest,
              problem <> [] /\ trimmed problem
              /\ page_content d = lit "Problem: " ++ problem ++ rest) docs.
Proof.
  destruct (local_rag_node_docs E t state) as [raw Hraw].
  exists (hits_to_docs raw). split; [exact Hraw|].
  apply List.Forall_forall. intros d Hd.
  destruct (in_hits_to_docs d raw Hd) as (r & _ & Hr).
  destruct (hit_to_doc_shape r d Hr) as (Ho & Hs & Hp).
  split; [exact Ho|]. split; [eexists; exact Hs|exact Hp].
Qed.

Lemma local_candidate_kept (d : Document) (problem rest : str) :
  problem <> [] -> trimmed problem ->
  page_content d = lit "Problem: " ++ problem ++ rest ->
  nonempty (fst (_make_candidate_from_local d)) = true.
Proof.
  intros _ _ Hpc. unfold _make_candidate_from_local. cbn [fst]. rewrite Hpc.
  change (lit "Problem: ") with ("P"%char :: lit "roblem: ").
  cbn [app].
  destruct (strip_keeps_head "P"%char (lit "roblem: " ++ problem ++ rest))
    as [s' ->]; reflexivity.
Qed.

Lemma keep_nonempty_all (cs : list candidate) :
  (forall c, In c cs -> nonempty (fst c) = true) -> keep_nonempty cs = cs.
Proof.
  unfold keep_nonempty. induction cs as [|c cs IH]; intros H; [reflexivity|].
  cbn [List.filter]. rewrite (H c (or_introl eq_refl)). f_equal.
  apply IH. intros c' Hc'. apply H. right. exact Hc'.
Qed.

(** X6: the reranker drops no document of local retrieval for being
    empty: when the local results are used, the candidate pool is every
    local document, in order and tagged [local_rag], followed by the web
    items that have a text. *)
Theorem local_documents_all_candidates (E : Ext) (t : nat) (state : MathState)
    (web_items : list WebItem) :
  exists docs,
    local_results (fst (local_rag_node E t state)) = Some docs
    /\ candidate_pool false docs web_items
       = map _make_candidate_from_local docs
         ++ keep_nonempty (map _make_candidate_from_web web_items)
    /\ Forall (fun c => snd c !! "origin"%string = Some (MStr (lit "local_rag")))
         (map _make_candidate_from_local docs).
Proof.
  destruct (local_rag_node_docs E t state) as [raw Hraw].
  exists (hits_to_docs raw). split; [exact Hraw|].
  assert (Hshape : forall d, In d (hits_to_docs raw) ->
            nonempty (fst (_make_candidate_from_local d)) = true
            /\ snd (_make_candidate_from_local d) !! "origin"%string
               = Some (MStr (lit "local_rag"))).
  { intros d Hd. destruct (in_hits_to_docs d raw Hd) as (r & _ & Hr).
    destruct (hit_to_doc_shape r d Hr) as (Ho & _ & problem & rest & H1 & H2 & H3).
    split; [eapply local_candidate_kept; eassumption|].
    unfold _make_candidate_from_local. cbn [snd].
    unfold doc_origin in Ho. rewrite Ho. exact Ho. }
  split.
  - unfold candidate_pool. cbn [negb]. f_equal.
    apply keep_nonempty_all. intros c Hc.
    apply List.in_map_iff in Hc. destruct Hc as (d & <- & Hd).
    apply Hshape, Hd.
  - apply List.Forall_forall. intros c Hc.
    apply List.in_map_iff in Hc. destruct Hc as (d & <- & Hd).
    apply Hshape, Hd.
Qed.

(** X7: for a non-empty query, retrieval after the breaker always calls
    the index tool, exactly once, with the first stored sub-query (never
    an empty one), the filters of the state and [rag_top_k] (5 when absent
    or 0); what it stores is built from the hits of that call, nothing
    when the call raises. *)
Theorem retrieval_searches_first_subquery (E : Ext) (t t' : nat)
    (state : MathState) :
  stripped_query state <> [] ->
  exists b0 rest,
    broken_queries (fst (query_breaker_node E t state)) = Some (b0 :: rest)
    /\ b0 <> []
    /\ snd (local_rag_node E t' (fst (query_breaker_node E t state)))
       = [EvLocalRagTool]
    /\ local_results (fst (local_rag_node E t' (fst (query_breaker_node E t state))))
       = Some
           match local_rag_search E t'
                   (mkRagArgs b0
                      (if (default 5 (rag_top_k state) =? 0)%Z then 5%Z
                       else default 5%Z (rag_top_k state))
                      (topic state) (difficulty state) (subject state)) with
           | ToolRaises => []
           | ToolOutput results => hits_to_docs (default [] results)
           end.
Proof.
  intros Hq.
  destruct (query_breaker_shape E t state) as (subs & -> & Hne & Htrim & Hfull).
  destruct Hfull as [Hfull|Hfull]; [congruence|].
  destruct subs as [|b0 rest]; [congruence|].
  exists b0, rest. split; [reflexivity|].
  apply List.Forall_cons_iff in Htrim. destruct Htrim as [Hb0 _].
  apply List.Forall_cons_iff in Hfull. destruct Hfull as [Hb0' _].
  split; [exact Hb0'|].
  unfold local_rag_node. cbn [broken_queries set_broken_queries from_option].
  change (id (b0 :: rest)) with (b0 :: rest). cbv iota.
  unfold trimmed in Hb0. rewrite Hb0.
  apply nonempty_true in Hb0'. rewrite Hb0'. cbn [negb].
  cbv zeta.
  change (topic (set_broken_queries (b0 :: rest) state)) with (topic state).
  change (difficulty (set_broken_queries (b0 :: rest) state)) with (difficulty state).
  change (subject (set_broken_queries (b0 :: rest) state)) with (subject state).
  change (rag_top_k (set_broken_queries (b0 :: rest) state)) with (rag_top_k state).
  destruct (local_rag_search E t' _) as [|results]; [split; reflexivity|].
  destruct (hits_to_docs (default [] results)); split; reflexivity.
Qed.

Lemma retrieval_searches_first_subquery_witness :
  exists b0 rest,
    broken_queries (fst (query_breaker_node (Ref.ext (fun _ => LlmRaises)) 2
                           (initial_state (lit "Solve x^2 = 16 and find x + 1"))))
    = Some (b0 :: rest)
    /\ b0 <> []
    /\ snd (local_rag_node (Ref.ext (fun _ => LlmRaises)) 3
              (fst (query_breaker_node (Ref.ext (fun _ => LlmRaises)) 2
                      (initial_state (lit "Solve x^2 = 16 and find x + 1")))))
       = [EvLocalRagTool]
    /\ local_results
         (fst (local_rag_node (Ref.ext (fun _ => LlmRaises)) 3
                 (fst (query_breaker_node (Ref.ext (fun _ => LlmRaises)) 2
                         (initial_state (lit "Solve x^2 = 16 and find x + 1"))))))
       = Some
           match local_rag_search (Ref.ext (fun _ => LlmRaises)) 3
                   (mkRagArgs b0
                      (if (default 5
                             (rag_top_k
                                (initial_state (lit "Solve x^2 = 16 and find x + 1")))
                           =? 0)%Z
                       then 5%Z
                       else default 5%Z
                              (rag_top_k
                                 (initial_state (lit "Solve x^2 = 16 and find x + 1"))))
                      (topic (initial_state (lit "Solve x^2 = 16 and find x + 1")))
                      (difficulty (initial_state (lit "Solve x^2 = 16 and find x + 1")))
                      (subject (initial_state (lit "Solve x^2 = 16 and find x + 1"))))
           with
           | ToolRaises => []
           | ToolOutput results => hits_to_docs (default [] results)
           end.
Proof.
  apply (retrieval_searches_first_subquery (Ref.ext (fun _ => LlmRaises)) 2 3
           (initial_state (lit "Solve x^2 = 16 and find x + 1"))).
  vm_compute; discriminate.
Defined.

(** ** Reranker: batched scoring *)

Lemma batch_go_concat {A} (bs : nat) (it : list A) :
  forall need batch, concat (batch_go bs need batch it) = rev batch ++ it.
Proof.
  induction it as [|x it IH]; intros need batch.
  - destruct batch; cbn [batch_go concat]; rewrite ?app_nil_r; reflexivity.
  - cbn [batch_go].
    destruct need as [|[|k]]; cbn [concat]; rewrite IH; cbn [rev app];
      rewrite <- ?app_assoc; reflexivity.
Qed.

Lemma batch_go_sizes {A} (bs : nat) (it : list A) :
  1 <= bs ->
  forall need batch,
    1 <= need -> length batch + need = bs ->
    Forall (fun b => 1 <= length b <= bs) (batch_go bs need batch it).
Proof.
  intros Hbs. induction it as [|x it IH]; intros need batch Hneed Hsum.
  - destruct batch as [|y batch]; cbn [batch_go]; constructor; [|constructor].
    rewrite length_rev. simpl in *. lia.
  - cbn [batch_go]. destruct need as [|[|k]]; [lia| |].
    + constructor; [rewrite length_rev; simpl in *; lia|].
      apply IH; simpl; lia.
    + apply IH; simpl in *; lia.
Qed.

Lemma batch_go_full {A} (bs : nat) (it : list A) :
  forall need batch pre lst,
    1 <= need -> length batch + need = bs ->
    batch_go bs need batch it = pre ++ [lst] ->
    Forall (fun b => length b = bs) pre.
Proof.
  induction it as [|x it IH]; intros need batch pre lst Hneed Hsum Heq.
  - cbn [batch_go] in Heq.
    destruct batch; [destruct pre; discriminate|].
    destruct pre as [|p pre]; [constructor|].
    injection Heq as _ Heq. destruct pre; discriminate.
  - cbn [batch_go] in Heq. destruct need as [|[|k]]; [lia| |].
    + destruct pre as [|p pre]; [constructor|].
      cbn [app] in Heq. injection Heq as <- Heq. constructor.
      * rewrite ?length_app, ?length_rev. simpl in *. lia.
      * eapply (IH bs []); [lia|simpl; lia|exact Heq].
    + eapply (IH (S k) (x :: batch)); [lia|simpl in *; lia|exact Heq].
Qed.

(** X8: for a batch size of at least 1 the batches yielded are a
    partition of the input in order: concatenated they give the input
    back, none is empty or larger than the batch size, and every batch
    before the last has exactly the batch size. *)
Theorem batch_iter_partitions_input {A} (iterable : list A) (batch_size : Z) :
  (1 <= batch_size)%Z ->
  concat (_batch_iter iterable batch_size) = iterable
  /\ Forall (fun b => 1 <= length b /\ (Z.of_nat (length b) <= batch_size)%Z)
       (_batch_iter iterable batch_size)
  /\ forall pre lst,
       _batch_iter iterable batch_size = pre ++ [lst] ->
       Forall (fun b => Z.of_nat (length b) = batch_size) pre.
Proof.
  intros Hbs. unfold _batch_iter.
  destruct (Z.to_nat batch_size) as [|n] eqn:Hn; [lia|].
  split; [apply batch_go_concat|]. split.
  - eapply List.Forall_impl;
      [|apply (batch_go_sizes (S n) iterable); simpl; lia].
    cbv beta. intros b Hb. lia.
  - intros pre lst Heq.
    eapply List.Forall_impl;
      [|apply (batch_go_full (S n) iterable (S n) [] pre lst); simpl; try lia;
        exact Heq].
    cbv beta. intros b Hb. lia.
Qed.

Lemma batch_iter_partitions_input_witness :
  concat (_batch_iter [1; 2; 3; 4; 5; 6; 7] 3%Z) = [1; 2; 3; 4; 5; 6; 7]
  /\ Forall (fun b => 1 <= length b /\ (Z.of_nat (length b) <= 3)%Z)
       (_batch_iter [1; 2; 3; 4; 5; 6; 7] 3%Z)
  /\ forall pre lst,
       _batch_iter [1; 2; 3; 4; 5; 6; 7] 3%Z = pre ++ [lst] ->
       Forall (fun b => Z.of_nat (length b) = 3%Z) pre.
Proof.
  apply (batch_iter_partitions_input [1; 2; 3; 4; 5; 6; 7] 3%Z). lia.
Defined.

Lemma score_batches_pointwise (f : str * str -> Q)
    (predict : list (str * str) -> option (list Q)) :
  (forall batch, predict batch = Some (map f batch)) ->
  forall batches scores,
    score_batches predict batches scores
    = Some (scores ++ map f (concat batches)).
Proof.
  intros Hp. induction batches as [|b batches IH]; intros scores.
  - cbn. rewrite app_nil_r. reflexivity.
  - cbn [score_batches concat]. rewrite Hp, IH, map_app, app_assoc. reflexivity.
Qed.

(** X9: batching is transparent for a model that scores each pair on
    its own: whatever the batch size (at least 1), the scores returned are
    the model's scores of the pairs, one per pair and in their order. *)
Theorem batched_scoring_transparent (f : str * str -> Q)
    (predict : list (str * str) -> option (list Q))
    (pairs : list (str * str)) (batch_size : Z) :
  (1 <= batch_size)%Z ->
  (forall batch, predict batch = Some (map f batch)) ->
  _score_with_cross_encoder (Some predict) pairs batch_size
  = Some (map f pairs).
Proof.
  intros Hbs Hp. unfold _score_with_cross_encoder.
  rewrite (score_batches_pointwise f predict Hp). cbn [app].
  unfold _batch_iter.
  destruct (Z.to_nat batch_size) as [|n] eqn:Hn; [lia|].
  rewrite batch_go_concat. reflexivity.
Qed.

Lemma batched_scoring_transparent_witness :
  _score_with_cross_encoder
    (Some (fun batch => Some (map (fun p => inject_Z (Z.of_nat (length (snd p)))) batch)))
    (_build_scoring_pairs (lit "q") [lit "a"; lit "bb"; lit "ccc"]) 2%Z
  = Some (map (fun p => inject_Z (Z.of_nat (length (snd p))))
            (_build_scoring_pairs (lit "q") [lit "a"; lit "bb"; lit "ccc"])).
Proof.
  apply (batched_scoring_transparent
           (fun p => inject_Z (Z.of_nat (length (snd p))))
           (fun batch => Some (map (fun p => inject_Z (Z.of_nat (length (snd p)))) batch))
           (_build_scoring_pairs (lit "q") [lit "a"; lit "bb"; lit "ccc"]) 2%Z).
  - lia.
  - intros batch. reflexivity.
Defined.

Lemma score_batches_length (predict : list (str * str) -> option (list Q)) :
  (forall batch r, predict batch = Some r -> length r = length batch) ->
  forall batches scores out,
    score_batches predict batches scores = Some out ->
    length out = length scores + length (concat batches).
Proof.
  intros Hp. induction batches as [|b batches IH]; intros scores out H.
  - cbn in H. injection H as <-. cbn. lia.
  - cbn [score_batches] in H. destruct (predict b) as [r|] eqn:Hr; [|discriminate].
    apply IH in H. rewrite H, length_app, (Hp b r Hr).
    cbn [concat]. rewrite length_app. lia.
Qed.

(** X10: when the model returns one score per pair of each batch, the
    scores collected over the batches are one per pair: the count of
    scores equals the count of candidates, so ranking pairs every
    candidate with a score. *)
Theorem batched_scoring_keeps_count
    (predict : list (str * str) -> option (list Q))
    (pairs : list (str * str)) (batch_size : Z) (scores : list Q) :
  (1 <= batch_size)%Z ->
  (forall batch r, predict batch = Some r -> length r = length batch) ->
  _score_with_cross_encoder (Some predict) pairs batch_size = Some scores ->
  length scores = length pairs.
Proof.
  intros Hbs Hp H. unfold _score_with_cross_encoder in H.
  apply (score_batches_length predict Hp) in H. rewrite H. cbn [length].
  unfold _batch_iter.
  destruct (Z.to_nat batch_size) as [|n] eqn:Hn; [lia|].
  rewrite batch_go_concat. reflexivity.
Qed.

Lemma batched_scoring_keeps_count_witness :
  length [1%Q; 1%Q; 1%Q]
  = length (_build_scoring_pairs (lit "q") [lit "a"; lit "bb"; lit "ccc"]).
Proof.
  apply (batched_scoring_keeps_count
           (fun batch => Some (map (fun _ => 1%Q) batch))
           (_build_scoring_pairs (lit "q") [lit "a"; lit "bb"; lit "ccc"])
           RERANK_BATCH_SIZE [1%Q; 1%Q; 1%Q]).
  - vm_compute; discriminate.
  - intros batch r [= <-]. apply length_map.
  - vm_compute; reflexivity.
Defined.

(** ** Reranker: bounds and fallbacks *)

Lemma keep_nonempty_length (cs : list candidate) :
  length (keep_nonempty cs) <= length cs.
Proof.
  unfold keep_nonempty. induction cs as [|c cs IH]; [reflexivity|].
  cbn [List.filter]. destruct (nonempty (fst c)); simpl; lia.
Qed.

Lemma web_fallback_docs_length (web_items : list WebItem) :
  length (web_fallback_docs web_items) <= RERANK_TOP_K.
Proof.
  unfold web_fallback_docs. rewrite length_map.
  etransitivity; [apply keep_nonempty_length|].
  rewrite length_map, length_take. lia.
Qed.

(** X11: on every path (empty query, empty pool, scorer failure, any
    number of scores returned) the reranker stores a list of at most
    [RERANK_TOP_K] = 8 documents. *)
Theorem reranked_results_at_most_top_k (E : Ext) (t : nat) (state : MathState) :
  exists docs,
    reranked_results (fst (hybrid_reranker_node E t state)) = Some docs
    /\ length docs <= RERANK_TOP_K.
Proof.
  eexists. split; [apply reranker_node_result|]. cbv zeta.
  destruct (negb (nonempty (stripped_query state))); [simpl; lia|].
  destruct (candidate_pool _ _ _) as [|c pool]; [simpl; lia|].
  destruct (cross_encoder E t _) as [scores|].
  - unfold rank_scored. rewrite length_map, length_take. lia.
  - destruct (negb (default false (needs_web_fallback state))).
    + rewrite length_take. lia.
    + apply web_fallback_docs_length.
Qed.

Lemma web_fallback_docs_unscored (web_items : list WebItem) (d : Document) :
  In d (web_fallback_docs web_items) ->
  rerank_score d = None /\ page_content d <> [].
Proof.
  unfold web_fallback_docs. intros Hd.
  apply List.in_map_iff in Hd. destruct Hd as (c & <- & Hc).
  unfold keep_nonempty in Hc. apply List.filter_In in Hc. destruct Hc as [Hc Hne].
  apply List.in_map_iff in Hc. destruct Hc as (w & <- & _).
  split; [reflexivity|]. apply nonempty_true. exact Hne.
Qed.

(** X12: when scoring raises, the reranker still answers.  With strong
    local results it stores the first 8 local documents as they are, and
    the web items of the pool are left out; with weak local results it
    stores the candidates built from the first 8 web items that have a
    text, none of them with a [rerank_score]. *)
Theorem scorer_failure_fallback (E : Ext) (t : nat) (state : MathState) :
  nonempty (stripped_query state) = true ->
  candidate_pool (default false (needs_web_fallback state))
    (default [] (local_results state)) (default [] (web_results state)) <> [] ->
  (forall pairs, cross_encoder E t pairs = None) ->
  hybrid_reranker_node E t state
  = (set_reranked_results
       (if default false (needs_web_fallback state)
        then web_fallback_docs (default [] (web_results state))
        else take RERANK_TOP_K (default [] (local_results state))) state,
     [EvCrossEncoder])
  /\ Forall (fun d => rerank_score d = None /\ page_content d <> [])
       (web_fallback_docs (default [] (web_results state))).
Proof.
  intros Hq Hpool Hfail. split.
  - unfold hybrid_reranker_node. rewrite Hq. cbn [negb]. cbv zeta.
    destruct (candidate_pool _ _ _) as [|c pool]; [congruence|].
    rewrite Hfail.
    destruct (default false (needs_web_fallback state)); reflexivity.
  - apply List.Forall_forall. intros d Hd.
    apply (web_fallback_docs_unscored _ d Hd).
Qed.

Lemma scorer_failure_fallback_witness :
  hybrid_reranker_node
    (mkExt Ref.json_loads [] (8 # 10) (fun _ _ => LlmRaises)
       (fun _ _ => ToolRaises) (fun _ _ => None) (fun _ _ => None)
       (fun _ _ _ => None) (fun _ _ _ => LlmRaises))
    5
    (set_web_results
       [mkWebItem (Some (lit "tavily")) (Some (lit "Roots")) None
          (Some (lit "sqrt(16) = 4"))]
       (set_needs_web_fallback true (initial_state (lit "Solve x^2 = 16"))))
  = (set_reranked_results
       (if default false
             (needs_web_fallback
                (set_web_results
                   [mkWebItem (Some (lit "tavily")) (Some (lit "Roots")) None
                      (Some (lit "sqrt(16) = 4"))]
                   (set_needs_web_fallback true
                      (initial_state (lit "Solve x^2 = 16")))))
        then web_fallback_docs
               (default []
                  (web_results
                     (set_web_results
                        [mkWebItem (Some (lit "tavily")) (Some (lit "Roots")) None
                           (Some (lit "sqrt(16) = 4"))]
                        (set_needs_web_fallback true
                           (initial_state (lit "Solve x^2 = 16"))))))
        else take RERANK_TOP_K
               (default []
                  (local_results
                     (set_web_results
                        [mkWebItem (Some (lit "tavily")) (Some (lit "Roots")) None
                           (Some (lit "sqrt(16) = 4"))]
                        (set_needs_web_fallback true
                           (initial_state (lit "Solve x^2 = 16")))))))
       (set_web_results
          [mkWebItem (Some (lit "tavily")) (Some (lit "Roots")) None
             (Some (lit "sqrt(16) = 4"))]
          (set_needs_web_fallback true (initial_state (lit "Solve x^2 = 16")))),
     [EvCrossEncoder])
  /\ Forall (fun d => rerank_score d = None /\ page_content d <> [])
       (web_fallback_docs
          (default []
             (web_results
                (set_web_results
                   [mkWebItem (Some (lit "tavily")) (Some (lit "Roots")) None
                      (Some (lit "sqrt(16) = 4"))]
                   (set_needs_web_fallback true
                      (initial_state (lit "Solve x^2 = 16"))))))).
Proof.
  apply (scorer_failure_fallback
    (mkExt Ref.json_loads [] (8 # 10) (fun _ _ => LlmRaises)
       (fun _ _ => ToolRaises) (fun _ _ => None) (fun _ _ => None)
       (fun _ _ _ => None) (fun _ _ _ => LlmRaises))
    5
    (set_web_results
       [mkWebItem (Some (lit "tavily")) (Some (lit "Roots")) None
          (Some (lit "sqrt(16) = 4"))]
       (set_needs_web_fallback true (initial_state (lit "Solve x^2 = 16"))))).
  - vm_compute; reflexivity.
  - vm_compute; discriminate.
  - intros pairs. reflexivity.
Defined.

(** With weak local results every ranked document is built from a web
    item. *)
Lemma reranked_from_web (E : Ext) (t : nat) (state : MathState) (d : Document) :
  default false (needs_web_fallback state) = true ->
  In d (default [] (reranked_results (fst (hybrid_reranker_node E t state)))) ->
  exists w, In w (default [] (web_results state))
            /\ page_content d = fst (_make_candidate_from_web w)
            /\ doc_origin d = Some (MStr (default (lit "web") (w_source w))).
Proof.
  intros Hneeds. rewrite reranker_node_result. cbv zeta.
  rewrite Hneeds. cbn [from_option id negb].
  destruct (negb (nonempty (stripped_query state))); [intros []|].
  unfold candidate_pool. cbn [negb app].
  destruct (keep_nonempty _) as [|c pool] eqn:Hpool; [intros []|].
  rewrite <- Hpool.
  destruct (cross_encoder E t _) as [scores|].
  - apply rank_scored_from_web.
  - apply web_fallback_from_web.
Qed.

Lemma mcp_search_web_results (E : Ext) (t : nat) (state : MathState) :
  exists items,
    fst (mcp_search_node E t state)
    = set_web_results (map tavily_to_web items) state
    /\ (items = []
        \/ bridge_results E t (stripped_query state) = Some items).
Proof.
  unfold mcp_search_node.
  destruct (negb (nonempty (stripped_query state))).
  - exists []. split; [reflexivity|left; reflexivity].
  - destruct (bridge_results E t (stripped_query state)) as [items|].
    + exists items. split; [reflexivity|right; reflexivity].
    + exists []. split; [reflexivity|left; reflexivity].
Qed.

(** X13: a web search replaces the stored web results by the items of
    this search, each tagged [tavily]; and with weak local results every
    document ranked after it is built from one of these items and has the
    origin [tavily], whatever the local results and the earlier web
    results were. *)
Theorem web_search_then_rerank_is_tavily_only (E : Ext) (t t' : nat)
    (state : MathState) :
  default false (needs_web_fallback state) = true ->
  exists items,
    web_results (fst (mcp_search_node E t state)) = Some (map tavily_to_web items)
    /\ (items = [] \/ bridge_results E t (stripped_query state) = Some items)
    /\ Forall (fun w => w_source w = Some (lit "tavily")) (map tavily_to_web items)
    /\ forall d,
         In d (default []
                 (reranked_results
                    (fst (hybrid_reranker_node E t'
                            (fst (mcp_search_node E t state))))))  ->
         doc_origin d = Some (MStr (lit "tavily"))
         /\ exists item, In item items
              /\ page_content d
                 = fst (_make_candidate_from_web (tavily_to_web item)).
Proof.
  intros Hneeds.
  destruct (mcp_search_web_results E t state) as (items & Hst & Hitems).
  exists items. rewrite Hst. split; [reflexivity|]. split; [exact Hitems|].
  split.
  { apply List.Forall_forall. intros w Hw.
    apply List.in_map_iff in Hw. destruct Hw as (item & <- & _). reflexivity. }
  intros d Hd.
  apply reranked_from_web in Hd; [|exact Hneeds].
  destruct Hd as (w & Hw & Hpc & Ho).
  cbn [web_results set_web_results from_option id] in Hw.
  apply List.in_map_iff in Hw. destruct Hw as (item & <- & Hitem).
  split; [exact Ho|]. exists item. split; assumption.
Qed.

Lemma web_search_then_rerank_is_tavily_only_witness :
  exists items,
    web_results
      (fst (mcp_search_node (Ref.ext (fun _ => LlmRaises)) 4
              (set_needs_web_fallback true (initial_state (lit "Solve x^2 = 16")))))
    = Some (map tavily_to_web items)
    /\ (items = []
        \/ bridge_results (Ref.ext (fun _ => LlmRaises)) 4
             (stripped_query
                (set_needs_web_fallback true
                   (initial_state (lit "Solve x^2 = 16"))))
           = Some items)
    /\ Forall (fun w => w_source w = Some (lit "tavily")) (map tavily_to_web items)
    /\ forall d,
         In d (default []
                 (reranked_results
                    (fst (hybrid_reranker_node (Ref.ext (fun _ => LlmRaises)) 5
                            (fst (mcp_search_node (Ref.ext (fun _ => LlmRaises)) 4
                                    (set_needs_web_fallback true
                                       (initial_state (lit "Solve x^2 = 16")))))))))  ->
         doc_origin d = Some (MStr (lit "tavily"))
         /\ exists item, In item items
              /\ page_content d
                 = fst (_make_candidate_from_web (tavily_to_web item)).
Proof.
  apply (web_search_then_rerank_is_tavily_only (Ref.ext (fun _ => LlmRaises)) 4 5
           (set_needs_web_fallback true (initial_state (lit "Solve x^2 = 16")))).
  reflexivity.
Defined.

(** ** Verifier and retry edge *)

(** X14: the verifier counts exactly the rejections the retry edge
    reads: [loop_count] is incremented when the stored verdict reads as
    incorrect and is left as it was otherwise; and the edge goes back to
    the web search exactly when the verdict reads as incorrect and no
    rejection had been counted before. *)
Theorem verifier_counts_what_the_edge_reads (E : Ext) (t : nat)
    (state : MathState) :
  (parsed_is_correct E (verification (fst (verifier_node E t state))) = false ->
   loop_count (fst (verifier_node E t state)) = Some (lc state + 1)%Z)
  /\ (parsed_is_correct E (verification (fst (verifier_node E t state))) = true ->
      loop_count (fst (verifier_node E t state)) = loop_count state)
  /\ (verification_loop E (fst (verifier_node E t state)) = N_mcp_search
      <-> parsed_is_correct E (verification (fst (verifier_node E t state))) = false
          /\ (lc state < 1)%Z).
Proof.
  assert (H : (parsed_is_correct E (verification (fst (verifier_node E t state))) = false
               /\ loop_count (fst (verifier_node E t state)) = Some (lc state + 1)%Z)
              \/ (parsed_is_correct E (verification (fst (verifier_node E t state))) = true
                  /\ loop_count (fst (verifier_node E t state)) = loop_count state)).
  { unfold verifier_node. cbv zeta.
    set (v := match verifier_try E t _ _ with inr c => c | inl _ => safe_default_text end).
    unfold parsed_is_correct.
    destruct (json_loads E v) as [[| | | | |d]|] eqn:Hv;
      cbn [fst verification set_verification set_loop_count loop_count];
      rewrite ?Hv; try (right; split; reflexivity).
    - unfold marked_incorrect.
      destruct (truthy (default (JBool true) (dict_get (lit "is_correct") d))) eqn:Ht;
        cbn [negb fst verification set_verification set_loop_count loop_count];
        rewrite Hv, Ht; [right|left]; split; reflexivity.
    - change (marked_incorrect []) with false. cbv iota.
      cbn [fst verification set_verification]. rewrite Hv.
      right; split; reflexivity. }
  split; [|split].
  - intros Hp. destruct H as [[_ H]|[H _]]; [exact H|congruence].
  - intros Hp. destruct H as [[H _]|[_ H]]; [congruence|exact H].
  - unfold verification_loop, MAX_VERIFICATION_LOOPS.
    destruct H as [[Hp Hl]|[Hp Hl]]; rewrite Hp, Hl; cbn [from_option id].
    + destruct (2 <=? lc state + 1)%Z eqn:Hc.
      * apply Z.leb_le in Hc. split; [discriminate|]. intros [_ Hlt]. lia.
      * apply Z.leb_gt in Hc. split; [|reflexivity]. intros _. split; [reflexivity|lia].
    + destruct (2 <=? _)%Z; split; try discriminate; intros [Hf _]; discriminate.
Qed.

(** X15: the retry edge fails open.  It goes back to the web search
    only when fewer than [MAX_VERIFICATION_LOOPS] rejections are counted
    and the stored verification is a dict, or a JSON text of a dict, whose
    [is_correct] entry is present and falsy; a missing, unreadable or
    non-dict verification leads to the output node. *)
Theorem retry_edge_fails_open (E : Ext) (state : MathState) :
  (verification_loop E state = N_mcp_search
   <-> (lc state < MAX_VERIFICATION_LOOPS)%Z
       /\ exists d v,
            (verification state = Some (VerDict d)
             \/ exists s, verification state = Some (VerStr s)
                          /\ json_loads E s = Some (JObj d))
            /\ dict_get (lit "is_correct") d = Some v /\ truthy v = false)
  /\ (verification_loop E state = N_mcp_search
      \/ verification_loop E state = N_output_guardrail).
Proof.
  assert (Hd : forall d,
    truthy (default (JBool true) (dict_get (lit "is_correct") d)) = false
    <-> exists v, dict_get (lit "is_correct") d = Some v /\ truthy v = false).
  { intros d. destruct (dict_get (lit "is_correct") d) as [v|]; cbn [from_option id].
    - split; [intros H; exists v; split; [reflexivity|exact H]|].
      intros (v' & [= <-] & H). exact H.
    - split; [discriminate|]. intros (v' & Hv & _). discriminate. }
  assert (Hp : parsed_is_correct E (verification state) = false
    <-> exists d v,
          (verification state = Some (VerDict d)
           \/ exists s, verification state = Some (VerStr s)
                        /\ json_loads E s = Some (JObj d))
          /\ dict_get (lit "is_correct") d = Some v /\ truthy v = false).
  { unfold parsed_is_correct.
    destruct (verification state) as [[s|d|]|].
    - destruct (json_loads E s) as [[| | | | |d]|] eqn:Hs;
        try (split; [discriminate|];
             intros (d' & v & [H|(s' & [= <-] & H)] & _); congruence).
      rewrite Hd. split.
      + intros (v & H1 & H2). exists d, v. split; [right; exists s; tauto|tauto].
      + intros (d' & v & [H|(s' & [= <-] & H)] & H1 & H2); [discriminate|].
        rewrite Hs in H. injection H as <-. exists v. tauto.
    - rewrite Hd. split.
      + intros (v & H1 & H2). exists d, v. split; [left; reflexivity|tauto].
      + intros (d' & v & [[= <-]|(s' & H & _)] & H1 & H2); [|discriminate].
        exists v. tauto.
    - split; [discriminate|].
      intros (d' & v & [H|(s' & H & _)] & _); discriminate.
    - split; [discriminate|].
      intros (d' & v & [H|(s' & H & _)] & _); discriminate. }
  rewrite <- Hp. unfold verification_loop. fold (lc state).
  destruct (MAX_VERIFICATION_LOOPS <=? lc state)%Z eqn:Hc.
  - apply Z.leb_le in Hc. split; [|right; reflexivity].
    split; [discriminate|]. intros [Hlt _]. lia.
  - apply Z.leb_gt in Hc.
    destruct (parsed_is_correct E (verification state)).
    + split; [|right; reflexivity]. split; [discriminate|]. intros [_ H]. discriminate.
    + split; [|left; reflexivity]. split; [intros _; split; [exact Hc|reflexivity]|reflexivity].
Qed.

(** ** Sessions: what every node keeps, the paths, the calls *)

Lemma output_node_writes (E : Ext) (state state' : MathState) :
  output_node E state = Some state' ->
  exists final, state' = set_final_output final state.
Proof.
  unfold output_node. cbv zeta.
  destruct (_parse_verifier_json E (verification state)) as [[| | | | |d]|];
    try (destruct (truthy _); [discriminate|]);
    try (intros [= <-]; eexists; reflexivity).
  destruct d as [|kv d]; [intros [= <-]; eexists; reflexivity|].
  destruct (dict_get (lit "improved_answer") (kv :: d)) as [[| | |a| |]|];
    try (intros [= <-]; eexists; reflexivity).
  destruct (nonempty (strip a)); intros [= <-]; eexists; reflexivity.
Qed.

(** No node changes the query, and a node execution makes at most the
    one external call of its node. *)
Lemma exec_node_keeps (E : Ext) (t : nat) (n : node)
    (state state' : MathState) (evs : list event) :
  exec_node E t n state = Some (state', evs) ->
  query state' = query state /\ well_called n evs = true.
Proof.
  destruct n; cbn [exec_node].
  - intros [= <- <-]. split; [|reflexivity].
    unfold input_guardrail_node, setdefault.
    destruct (is_safe state);
      destruct (negb (nonempty (stripped_query state))); try reflexivity;
      destruct (any_in harmful_keywords _); try reflexivity;
      destruct (negb (any_in math_keywords _)); reflexivity.
  - intros [= <- <-]. split; [|reflexivity].
    pose proof (router_defaults_frame state) as (Hq & _).
    unfold router_node. destruct (negb _); [exact Hq|].
    change (query (set_is_math true (router_defaults state)))
      with (query (router_defaults state)). exact Hq.
  - intros [= H]. unfold query_breaker_node in H.
    destruct (1 <? _).
    + injection H as <- <-. split; reflexivity.
    + unfold _llm_split in H.
      destruct (negb (nonempty (GROQ_API_KEY E))).
      { injection H as <- <-. split; reflexivity. }
      destruct (llm_split_call E t _) as [| |content];
        try (injection H as <- <-; split; reflexivity).
      destruct (json_loads E content) as [[| | | |subqs|]|];
        try (injection H as <- <-; split; reflexivity).
      destruct (forallb is_jstr subqs);
        injection H as <- <-; split; reflexivity.
  - intros [= H]. unfold local_rag_node in H.
    destruct (negb (nonempty _)); [injection H as <- <-; split; reflexivity|].
    destruct (local_rag_search E t _) as [|results];
      [injection H as <- <-; split; reflexivity|].
    destruct (hits_to_docs (default [] results));
      injection H as <- <-; split; reflexivity.
  - intros [= H]. unfold mcp_search_node in H.
    destruct (negb (nonempty _)); injection H as <- <-; split; reflexivity.
  - intros [= H]. unfold hybrid_reranker_node in H.
    destruct (negb (nonempty _)); [injection H as <- <-; split; reflexivity|].
    destruct (candidate_pool _ _ _); [injection H as <- <-; split; reflexivity|].
    destruct (cross_encoder E t _); [injection H as <- <-; split; reflexivity|].
    destruct (negb _); injection H as <- <-; split; reflexivity.
  - intros [= <- <-]. split; reflexivity.
  - intros [= H]. unfold verifier_node in H. cbv zeta in H.
    destruct (json_loads E _) as [[| | | | |d]|];
      try (injection H as <- <-; split; reflexivity).
    destruct (marked_incorrect d); injection H as <- <-; split; reflexivity.
  - destruct (output_node E state) as [st|] eqn:Ho; [|discriminate].
    intros [= <- <-]. destruct (output_node_writes E state st Ho) as [final ->].
    split; reflexivity.
  - intros [= H]. unfold feedback_node in H.
    destruct (negb (nonempty _)); injection H as <- <-; split; reflexivity.
Qed.

Lemma run_from_keeps (E : Ext) :
  forall (fuel t : nat) (n : node) (state : MathState),
    Forall (fun s => query (step_state s) = query state
                     /\ well_called (step_node s) (step_events s) = true)
      (fst (run_from E fuel t n state)).
Proof.
  induction fuel as [|fuel IH]; intros t n state; [constructor|].
  rewrite run_from_unfold.
  destruct (exec_node E t n state) as [[st' evs]|] eqn:Hexec; [|constructor].
  destruct (exec_node_keeps E t n state st' evs Hexec) as [Hq Hc].
  destruct (next_node E n st') as [n'|].
  - specialize (IH (S t) n' st').
    destruct (run_from E fuel (S t) n' st') as [steps st]. cbn [fst] in *.
    constructor; [split; assumption|].
    eapply List.Forall_impl; [|exact IH]. cbv beta. intros s [H1 H2].
    split; [congruence|exact H2].
  - constructor; [split; assumption|constructor].
Qed.

(** X16: no node changes the query: in every state of a session,
    however it ends, the [query] entry is the text the session was
    started with. *)
Theorem query_is_never_rewritten (E : Ext) (q : str) :
  Forall (fun s => query (step_state s) = Some q) (fst (invoke E q)).
Proof.
  eapply List.Forall_impl; [|apply run_from_keeps]. cbv beta.
  intros s [H _]. exact H.
Qed.

Lemma loop_edge (E : Ext) (n n' : node) (state' : MathState) :
  in_loop n = true -> n <> N_verifier ->
  next_node E n state' = Some n' ->
  forall k l, loop_path n' k l -> loop_path n k (n :: l).
Proof.
  intros Hin Hnv Hnext k l Hl.
  destruct n; try discriminate Hin; try congruence; cbn [next_node] in Hnext;
    injection Hnext as <-; try (constructor; exact Hl).
  unfold rag_or_mcp in Hl.
  destruct (default false (needs_web_fallback state'));
    [apply lp_rag_weak|apply lp_rag_strong]; exact Hl.
Qed.

Lemma closing_steps_nodes (state : MathState) (final : str) :
  map step_node (closing_steps state final) = [N_output_guardrail; N_feedback].
Proof. reflexivity. Qed.

(** From a node of the loop the run ends, along a path of the graph. *)
Lemma run_from_loop_path (E : Ext) :
  json_object_texts E ->
  forall (fuel t : nat) (n : node) (state : MathState),
    in_loop n = true -> (0 <= lc state < 2)%Z ->
    rank n (budget state) <= fuel ->
    exists steps,
      run_from E fuel t n state = (steps, Ended)
      /\ loop_path n (budget state) (map step_node steps).
Proof.
  intros Hj. induction fuel as [|fuel IH]; intros t n state Hin Hlc Hrank.
  { pose proof (budget_bounds state Hlc) as Hb.
    destruct n; try discriminate Hin; simpl in Hrank; lia. }
  pose proof (budget_bounds state Hlc) as Hb.
  destruct (decide (n = N_verifier)) as [->|Hnv].
  - rewrite run_from_unfold. cbn [exec_node next_node].
    pose proof (verifier_node_effect E t state) as (Hok & Hlc' & Hinc).
    destruct (verifier_node E t state) as [st' evs] eqn:Hn. cbn [fst] in *.
    destruct (verification_loop_cases E st')
      as [(Hloop & Hlt & Hpar) | (Hout & Hwhy)].
    + rewrite Hloop. specialize (Hinc Hpar).
      assert (Hb' : budget state = S (budget st'))
        by (unfold budget, MAX_VERIFICATION_LOOPS; lia).
      assert (Hb'' : 1 <= budget st')
        by (unfold budget, MAX_VERIFICATION_LOOPS; lia).
      destruct (IH (S t) N_mcp_search st') as (steps & Hrun & Hpath);
        [reflexivity|lia|rewrite Hb' in Hrank; simpl in *; lia|].
      rewrite Hrun. eexists. split; [reflexivity|].
      cbn [map step_node]. rewrite Hb'.
      destruct (budget st') as [|k]; [lia|].
      apply lp_verifier_retry. exact Hpath.
    + rewrite Hout.
      destruct fuel as [|[|fuel]]; [simpl in Hrank; lia|simpl in Hrank; lia|].
      destruct (run_from_output E fuel (S t) st' Hj Hok) as [final Hrun].
      rewrite Hrun. eexists. split; [reflexivity|].
      cbn [map step_node]. rewrite closing_steps_nodes.
      destruct (budget state) as [|k]; [lia|]. apply lp_verifier_end.
  - destruct (loop_node_step E t n state Hin Hnv)
      as (st' & evs & n' & Hexec & Hnext & Hlc' & Hin' & Hlt).
    rewrite run_from_unfold, Hexec, Hnext.
    assert (Hb' : budget st' = budget state)
      by (unfold budget; rewrite Hlc'; reflexivity).
    destruct (IH (S t) n' st') as (steps & Hrun & Hpath);
      [exact Hin'|rewrite Hlc'; exact Hlc
      |rewrite Hb'; specialize (Hlt (budget state)); lia|].
    rewrite Hrun. eexists. split; [reflexivity|].
    cbn [map step_node]. rewrite <- Hb'.
    eapply loop_edge; eassumption.
Qed.

Lemma loop_path_two (l : list node) :
  loop_path N_query_breaker 2 l ->
  exists web retry : bool,
    l = first_pass web ++ (if retry then retry_pass else [])
        ++ [N_output_guardrail; N_feedback].
Proof.
  intros H.
  repeat match goal with
         | H : loop_path _ _ _ |- _ => inversion H; subst; clear H
         end;
    first [ exists false, false; reflexivity
          | exists false, true; reflexivity
          | exists true, false; reflexivity
          | exists true, true; reflexivity ].
Qed.

Lemma invoke_paths (E : Ext) (q : str) :
  json_object_texts E ->
  snd (invoke E q) = Ended
  /\ ((classify q <> None
       /\ map step_node (fst (invoke E q)) = [N_input_guardrail])
      \/ (classify q = None
          /\ exists web retry,
               map step_node (fst (invoke E q)) = accepted_path web retry)).
Proof.
  intros Hj. destruct (classify q) as [r|] eqn:Hc.
  - rewrite (invoke_rejected E q r Hc).
    split; [reflexivity|]. left. split; [discriminate|reflexivity].
  - destruct (invoke_accepted E q Hc) as (st1 & st2 & Hl1 & Hl2 & Hrun).
    destruct (run_from_loop_path E Hj 23 2 N_query_breaker st2)
      as (steps & Hsteps & Hpath);
      [reflexivity|lia
      |unfold budget, MAX_VERIFICATION_LOOPS; rewrite Hl2; simpl; lia|].
    rewrite Hsteps in Hrun. rewrite Hrun. split; [reflexivity|].
    right. split; [reflexivity|].
    assert (Hb : budget st2 = 2)
      by (unfold budget, MAX_VERIFICATION_LOOPS; rewrite Hl2; reflexivity).
    rewrite Hb in Hpath.
    destruct (loop_path_two _ Hpath) as (web & retry & Heq).
    exists web, retry. cbn [fst map step_node]. rewrite Heq. reflexivity.
Qed.

(** X17: a session follows one of five node sequences.  A rejected
    query runs the guardrail alone; an accepted one runs guardrail,
    router, breaker and local retrieval, the web search only when local
    retrieval was weak, then reranker, reasoning and verifier, at most one
    retry pass (web search, reranker, reasoning, verifier), and the output
    and feedback nodes.  So a session executes at most 14 nodes, below the
    engine's limit of 25, and ends normally. *)
Theorem session_follows_one_of_five_paths (E : Ext) (q : str) :
  json_object_texts E ->
  snd (invoke E q) = Ended
  /\ ((classify q <> None
       /\ map step_node (fst (invoke E q)) = [N_input_guardrail])
      \/ (classify q = None
          /\ exists web retry : bool,
               map step_node (fst (invoke E q)) = accepted_path web retry))
  /\ length (fst (invoke E q)) <= 14
  /\ 14 < recursion_limit.
Proof.
  intros Hj. destruct (invoke_paths E q Hj) as [Hend Hpaths].
  split; [exact Hend|]. split; [exact Hpaths|].
  split; [|unfold recursion_limit; lia].
  rewrite <- (length_map step_node).
  destruct Hpaths as [[_ ->]|(_ & web & retry & ->)]; [simpl; lia|].
  destruct web, retry; simpl; lia.
Qed.

Lemma session_follows_one_of_five_paths_witness :
  snd (invoke (Ref.ext (fun _ => LlmRaises)) (lit "Solve x^2 = 16")) = Ended
  /\ ((classify (lit "Solve x^2 = 16") <> None
       /\ map step_node
            (fst (invoke (Ref.ext (fun _ => LlmRaises)) (lit "Solve x^2 = 16")))
          = [N_input_guardrail])
      \/ (classify (lit "Solve x^2 = 16") = None
          /\ exists web retry : bool,
               map step_node
                 (fst (invoke (Ref.ext (fun _ => LlmRaises)) (lit "Solve x^2 = 16")))
               = accepted_path web retry))
  /\ length (fst (invoke (Ref.ext (fun _ => LlmRaises)) (lit "Solve x^2 = 16")))
     <= 14
  /\ 14 < recursion_limit.
Proof.
  apply (session_follows_one_of_five_paths
           (Ref.ext (fun _ => LlmRaises)) (lit "Solve x^2 = 16")).
  apply ref_json_object_texts.
Defined.

Lemma count_node_map (n : node) (steps : list step) :
  count_node n steps
  = length (List.filter (fun m => bool_decide (m = n)) (map step_node steps)).
Proof.
  unfold count_node. induction steps as [|s steps IH]; [reflexivity|].
  cbn [map List.filter]. destruct (bool_decide (step_node s = n));
    cbn [length]; rewrite IH; reflexivity.
Qed.

Lemma node_call_event_node (n : node) (e : event) :
  node_call n = Some e -> n = event_node e.
Proof. destruct n; intros [= <-]; reflexivity. Qed.

Lemma count_event_app (e : event) (l1 l2 : list event) :
  count_event e (l1 ++ l2) = count_event e l1 + count_event e l2.
Proof. unfold count_event. rewrite List.filter_app, length_app. reflexivity. Qed.

(** Calls of a kind are made by executions of their node, one each at
    most. *)
Lemma count_event_le_count_node (e : event) (steps : list step) :
  Forall (fun s => well_called (step_node s) (step_events s) = true) steps ->
  count_event e (run_events steps) <= count_node (event_node e) steps.
Proof.
  induction 1 as [|s steps Hs _ IH]; [reflexivity|].
  unfold run_events in *. cbn [map concat].
  rewrite count_event_app, count_node_cons.
  assert (Hhere : count_event e (step_events s)
                  <= if bool_decide (step_node s = event_node e) then 1 else 0).
  { destruct (step_events s) as [|e' [|e'' evs]]; [cbn; lia| |discriminate Hs].
    cbn [well_called] in Hs. apply bool_decide_eq_true_1 in Hs.
    apply node_call_event_node in Hs.
    unfold count_event. cbn [List.filter].
    destruct (bool_decide (e' = e)) eqn:He; [|cbn; lia].
    apply bool_decide_eq_true_1 in He. subst e'.
    rewrite bool_decide_eq_true_2 by exact Hs. reflexivity. }
  lia.
Qed.

Lemma run_events_length (steps : list step) :
  Forall (fun s => well_called (step_node s) (step_events s) = true) steps ->
  length (run_events steps)
  <= length (List.filter calls_out (map step_node steps)).
Proof.
  induction 1 as [|s steps Hs _ IH]; [reflexivity|].
  unfold run_events in *. cbn [map concat List.filter]. rewrite length_app.
  assert (Hhere : length (step_events s)
                  <= if calls_out (step_node s) then 1 else 0).
  { destruct (step_events s) as [|e' [|e'' evs]]; [cbn; lia| |discriminate Hs].
    cbn [well_called] in Hs. apply bool_decide_eq_true_1 in Hs.
    unfold calls_out. rewrite Hs. reflexivity. }
  destruct (calls_out (step_node s)); cbn [length]; lia.
Qed.

(** X18: the external calls of a session are bounded: at most one
    LLM call to split the query, one call of the local index tool and one
    feedback write; at most two web searches, two scorer calls, two
    reasoning-LLM calls and two verifier-LLM calls; at most 11 calls in
    all. *)
Theorem session_call_budget (E : Ext) (q : str) :
  json_object_texts E ->
  (forall e, count_event e (run_events (fst (invoke E q))) <= call_budget e)
  /\ length (run_events (fst (invoke E q))) <= 11.
Proof.
  intros Hj. destruct (invoke_paths E q Hj) as [_ Hpaths].
  assert (Hcalls : Forall (fun s => well_called (step_node s) (step_events s) = true)
                     (fst (invoke E q))).
  { eapply List.Forall_impl; [|apply run_from_keeps]. cbv beta.
    intros s [_ H]. exact H. }
  split.
  - intros e. etransitivity; [apply count_event_le_count_node, Hcalls|].
    rewrite count_node_map.
    destruct Hpaths as [[_ ->]|(_ & web & retry & ->)];
      [destruct e; vm_compute; lia|].
    destruct e, web, retry; vm_compute; lia.
  - etransitivity; [apply run_events_length, Hcalls|].
    destruct Hpaths as [[_ ->]|(_ & web & retry & ->)]; [vm_compute; lia|].
    destruct web, retry; vm_compute; lia.
Qed.

Lemma session_call_budget_witness :
  (forall e,
     count_event e
       (run_events
          (fst (invoke (Ref.ext (fun _ => LlmRaises)) (lit "Solve x^2 = 16"))))
     <= call_budget e)
  /\ length
       (run_events
          (fst (invoke (Ref.ext (fun _ => LlmRaises)) (lit "Solve x^2 = 16"))))
     <= 11.
Proof.
  apply (session_call_budget (Ref.ext (fun _ => LlmRaises)) (lit "Solve x^2 = 16")).
  apply ref_json_object_texts.
Defined.

(** ** Output node *)

Lemma output_node_improved (E : Ext) (state : MathState)
    (d : list (str * json)) (a : str) :
  _parse_verifier_json E (verification state) = Some (JObj d) ->
  dict_get (lit "improved_answer") d = Some (JStr a) ->
  strip a <> [] ->
  output_node E state = Some (set_final_output (strip a) state).
Proof.
  intros Hp Hd Ha. unfold output_node. rewrite Hp.
  destruct d as [|kv d]; [discriminate Hd|].
  rewrite Hd. apply nonempty_true in Ha. rewrite Ha.
  cbv zeta beta. rewrite strip_idempotent. reflexivity.
Qed.


(** X19: a non-blank improved answer of the verifier replaces the
    reasoning text as the final output.  It is only trimmed: the removal
    of think segments and forbidden phrases is applied to the reasoning
    text, not to the improved answer. *)
Theorem improved_answer_replaces_reasoning (E : Ext) (state : MathState)
    (d : list (str * json)) (a : str) :
  _parse_verifier_json E (verification state) = Some (JObj d) ->
  dict_get (lit "improved_answer") d = Some (JStr a) ->
  strip a <> [] ->
  output_node E state = Some (set_final_output (strip a) state).
Proof. apply output_node_improved. Qed.

Lemma improved_answer_replaces_reasoning_witness :
  output_node (Ref.ext (fun _ => LlmRaises))
    (set_verification
       (VerStr (verdict_text (lit "true") (lit " <think>plan</think>x = 4 ")))
       (set_reasoning_output (lit "x = 5") (initial_state (lit "Solve x^2 = 16"))))
  = Some (set_final_output (strip (lit " <think>plan</think>x = 4 "))
            (set_verification
               (VerStr (verdict_text (lit "true") (lit " <think>plan</think>x = 4 ")))
               (set_reasoning_output (lit "x = 5")
                  (initial_state (lit "Solve x^2 = 16"))))).
Proof.
  apply (improved_answer_replaces_reasoning (Ref.ext (fun _ => LlmRaises))
           (set_verification
              (VerStr (verdict_text (lit "true") (lit " <think>plan</think>x = 4 ")))
              (set_reasoning_output (lit "x = 5")
                 (initial_state (lit "Solve x^2 = 16"))))
           [ (lit "is_correct", JBool true); (lit "issues", JArr []);
             (lit "improved_answer", JStr (lit " <think>plan</think>x = 4 ")) ]
           (lit " <think>plan</think>x = 4 ")).
  - vm_compute; reflexivity.
  - vm_compute; reflexivity.
  - vm_compute; discriminate.
Defined.



(** X21: after a verifier execution that fails (the call raises, or
    the answer is not bare JSON), the output node shows the retry message
    of the safe default and not the reasoning text, whatever that text
    is. *)
Theorem failed_verification_shows_retry_message (E : Ext) (t : nat)
    (state : MathState) :
  json_reads_default E ->
  parse_failure E
    (verifier_llm E t (stripped_query state)
       (strip (default [] (reasoning_output state)))) ->
  output_node E (fst (verifier_node E t state))
  = Some (set_final_output improved_answer_retry (fst (verifier_node E t state))).
Proof.
  intros Hrd Hpf.
  destruct (verifier_node_failure E t state Hrd Hpf) as [Hst _].
  assert (Hs : strip improved_answer_retry = improved_answer_retry)
    by (vm_compute; reflexivity).
  rewrite <- Hs at 1.
  apply (output_node_improved E _ safe_default improved_answer_retry).
  - rewrite Hst. exact Hrd.
  - vm_compute; reflexivity.
  - rewrite Hs. vm_compute; discriminate.
Qed.

Lemma failed_verification_shows_retry_message_witness :
  output_node (Ref.ext (fun _ => LlmStr (lit "Looks fine to me.")))
    (fst (verifier_node (Ref.ext (fun _ => LlmStr (lit "Looks fine to me."))) 7
            (set_reasoning_output (lit "x = 4 or x = -4")
               (initial_state (lit "Solve x^2 = 16")))))
  = Some (set_final_output improved_answer_retry
            (fst (verifier_node (Ref.ext (fun _ => LlmStr (lit "Looks fine to me."))) 7
                    (set_reasoning_output (lit "x = 4 or x = -4")
                       (initial_state (lit "Solve x^2 = 16")))))).
Proof.
  apply (failed_verification_shows_retry_message
           (Ref.ext (fun _ => LlmStr (lit "Looks fine to me."))) 7
           (set_reasoning_output (lit "x = 4 or x = -4")
              (initial_state (lit "Solve x^2 = 16")))).
  - apply ref_json_reads_default.
  - apply pf_no_brace. vm_compute; reflexivity.
Defined.

(** X22: the output node raises in exactly one situation: the stored
    verification is a JSON text of a truthy value that is not a dict (a
    non-empty list or string, a non-zero number, [true]), on which
    [.get] fails.  A missing, unreadable, falsy or dict verification
    never makes it raise. *)
Theorem output_node_raises_only_on_non_dict_json (E : Ext) (state : MathState) :
  output_node E state = None
  <-> exists s v,
        verification state = Some (VerStr s)
        /\ json_loads E s = Some v
        /\ truthy v = true
        /\ forall d, v <> JObj d.
Proof.
  split.
  - unfold output_node. cbv zeta.
    destruct (verification state) as [[s|d|]|] eqn:Hv; cbn [_parse_verifier_json].
    + destruct (json_loads E s) as [v|] eqn:Hl; [|discriminate].
      intros H. exists s, v. split; [reflexivity|]. split; [exact Hl|].
      destruct v as [| | | | |d]; try (destruct (truthy _) eqn:Ht;
        [split; [reflexivity|discriminate]|discriminate]).
      exfalso. destruct d as [|kv d]; [discriminate|].
      destruct (dict_get (lit "improved_answer") (kv :: d)) as [[| | |a| |]|];
        try discriminate.
      destruct (nonempty (strip a)); discriminate.
    + destruct d as [|kv d]; [discriminate|].
      destruct (dict_get (lit "improved_answer") (kv :: d)) as [[| | |a| |]|];
        try discriminate.
      destruct (nonempty (strip a)); discriminate.
    + discriminate.
    + discriminate.
  - intros (s & v & Hv & Hl & Ht & Hnd). unfold output_node. rewrite Hv.
    cbn [_parse_verifier_json]. rewrite Hl.
    destruct v as [| | | | |d]; try (rewrite Ht; reflexivity).
    exfalso. apply (Hnd d). reflexivity.
Qed.

(** ** The local index tool *)


(** X24: the answer reports the filters that were used.  With
    [fallback] false the results are those of the search with the
    requested filters, and they are empty only if no filter was requested;
    with [fallback] true some filter was requested, the filtered search
    found nothing, and the results are those of the search without
    filters. *)
Theorem reported_filters_are_the_ones_used (S : RagTool.Services)
    (args : RagArgs) (q : str) (k : Z) (uf : RagTool.UsedFilters)
    (results : list RawHit) :
  fst (RagTool.local_rag_search S args) = Some (RagTool.Found q k uf results) ->
  exists v,
    q = strip (ra_query args)
    /\ RagTool.embed S q = Some v
    /\ RagTool.requested uf
       = RagTool.field "topic" (ra_topic args)
         ++ RagTool.field "difficulty" (ra_difficulty args)
         ++ RagTool.field "subject" (ra_subject args)
    /\ if RagTool.fallback uf
       then RagTool.requested uf <> []
            /\ RagTool.search S v k (RagTool.requested uf) = Some []
            /\ RagTool.effective uf = []
            /\ RagTool.search S v k [] = Some results
       else RagTool.effective uf = RagTool.requested uf
            /\ RagTool.search S v k (RagTool.requested uf) = Some results
            /\ (results <> [] \/ RagTool.requested uf = []).
Proof.
  unfold RagTool.local_rag_search. cbv zeta.
  destruct (nonempty (strip (ra_query args))); cbn [negb]; [|discriminate].
  set (k' := if (20 <? _)%Z then 20%Z else _).
  set (mf := RagTool.field "topic" (ra_topic args) ++ _).
  destruct (RagTool.services_up S); cbn [negb]; [|discriminate].
  destruct (RagTool.embed S _) as [v|] eqn:He; [|discriminate].
  destruct (RagTool.search S v k' mf) as [res|] eqn:Hs1; [|discriminate].
  destruct (RagTool.is_nil res && negb (RagTool.is_nil mf)) eqn:Hfb.
  - destruct (RagTool.search S v k' []) as [res2|] eqn:Hs2; [|discriminate].
    cbn [fst]. intros [= <- <- <- <-]. exists v.
    split; [reflexivity|]. split; [exact He|]. split; [reflexivity|].
    cbn [RagTool.fallback RagTool.requested RagTool.effective].
    apply andb_true_iff in Hfb. destruct Hfb as [Hres Hmf].
    destruct res; [|discriminate]. destruct mf; [discriminate|].
    repeat split; [discriminate|exact Hs1|exact Hs2].
  - cbn [fst]. intros [= <- <- <- <-]. exists v.
    split; [reflexivity|]. split; [exact He|]. split; [reflexivity|].
    cbn [RagTool.fallback RagTool.requested RagTool.effective].
    split; [reflexivity|]. split; [exact Hs1|].
    apply andb_false_iff in Hfb. destruct Hfb as [Hres|Hmf].
    + left. destruct res; [discriminate|discriminate].
    + right. destruct mf; [reflexivity|discriminate].
Qed.

Lemma reported_filters_are_the_ones_used_witness :
  exists v,
    lit "Solve x^2 = 16" = strip (ra_query (mkRagArgs (lit " Solve x^2 = 16 ") 50
                                              (Some (lit "Algebra")) None None))
    /\ RagTool.embed
         (RagTool.mkServices true (fun _ => Some [1%Q])
            (fun _ _ f => match f with
                          | [] => Some [Ref.hit (9 # 10) "x^2 = 16" "x = 4"]
                          | _ => Some []
                          end))
         (lit "Solve x^2 = 16") = Some v
    /\ RagTool.requested
         (RagTool.mkUsedFilters [("topic"%string, lit "Algebra")] [] true)
       = RagTool.field "topic"
           (ra_topic (mkRagArgs (lit " Solve x^2 = 16 ") 50
                        (Some (lit "Algebra")) None None))
         ++ RagTool.field "difficulty"
              (ra_difficulty (mkRagArgs (lit " Solve x^2 = 16 ") 50
                                (Some (lit "Algebra")) None None))
         ++ RagTool.field "subject"
              (ra_subject (mkRagArgs (lit " Solve x^2 = 16 ") 50
                             (Some (lit "Algebra")) None None))
    /\ if RagTool.fallback
            (RagTool.mkUsedFilters [("topic"%string, lit "Algebra")] [] true)
       then RagTool.requested
              (RagTool.mkUsedFilters [("topic"%string, lit "Algebra")] [] true)
            <> []
            /\ RagTool.search
                 (RagTool.mkServices true (fun _ => Some [1%Q])
                    (fun _ _ f => match f with
                                  | [] => Some [Ref.hit (9 # 10) "x^2 = 16" "x = 4"]
                                  | _ => Some []
                                  end))
                 v 20
                 (RagTool.requested
                    (RagTool.mkUsedFilters [("topic"%string, lit "Algebra")] [] true))
               = Some []
            /\ RagTool.effective
                 (RagTool.mkUsedFilters [("topic"%string, lit "Algebra")] [] true)
               = []
            /\ RagTool.search
                 (RagTool.mkServices true (fun _ => Some [1%Q])
                    (fun _ _ f => match f with
                                  | [] => Some [Ref.hit (9 # 10) "x^2 = 16" "x = 4"]
                                  | _ => Some []
                                  end))
                 v 20 []
               = Some [Ref.hit (9 # 10) "x^2 = 16" "x = 4"]
       else RagTool.effective
              (RagTool.mkUsedFilters [("topic"%string, lit "Algebra")] [] true)
            = RagTool.requested
                (RagTool.mkUsedFilters [("topic"%string, lit "Algebra")] [] true)
            /\ RagTool.search
                 (RagTool.mkServices true (fun _ => Some [1%Q])
                    (fun _ _ f => match f with
                                  | [] => Some [Ref.hit (9 # 10) "x^2 = 16" "x = 4"]
                                  | _ => Some []
                                  end))
                 v 20
                 (RagTool.requested
                    (RagTool.mkUsedFilters [("topic"%string, lit "Algebra")] [] true))
               = Some [Ref.hit (9 # 10) "x^2 = 16" "x = 4"]
            /\ ([Ref.hit (9 # 10) "x^2 = 16" "x = 4"] <> []
                \/ RagTool.requested
                     (RagTool.mkUsedFilters [("topic"%string, lit "Algebra")] [] true)
                   = []).
Proof.
  apply (reported_filters_are_the_ones_used
           (RagTool.mkServices true (fun _ => Some [1%Q])
              (fun _ _ f => match f with
                            | [] => Some [Ref.hit (9 # 10) "x^2 = 16" "x = 4"]
                            | _ => Some []
                            end))
           (mkRagArgs (lit " Solve x^2 = 16 ") 50 (Some (lit "Algebra")) None None)
           (lit "Solve x^2 = 16") 20
           (RagTool.mkUsedFilters [("topic"%string, lit "Algebra")] [] true)
           [Ref.hit (9 # 10) "x^2 = 16" "x = 4"]).
  vm_compute; reflexivity.
Defined.

(** X25: an outage of the local index degrades to the web search.
    When the node's tool is this tool and the services cannot be built,
    or embedding fails, or the index query fails, local retrieval stores
    no document and asks for the web fallback; the node does not raise. *)
Theorem index_outage_forces_web_fallback (S : RagTool.Services) (E : Ext)
    (t : nat) (state : MathState) :
  (forall t args,
     local_rag_search E t args
     = RagTool.reply (fst (RagTool.local_rag_search S args))) ->
  RagTool.services_up S = false
  \/ (forall text, RagTool.embed S text = None)
  \/ (forall v k f, RagTool.query_points S v k f = None) ->
  local_results (fst (local_rag_node E t state)) = Some []
  /\ needs_web_fallback (fst (local_rag_node E t state)) = Some true
  /\ rag_or_mcp (fst (local_rag_node E t state)) = N_mcp_search.
Proof.
  intros Htool Hdown.
  assert (Hreply : forall args,
            RagTool.reply (fst (RagTool.local_rag_search S args)) = ToolRaises
            \/ RagTool.reply (fst (RagTool.local_rag_search S args))
               = ToolOutput None).
  { intros args. unfold RagTool.local_rag_search. cbv zeta.
    destruct (negb (nonempty (strip (ra_query args)))); [right; reflexivity|].
    destruct Hdown as [Hup|[Hemb|Hqp]].
    - rewrite Hup. left. reflexivity.
    - destruct (negb (RagTool.services_up S)); [left; reflexivity|].
      rewrite Hemb. right. reflexivity.
    - destruct (negb (RagTool.services_up S)); [left; reflexivity|].
      destruct (RagTool.embed S _) as [v|]; [|right; reflexivity].
      assert (Hs : forall k f, RagTool.search S v k f = None)
        by (intros k f; unfold RagTool.search; destruct v; [reflexivity|apply Hqp]).
      rewrite Hs. right. reflexivity. }
  unfold local_rag_node, rag_or_mcp. cbv zeta.
  destruct (negb (nonempty _)); [repeat split; reflexivity|].
  rewrite Htool.
  destruct (Hreply (mkRagArgs
              match default [] (broken_queries state) with
              | [] => stripped_query state
              | b0 :: _ => strip b0
              end
              (if (default 5 (rag_top_k state) =? 0)%Z then 5%Z
               else default 5%Z (rag_top_k state))
              (topic state) (difficulty state) (subject state))) as [-> | ->];
    repeat split; reflexivity.
Qed.

Lemma index_outage_forces_web_fallback_witness :
  local_results
    (fst (local_rag_node
            (mkExt Ref.json_loads [] (8 # 10) (fun _ _ => LlmRaises)
               (fun _ args =>
                  RagTool.reply
                    (fst (RagTool.local_rag_search
                            (RagTool.mkServices true (fun _ => None)
                               (fun _ _ _ => Some []))
                            args)))
               (fun _ _ => None) (fun _ _ => None)
               (fun _ _ _ => None) (fun _ _ _ => LlmRaises))
            3 (initial_state (lit "Solve x^2 = 16"))))
  = Some []
  /\ needs_web_fallback
       (fst (local_rag_node
               (mkExt Ref.json_loads [] (8 # 10) (fun _ _ => LlmRaises)
                  (fun _ args =>
                     RagTool.reply
                       (fst (RagTool.local_rag_search
                               (RagTool.mkServices true (fun _ => None)
                                  (fun _ _ _ => Some []))
                               args)))
                  (fun _ _ => None) (fun _ _ => None)
                  (fun _ _ _ => None) (fun _ _ _ => LlmRaises))
               3 (initial_state (lit "Solve x^2 = 16"))))
     = Some true
  /\ rag_or_mcp
       (fst (local_rag_node
               (mkExt Ref.json_loads [] (8 # 10) (fun _ _ => LlmRaises)
                  (fun _ args =>
                     RagTool.reply
                       (fst (RagTool.local_rag_search
                               (RagTool.mkServices true (fun _ => None)
                                  (fun _ _ _ => Some []))
                               args)))
                  (fun _ _ => None) (fun _ _ => None)
                  (fun _ _ _ => None) (fun _ _ _ => LlmRaises))
               3 (initial_state (lit "Solve x^2 = 16"))))
     = N_mcp_search.
Proof.
  apply (index_outage_forces_web_fallback
           (RagTool.mkServices true (fun _ => None) (fun _ _ _ => Some []))
           (mkExt Ref.json_loads [] (8 # 10) (fun _ _ => LlmRaises)
              (fun _ args =>
                 RagTool.reply
                   (fst (RagTool.local_rag_search
                           (RagTool.mkServices true (fun _ => None)
                              (fun _ _ _ => Some []))
                           args)))
              (fun _ _ => None) (fun _ _ => None)
              (fun _ _ _ => None) (fun _ _ _ => LlmRaises))
           3 (initial_state (lit "Solve x^2 = 16"))).
  - intros t args. reflexivity.
  - right. left. intros text. reflexivity.
Defined.

(** ** The web search server *)

Lemma format_results_bounded (raw : list SearchServer.RawItem)
    (results : list SearchServer.Item) :
  SearchServer.format_results raw = Some results ->
  length results = length raw
  /\ Forall (fun it => length (SearchServer.content it) <= 1000) results.
Proof.
  revert results. induction raw as [|item raw IH]; intros results H.
  - injection H as <-. split; [reflexivity|constructor].
  - cbn [SearchServer.format_results] in H.
    destruct (SearchServer.sliced_content (SearchServer.raw_body item)) as [c|] eqn:Hc;
      [|discriminate].
    destruct (SearchServer.format_results raw) as [rs|]; [|discriminate].
    injection H as <-. destruct (IH rs eq_refl) as [Hlen Hall].
    split; [simpl; lia|]. constructor; [|exact Hall].
    cbn [SearchServer.content].
    destruct (SearchServer.raw_body item); try discriminate;
      injection Hc as <-; [simpl; lia|rewrite length_take; lia].
Qed.

Lemma tavily_search_results (post : SearchServer.Request -> option (list SearchServer.RawItem))
    (key query : str) (n_results : Z) (q : str) (results : list SearchServer.Item) :
  fst (SearchServer.tavily_search post key query n_results)
  = SearchServer.Results q results ->
  Forall (fun it => length (SearchServer.content it) <= 1000) results
  /\ exists r raw,
       snd (SearchServer.tavily_search post key query n_results) = [r]
       /\ post r = Some raw /\ length results = length raw.
Proof.
  unfold SearchServer.tavily_search. cbv zeta.
  destruct (negb (nonempty (strip query))); [discriminate|].
  destruct (negb (nonempty key)); [discriminate|].
  destruct (post _) as [raw|] eqn:Hpost; [|discriminate].
  destruct (SearchServer.format_results raw) as [rs|] eqn:Hf; [|discriminate].
  cbn [fst snd]. intros [= <- <-].
  destruct (format_results_bounded raw rs Hf) as [Hlen Hall].
  split; [exact Hall|]. eexists _, raw. split; [reflexivity|]. split; assumption.
Qed.

(** X26: the search tool sends at most one request, only for a
    trimmed non-empty query with a configured key, and asks for between 1
    and 10 results, for exactly [n_results] when that lies in this range;
    every result it returns has a content of at most 1000 characters, and
    there is one result per raw result, none dropped. *)
Theorem tavily_search_is_bounded (post : SearchServer.Request -> option (list SearchServer.RawItem))
    (key query : str) (n_results : Z) :
  length (snd (SearchServer.tavily_search post key query n_results)) <= 1
  /\ Forall (fun r =>
               SearchServer.req_query r = strip query
               /\ SearchServer.req_query r <> []
               /\ SearchServer.api_key r = key /\ key <> []
               /\ (1 <= SearchServer.max_results r <= 10)%Z
               /\ ((1 <= n_results <= 10)%Z ->
                   SearchServer.max_results r = n_results))
       (snd (SearchServer.tavily_search post key query n_results))
  /\ forall q results,
       fst (SearchServer.tavily_search post key query n_results)
       = SearchServer.Results q results ->
       Forall (fun it => length (SearchServer.content it) <= 1000) results
       /\ exists r raw,
            snd (SearchServer.tavily_search post key query n_results) = [r]
            /\ post r = Some raw /\ length results = length raw.
Proof.
  cut (length (snd (SearchServer.tavily_search post key query n_results)) <= 1
       /\ Forall (fun r =>
               SearchServer.req_query r = strip query
               /\ SearchServer.req_query r <> []
               /\ SearchServer.api_key r = key /\ key <> []
               /\ (1 <= SearchServer.max_results r <= 10)%Z
               /\ ((1 <= n_results <= 10)%Z ->
                   SearchServer.max_results r = n_results))
            (snd (SearchServer.tavily_search post key query n_results))).
  { intros [H1 H2]. split; [exact H1|]. split; [exact H2|].
    intros q results. apply tavily_search_results. }
  unfold SearchServer.tavily_search. cbv zeta.
  destruct (nonempty (strip query)) eqn:Hq; cbn [negb];
    [|split; [simpl; lia|constructor]].
  destruct (nonempty key) eqn:Hk; cbn [negb];
    [|split; [simpl; lia|constructor]].
  apply nonempty_true in Hq, Hk.
  set (n := if (10 <? _)%Z then 10%Z else _).
  assert (Hn : (1 <= n <= 10)%Z /\ ((1 <= n_results <= 10)%Z -> n = n_results)).
  { subst n. destruct (n_results <=? 0)%Z eqn:H0;
      [apply Z.leb_le in H0|apply Z.leb_gt in H0].
    - cbn. lia.
    - destruct (10 <? n_results)%Z eqn:H10;
        [apply Z.ltb_lt in H10|apply Z.ltb_ge in H10]; lia. }
  assert (Hreq : Forall (fun r =>
               SearchServer.req_query r = strip query
               /\ SearchServer.req_query r <> []
               /\ SearchServer.api_key r = key /\ key <> []
               /\ (1 <= SearchServer.max_results r <= 10)%Z
               /\ ((1 <= n_results <= 10)%Z ->
                   SearchServer.max_results r = n_results))
            [SearchServer.mkRequest key (strip query) n]).
  { constructor; [|constructor]. cbn. tauto. }
  destruct (post _) as [raw|]; [|split; [simpl; lia|exact Hreq]].
  destruct (SearchServer.format_results raw) as [rs|];
    split; try (simpl; lia); exact Hreq.
Qed.

(** X27: web results reach the pipeline already cut.  When the bridge
    hands over what the search tool returns for the node's request (the
    trimmed query, 3 results), every web result the node stores is tagged
    [tavily] and has a content of at most 1000 characters; when the tool
    answers with an error dict, no web result is stored. *)
Theorem stored_web_results_are_cut (post : SearchServer.Request -> option (list SearchServer.RawItem))
    (key : str) (E : Ext) (t : nat) (state : MathState) :
  (forall t q,
     bridge_results E t q
     = SearchServer.bridged (fst (SearchServer.tavily_search post key q 3))) ->
  exists items,
    web_results (fst (mcp_search_node E t state)) = Some items
    /\ Forall (fun w => w_source w = Some (lit "tavily")
                        /\ exists c, w_content w = Some c /\ length c <= 1000)
         items
    /\ ((forall q results,
           fst (SearchServer.tavily_search post key (stripped_query state) 3)
           <> SearchServer.Results q results) -> items = []).
Proof.
  intros Hbridge.
  destruct (mcp_search_web_results E t state) as (its & Hst & Hits).
  exists (map tavily_to_web its). rewrite Hst. split; [reflexivity|].
  pose proof (fun q results H =>
                proj1 (tavily_search_results post key (stripped_query state) 3
                         q results H)) as Haux.
  destruct Hits as [->|Hits]; [split; [constructor|reflexivity]|].
  rewrite Hbridge in Hits.
  destruct (fst (SearchServer.tavily_search post key (stripped_query state) 3))
    as [msg|q results] eqn:Hout; [discriminate|].
  cbn [SearchServer.bridged] in Hits. injection Hits as <-.
  specialize (Haux q results eq_refl).
  split.
  - rewrite map_map. apply List.Forall_forall. intros w Hw.
    apply List.in_map_iff in Hw. destruct Hw as (it & <- & Hit).
    split; [reflexivity|]. eexists. split; [reflexivity|].
    cbn [from_option id].
    apply (proj1 (List.Forall_forall _ _) Haux it Hit).
  - intros Hno. exfalso. apply (Hno q results). reflexivity.
Qed.

Lemma stored_web_results_are_cut_witness :
  exists items,
    web_results
      (fst (mcp_search_node
              (mkExt Ref.json_loads [] (8 # 10) (fun _ _ => LlmRaises)
                 (fun _ _ => ToolRaises)
                 (fun _ q =>
                    SearchServer.bridged
                      (fst (SearchServer.tavily_search
                              (fun _ => Some [SearchServer.mkRawItem
                                                (Some (lit "Roots")) None
                                                (SearchServer.ContentStr
                                                   (repeat "a"%char 1500))])
                              (lit "tvly-key") q 3)))
                 (fun _ _ => None) (fun _ _ _ => None) (fun _ _ _ => LlmRaises))
              4 (initial_state (lit "Solve x^2 = 16"))))
    = Some items
    /\ Forall (fun w => w_source w = Some (lit "tavily")
                        /\ exists c, w_content w = Some c /\ length c <= 1000)
         items
    /\ ((forall q results,
           fst (SearchServer.tavily_search
                  (fun _ => Some [SearchServer.mkRawItem
                                    (Some (lit "Roots")) None
                                    (SearchServer.ContentStr (repeat "a"%char 1500))])
                  (lit "tvly-key")
                  (stripped_query (initial_state (lit "Solve x^2 = 16"))) 3)
           <> SearchServer.Results q results) -> items = []).
Proof.
  apply (stored_web_results_are_cut
           (fun _ => Some [SearchServer.mkRawItem
                             (Some (lit "Roots")) None
                             (SearchServer.ContentStr (repeat "a"%char 1500))])
           (lit "tvly-key")
           (mkExt Ref.json_loads [] (8 # 10) (fun _ _ => LlmRaises)
              (fun _ _ => ToolRaises)
              (fun _ q =>
                 SearchServer.bridged
                   (fst (SearchServer.tavily_search
                           (fun _ => Some [SearchServer.mkRawItem
                                             (Some (lit "Roots")) None
                                             (SearchServer.ContentStr
                                                (repeat "a"%char 1500))])
                           (lit "tvly-key") q 3)))
              (fun _ _ => None) (fun _ _ _ => None) (fun _ _ _ => LlmRaises))
           4 (initial_state (lit "Solve x^2 = 16"))).
  intros t q. reflexivity.
Defined.

(** ** The retrieval context of the feedback record *)

Lemma join_length_bound (sep : str) (m : nat) (parts : list str) :
  Forall (fun p => length p <= m) parts ->
  parts <> [] ->
  length (join sep parts) + length sep <= length parts * (m + length sep).
Proof.
  induction 1 as [|p parts Hp _ IH]; [congruence|]. intros _.
  destruct parts as [|p' parts].
  - cbn [join length]. lia.
  - change (join sep (p :: p' :: parts)) with (p ++ sep ++ join sep (p' :: parts)).
    rewrite !length_app. specialize (IH ltac:(discriminate)).
    cbn [length] in *. lia.
Qed.

Lemma context_chunks_bounded (docs : list Document) :
  forall i,
    length (context_chunks i docs) <= length docs
    /\ Forall (fun p => length p <= 408) (context_chunks i docs).
Proof.
  induction docs as [|d docs IH]; intros i; [split; [reflexivity|constructor]|].
  cbn [context_chunks]. destruct (IH (S i)) as [Hlen Hall].
  destruct (nonempty (strip (page_content d))); cbn [app length].
  - split; [lia|]. constructor; [|exact Hall].
    rewrite length_app. cbn [length]. rewrite length_app, length_take.
    change (length (lit "[Doc ")) with 5. change (length (lit "] ")) with 2.
    lia.
  - split; [lia|exact Hall].
Qed.

(** X28: the retrieval context written to the feedback record is
    bounded: it is built from the first five ranked documents only, has at
    most five chunks of at most 408 characters (a position label and 400
    characters of the trimmed text), and so at most 2048 characters in
    all. *)
Theorem logged_context_is_bounded (docs : list Document) :
  retrieval_context docs = retrieval_context (take 5 docs)
  /\ length (context_chunks 1 (take 5 docs)) <= 5
  /\ Forall (fun p => length p <= 408) (context_chunks 1 (take 5 docs))
  /\ length (retrieval_context docs) <= 2048.
Proof.
  destruct (context_chunks_bounded (take 5 docs) 1) as [Hlen Hall].
  rewrite length_take in Hlen.
  split; [unfold retrieval_context; rewrite take_take; reflexivity|].
  split; [lia|]. split; [exact Hall|].
  unfold retrieval_context.
  destruct (decide (context_chunks 1 (take 5 docs) = [])) as [->|Hne];
    [simpl; lia|].
  pose proof (join_length_bound (nl ++ nl) 408 _ Hall Hne) as H.
  change (length (nl ++ nl)) with 2 in H.
  assert (length (context_chunks 1 (take 5 docs)) * (408 + 2) <= 5 * 410) by nia.
  lia.
Qed.

(** ** Ingestion *)

Lemma strip_nonspace_nonempty (s : str) (c : ascii) :
  In c s -> isspace c = false -> strip s <> [].
Proof.
  intros Hin Hc Hs.
  destruct (strip_split s) as (ws1 & ws2 & Heq & H1 & H2).
  rewrite Hs in Heq. cbn [app] in Heq. rewrite Heq in Hin.
  apply in_app_or in Hin.
  assert (Hall : forall ws, forallb isspace ws = true -> In c ws -> False).
  { intros ws Hws Hc'. rewrite forallb_forall in Hws.
    rewrite (Hws c Hc') in Hc. discriminate. }
  destruct Hin as [Hin|Hin]; eauto.
Qed.

Lemma make_point_id_digest (digest : str -> Z) (record : Ingest.RawRecord)
    (fallback_counter : Z) :
  Ingest.make_point_id digest record fallback_counter
  = digest (Ingest.id_text record).
Proof.
  unfold Ingest.make_point_id. cbv zeta.
  assert (H : strip (Ingest.id_text record) <> []).
  { apply (strip_nonspace_nonempty _ "|"%char); [|reflexivity].
    unfold Ingest.id_text. apply in_or_app. right. apply in_or_app. left.
    left. reflexivity. }
  apply nonempty_true in H. rewrite H. reflexivity.
Qed.

(** X29: the id of a point is always the digest of its trimmed
    problem and solution: the text that is hashed contains the separator
    and is never blank, so the fallback counter is never used.  Two
    records with the same trimmed problem and solution therefore get the
    same id, whatever their other fields and their place in the stream. *)
Theorem point_id_never_uses_the_counter (digest : str -> Z)
    (record : Ingest.RawRecord) :
  (forall fallback_counter,
     Ingest.make_point_id digest record fallback_counter
     = digest (Ingest.id_text record))
  /\ forall record' c c',
       strip (Ingest.get_or (Ingest.r_problem record))
       = strip (Ingest.get_or (Ingest.r_problem record')) ->
       strip (Ingest.get_or (Ingest.r_solution record))
       = strip (Ingest.get_or (Ingest.r_solution record')) ->
       Ingest.make_point_id digest record c
       = Ingest.make_point_id digest record' c'.
Proof.
  split; [apply make_point_id_digest|].
  intros record' c c' Hp Hs. rewrite !make_point_id_digest.
  unfold Ingest.id_text. rewrite Hp, Hs. reflexivity.
Qed.

Lemma zip_unzip3 (pend : list Ingest.point) :
  zip (zip (map (fun p => fst (fst p)) pend) (map (fun p => snd (fst p)) pend))
    (map snd pend) = pend.
Proof.
  induction pend as [|[[i v] p] pend IH]; [reflexivity|].
  cbn [map zip_with fst snd]. f_equal. exact IH.
Qed.

Lemma upsert_writes (client_upsert : list Ingest.point -> bool)
    (pend : list Ingest.point) :
  (forall points, client_upsert points = true) -> pend <> [] ->
  Ingest.upsert client_upsert (map (fun p => fst (fst p)) pend)
    (map (fun p => snd (fst p)) pend) (map snd pend)
  = (Ingest.Written, [pend]).
Proof.
  intros Hup Hne. unfold Ingest.upsert. rewrite !length_map, !Nat.eqb_refl.
  cbn [andb negb]. cbv zeta. rewrite zip_unzip3, Hup.
  destruct pend; [congruence|reflexivity].
Qed.

Lemma indexed_payload_has_problem (svc : Ingest.Services)
    (record : Ingest.RawRecord) (p : Ingest.point) (score : option Q) :
  Ingest.indexed_point svc record = Some p ->
  is_Some (hit_to_doc (mkRawHit score (Some (snd p)))).
Proof.
  unfold Ingest.indexed_point. cbv zeta.
  destruct (nonempty (Ingest.build_embedding_text record)) eqn:Ht;
    cbn [negb]; [|discriminate].
  destruct (Ingest.embed svc _) as [vec|]; [|discriminate].
  intros [= <-]. cbn [snd]. unfold hit_to_doc. cbv zeta.
  cbn [hit_payload from_option id Ingest.build_payload p_problem].
  assert (Hp : strip (default [] (Ingest.get_default (Ingest.r_problem record)))
               = Ingest.build_embedding_text record).
  { unfold Ingest.build_embedding_text.
    destruct (Ingest.r_problem record); reflexivity. }
  change (id (Ingest.build_payload record)) with (Ingest.build_payload record).
  cbn [Ingest.build_payload p_problem]. rewrite Hp, Ht. cbn [negb]. eexists.
  reflexivity.
Qed.

Lemma ingest_loop_completes (svc : Ingest.Services) (batch_size : Z) :
  (forall points, Ingest.client_upsert svc points = true) ->
  forall (records : list Ingest.RawRecord) (l : Ingest.Locals)
         (written : list (list Ingest.point)) (pend : list Ingest.point),
    Ingest.ids_batch l = map (fun p => fst (fst p)) pend ->
    Ingest.vectors_batch l = map (fun p => snd (fst p)) pend ->
    Ingest.payloads_batch l = map snd pend ->
    (Z.of_nat (length pend) < Z.max 1 batch_size)%Z ->
    Ingest.upsert_count l = Z.of_nat (length (concat written)) ->
    Forall (fun b => 1 <= length b
                     /\ (Z.of_nat (length b) <= Z.max 1 batch_size)%Z) written ->
    exists batches,
      Ingest.ingest_loop svc batch_size records l written
      = (Ingest.Completed
           (Ingest.record_count l + Z.of_nat (length records))
           (Z.of_nat (length (concat batches))), batches)
      /\ concat batches
         = concat written ++ pend ++ omap (Ingest.indexed_point svc) records
      /\ Forall (fun b => 1 <= length b
                          /\ (Z.of_nat (length b) <= Z.max 1 batch_size)%Z)
           batches.
Proof.
  intros Hup. induction records as [|rec rest IH];
    intros l written pend Hids Hvecs Hpays Hlen Hcount Hall.
  - cbn [Ingest.ingest_loop omap list_omap length]. rewrite Z.add_0_r, app_nil_r.
    destruct pend as [|p pend].
    + rewrite Hvecs. cbn [map]. exists written.
      rewrite Hcount, app_nil_r. split; [reflexivity|]. split; [reflexivity|exact Hall].
    + rewrite Hvecs, Hids, Hpays.
      rewrite (upsert_writes _ (p :: pend) Hup) by discriminate.
      cbn [map]. exists (written ++ [p :: pend]).
      rewrite concat_app. cbn [concat]. rewrite app_nil_r.
      split; [|split; [reflexivity|]].
      * f_equal. f_equal. rewrite Hcount, length_app. cbn [length].
        rewrite length_map. (unfold Ingest.point in *; lia).
      * apply Forall_app. split; [exact Hall|].
        constructor; [|constructor]. cbn [length] in *. (unfold Ingest.point in *; lia).
  - cbn [Ingest.ingest_loop]. cbv zeta.
    assert (Hrc : forall z : Z, (z + 1 + Z.of_nat (length rest)
                                 = z + Z.of_nat (length (rec :: rest)))%Z)
      by (intros z; cbn [length]; lia).
    unfold Ingest.indexed_point at 1 in IH.
    cbn [omap list_omap]. unfold Ingest.indexed_point at 1. cbv zeta.
    destruct (negb (nonempty (Ingest.build_embedding_text rec))).
    { destruct (IH (Ingest.mkLocals (Ingest.vectors_batch l)
                      (Ingest.payloads_batch l) (Ingest.ids_batch l)
                      (Ingest.fallback_counter l) (Ingest.record_count l + 1)
                      (Ingest.upsert_count l)) written pend)
        as (batches & Hrun & Hcat & Hb); try assumption.
      exists batches. rewrite Hrun. cbn [Ingest.record_count]. rewrite Hrc.
      split; [reflexivity|]. split; assumption. }
    destruct (Ingest.embed svc (Ingest.build_embedding_text rec)) as [vec|].
    2:{ destruct (IH (Ingest.mkLocals (Ingest.vectors_batch l)
                      (Ingest.payloads_batch l) (Ingest.ids_batch l)
                      (Ingest.fallback_counter l) (Ingest.record_count l + 1)
                      (Ingest.upsert_count l)) written pend)
        as (batches & Hrun & Hcat & Hb); try assumption.
      exists batches. rewrite Hrun. cbn [Ingest.record_count]. rewrite Hrc.
      split; [reflexivity|]. split; assumption. }
    rewrite make_point_id_digest.
    set (p := (Ingest.digest svc (Ingest.id_text rec), vec, Ingest.build_payload rec)).
    assert (Hids' : Ingest.ids_batch l ++ [Ingest.digest svc (Ingest.id_text rec)]
                    = map (fun p => fst (fst p)) (pend ++ [p]))
      by (rewrite map_app, Hids; reflexivity).
    assert (Hvecs' : Ingest.vectors_batch l ++ [vec]
                     = map (fun p => snd (fst p)) (pend ++ [p]))
      by (rewrite map_app, Hvecs; reflexivity).
    assert (Hpays' : Ingest.payloads_batch l ++ [Ingest.build_payload rec]
                     = map snd (pend ++ [p]))
      by (rewrite map_app, Hpays; reflexivity).
    rewrite Hids', Hvecs', Hpays'.
    rewrite length_map, length_app. cbn [length].
    destruct (batch_size <=? Z.of_nat (length pend + 1))%Z eqn:Hflush.
    + apply Z.leb_le in Hflush.
      rewrite (upsert_writes _ (pend ++ [p]) Hup)
        by (destruct pend; discriminate).
      destruct (IH (Ingest.mkLocals [] [] [] (Ingest.fallback_counter l + 1)
                      (Ingest.record_count l + 1)
                      (Ingest.upsert_count l + Z.of_nat (length pend + 1)))
                  (written ++ [pend ++ [p]]) [])
        as (batches & Hrun & Hcat & Hb); try reflexivity.
      * cbn [length]. (unfold Ingest.point in *; lia).
      * cbn [Ingest.upsert_count]. rewrite Hcount, concat_app. cbn [concat].
        rewrite app_nil_r, !length_app. cbn [length]. (unfold Ingest.point in *; lia).
      * apply Forall_app. split; [exact Hall|].
        constructor; [|constructor]. rewrite length_app. cbn [length]. (unfold Ingest.point in *; lia).
      * exists batches. rewrite Hrun. cbn [Ingest.record_count]. rewrite Hrc.
        split; [reflexivity|]. split; [|exact Hb].
        rewrite Hcat, concat_app. cbn [concat app].
        rewrite app_nil_r, <- !app_assoc. reflexivity.
    + apply Z.leb_gt in Hflush.
      destruct (IH (Ingest.mkLocals (map (fun p => snd (fst p)) (pend ++ [p]))
                      (map snd (pend ++ [p]))
                      (map (fun p => fst (fst p)) (pend ++ [p]))
                      (Ingest.fallback_counter l + 1)
                      (Ingest.record_count l + 1) (Ingest.upsert_count l))
                  written (pend ++ [p]))
        as (batches & Hrun & Hcat & Hb); try reflexivity; try assumption.
      * rewrite length_app. cbn [length]. (unfold Ingest.point in *; lia).
      * exists batches. rewrite Hrun. cbn [Ingest.record_count]. rewrite Hrc.
        split; [reflexivity|]. split; [|exact Hb].
        rewrite Hcat, <- !app_assoc. reflexivity.
Qed.

(** X30: when the index accepts every batch, ingestion completes and
    loses nothing: the batches it writes, concatenated, are exactly the
    points of the records that have a non-blank problem and an embedding,
    in stream order (so the final partial batch is flushed); no batch is
    empty or larger than the batch size; the totals it reports are the
    number of records read and of points written; and every payload
    written is one local retrieval turns into a document. *)
Theorem ingestion_writes_every_usable_record (svc : Ingest.Services)
    (batch_size : Z) (records : list Ingest.RawRecord) :
  (forall points, Ingest.client_upsert svc points = true) ->
  exists batches,
    Ingest.ingest_dataset svc batch_size records
    = (Ingest.Completed (Z.of_nat (length records))
         (Z.of_nat (length (omap (Ingest.indexed_point svc) records))), batches)
    /\ concat batches = omap (Ingest.indexed_point svc) records
    /\ Forall (fun b => 1 <= length b
                        /\ (Z.of_nat (length b) <= Z.max 1 batch_size)%Z) batches
    /\ Forall (fun p => forall score,
                 is_Some (hit_to_doc (mkRawHit score (Some (snd p)))))
         (omap (Ingest.indexed_point svc) records).
Proof.
  intros Hup.
  destruct (ingest_loop_completes svc batch_size Hup records Ingest.start [] [])
    as (batches & Hrun & Hcat & Hb); try reflexivity; [cbn; lia|constructor|].
  cbn [concat app Ingest.record_count Ingest.start] in Hrun, Hcat.
  exists batches. unfold Ingest.ingest_dataset. rewrite Hrun, Hcat.
  split; [reflexivity|]. split; [reflexivity|]. split; [exact Hb|].
  apply List.Forall_forall. intros p Hp score.
  clear - Hp. induction records as [|rec rest IH]; [destruct Hp|].
  cbn [omap list_omap] in Hp.
  destruct (Ingest.indexed_point svc rec) as [p'|] eqn:Hrec; [|apply IH, Hp].
  destruct Hp as [<-|Hp]; [|apply IH, Hp].
  eapply indexed_payload_has_problem. exact Hrec.
Qed.

Lemma ingestion_writes_every_usable_record_witness :
  exists batches,
    Ingest.ingest_dataset sample_services 2 sample_records
    = (Ingest.Completed (Z.of_nat (length sample_records))
         (Z.of_nat (length (omap (Ingest.indexed_point sample_services)
                              sample_records))), batches)
    /\ concat batches = omap (Ingest.indexed_point sample_services) sample_records
    /\ Forall (fun b => 1 <= length b
                        /\ (Z.of_nat (length b) <= Z.max 1 2)%Z) batches
    /\ Forall (fun p => forall score,
                 is_Some (hit_to_doc (mkRawHit score (Some (snd p)))))
         (omap (Ingest.indexed_point sample_services) sample_records).
Proof.
  apply (ingestion_writes_every_usable_record sample_services 2 sample_records).
  intros points. reflexivity.
Defined.
